(** * SmartParkIOT edge node: occupancy engine and reliable delivery buffer

    A shallow embedding of [v2/edge/services/occupancy.py] and
    [v2/edge/services/stats_sender.py], followed by the properties of the
    specification that concern them, and of [v2/edge/services/inference.py]
    and the processing loop of [v2/edge/main.py].

    Conventions of the embedding.
    - Python floats (confidences, wall-clock seconds) are exact rationals
      [Q]; comparisons and subtraction are those of [Q], rounding is not
      modelled, except in the running average of the inference times,
      where it is a parameter.
    - Python strings are [string]; the slot states are the strings the code
      uses ("unknown", "free", "occupied").
    - A Python [dict] is an insertion-ordered association list with unique
      keys; [d[k]] on a missing key raises [KeyError].
    - Code that can raise returns a [result]; [time.time()] and the HTTP
      response are inputs of the operation that reads them. *)

From Stdlib Require Import QArith Qround ZArith Ascii String List Bool Lia.
From Stdlib Require Import Permutation Sorted Lqa.
Import ListNotations.

Set Implicit Arguments.

(** ** Python primitives *)

Inductive exn : Set := KeyError | TypeError | ZeroDivisionError | ValueError.

Inductive result (A : Type) : Type :=
| Ok (a : A)
| Raise (e : exn).

Arguments Ok {A} a.
Arguments Raise {A} e.

Definition bind {A B : Type} (r : result A) (k : A -> result B) : result B :=
  match r with
  | Ok a => k a
  | Raise e => Raise e
  end.

Notation "x <- c ;; k" := (bind c (fun x => k))
  (at level 61, c at next level, right associativity).
Notation "' p <- c ;; k" := (bind c (fun x => let p := x in k))
  (at level 61, p pattern, c at next level, right associativity).

Module Py.

(** [a < b] and [a >= b] on floats. *)
Definition lt (a b : Q) : bool := negb (Qle_bool b a).
Definition ge (a b : Q) : bool := Qle_bool b a.

(** [max(a, b)]: the first argument unless the second is strictly larger. *)
Definition max (a b : Q) : Q := if lt a b then b else a.

(** [int(x)] on a float: truncation toward zero. *)
Definition int (x : Q) : Z := Z.quot (Qnum x) (Zpos (Qden x)).

(** [a != b] for an [Optional[str]] against a [str]. *)
Definition opt_str_ne (a : option string) (b : string) : bool :=
  match a with
  | Some s => negb (String.eqb s b)
  | None => true
  end.

Definition dict (V : Type) : Type := list (string * V).

(** [d[k]] *)
Fixpoint getitem {V : Type} (d : dict V) (k : string) : result V :=
  match d with
  | [] => Raise KeyError
  | (k', v) :: d' => if String.eqb k' k then Ok v else getitem d' k
  end.

(** [d.get(k, default)] *)
Definition get {V : Type} (d : dict V) (k : string) (default : V) : V :=
  match getitem d k with
  | Ok v => v
  | Raise _ => default
  end.

(** [d[k] = v]: an existing key keeps its position, a new key goes last. *)
Fixpoint setitem {V : Type} (d : dict V) (k : string) (v : V) : dict V :=
  match d with
  | [] => [(k, v)]
  | (k', v') :: d' =>
      if String.eqb k' k then (k', v) :: d' else (k', v') :: setitem d' k v
  end.

Definition keys {V : Type} (d : dict V) : list string := map fst d.
Definition values {V : Type} (d : dict V) : list V := map snd d.

End Py.

(** ** Geometry interface

    [occupancy.py] takes its polygons from Shapely: [Polygon(points)]
    builds one (and may raise), [polygon.contains(Point(x, y))] tests a
    point. The engine is written against this interface. *)

Definition Point : Set := (Q * Q)%type.

Class Geometry : Type := {
  Polygon : Type;
  Polygon_new : list Point -> result Polygon;
  contains : Polygon -> Point -> bool
}.

(** A [datetime] is used only through [isoformat()]. *)
Record datetime : Set := { isoformat : string }.

(** ** occupancy.py *)

Module Occupancy.
Section Engine.
Context `{G : Geometry}.

(** A detection as the engine reads it: [detection['center']['x']],
    [detection['center']['y']], [detection['confidence']]. *)
Record Detection : Type := {
  center_x : Q;
  center_y : Q;
  det_confidence : Q
}.

Definition center (d : Detection) : Point := (center_x d, center_y d).

Record SlotState : Type := {
  slot_id : string;
  polygon : Polygon;
  current_state : string;
  confidence : Q;
  last_change : Q;
  pending_state : option string;
  pending_since : option Q;
  dwell_start : Q
}.

(** The event dictionary built by [_update_slot_state]. *)
Record Event : Type := {
  ev_slot_id : string;
  ev_state : string;
  ev_previous_state : string;
  ev_confidence : Q;
  ev_ts_utc : string;
  ev_dwell_s : Z;
  ev_roi_version : string
}.

Record OccupancyProcessor : Type := {
  debounce_seconds : Q;
  enter_threshold : Q;
  exit_threshold : Q;
  capture_resolution : Q * Q;
  slots : Py.dict SlotState;
  _roi_version : string
}.

Definition set_slots (self : OccupancyProcessor) (sl : Py.dict SlotState)
  : OccupancyProcessor :=
  {| debounce_seconds := debounce_seconds self;
     enter_threshold := enter_threshold self;
     exit_threshold := exit_threshold self;
     capture_resolution := capture_resolution self;
     slots := sl;
     _roi_version := _roi_version self |}.

(** The hysteresis block at the head of [_update_slot_state]. *)
Definition hysteresis (self : OccupancyProcessor) (current new_state : string)
    (conf : Q) : string :=
  if String.eqb current "free" && String.eqb new_state "occupied" then
    if Py.lt conf (enter_threshold self) then "free"%string else new_state
  else if String.eqb current "occupied" && String.eqb new_state "free" then
    if Py.lt conf (exit_threshold self) then "occupied"%string else new_state
  else new_state.

Definition _update_slot_state (self : OccupancyProcessor) (slot : SlotState)
    (new_state : string) (conf : Q) (timestamp : datetime) (current_time : Q)
  : result (SlotState * option Event) :=
  let new_state := hysteresis self (current_state slot) new_state conf in
  if negb (String.eqb new_state (current_state slot)) then
    if Py.opt_str_ne (pending_state slot) new_state then
      Ok ({| slot_id := slot_id slot;
             polygon := polygon slot;
             current_state := current_state slot;
             confidence := conf;
             last_change := last_change slot;
             pending_state := Some new_state;
             pending_since := Some current_time;
             dwell_start := dwell_start slot |}, None)
    else
      match pending_since slot with
      | None => Raise TypeError
      | Some since =>
          if Py.ge (current_time - since) (debounce_seconds self) then
            let dwell_s := Py.int (current_time - dwell_start slot) in
            let event :=
              {| ev_slot_id := slot_id slot;
                 ev_state := new_state;
                 ev_previous_state := current_state slot;
                 ev_confidence := conf;
                 ev_ts_utc := isoformat timestamp;
                 ev_dwell_s := dwell_s;
                 ev_roi_version := _roi_version self |} in
            Ok ({| slot_id := slot_id slot;
                   polygon := polygon slot;
                   current_state := new_state;
                   confidence := confidence slot;
                   last_change := current_time;
                   pending_state := None;
                   pending_since := None;
                   dwell_start := current_time |}, Some event)
          else Ok (slot, None)
      end
  else
    Ok ({| slot_id := slot_id slot;
           polygon := polygon slot;
           current_state := current_state slot;
           confidence := conf;
           last_change := last_change slot;
           pending_state := None;
           pending_since := None;
           dwell_start := dwell_start slot |}, None).

(** The first loop of [process_detections]: for one detection, the inner
    loop over [self.slots.items()]. *)
Fixpoint scan_slots (items : list (string * SlotState)) (d : Detection)
    (acc : Py.dict bool * Py.dict Q) : result (Py.dict bool * Py.dict Q) :=
  match items with
  | [] => Ok acc
  | (sid, slot_state) :: rest =>
      if contains (polygon slot_state) (center d) then
        let slot_occupancy := Py.setitem (fst acc) sid true in
        old <- Py.getitem (snd acc) sid ;;
        let slot_confidence :=
          Py.setitem (snd acc) sid (Py.max old (det_confidence d)) in
        scan_slots rest d (slot_occupancy, slot_confidence)
      else scan_slots rest d acc
  end.

Fixpoint scan_detections (sl : Py.dict SlotState) (detections : list Detection)
    (acc : Py.dict bool * Py.dict Q) : result (Py.dict bool * Py.dict Q) :=
  match detections with
  | [] => Ok acc
  | d :: rest =>
      acc' <- scan_slots sl d acc ;;
      scan_detections sl rest acc'
  end.

(** The second loop, over [slot_occupancy.items()]; the slot objects are
    mutated in place, the events are appended in iteration order. *)
Fixpoint update_slots (self : OccupancyProcessor)
    (items : list (string * bool)) (slot_confidence : Py.dict Q)
    (timestamp : datetime) (current_time : Q)
    (sl : Py.dict SlotState) (events : list Event)
  : result (Py.dict SlotState * list Event) :=
  match items with
  | [] => Ok (sl, events)
  | (sid, is_occupied) :: rest =>
      slot <- Py.getitem sl sid ;;
      let new_state := if is_occupied then "occupied"%string else "free"%string in
      conf <- (if is_occupied then Py.getitem slot_confidence sid
               else Ok (1 - Py.get slot_confidence sid 0)) ;;
      r <- _update_slot_state self slot new_state conf timestamp current_time ;;
      let sl' := Py.setitem sl sid (fst r) in
      let events' :=
        match snd r with
        | Some event => events ++ [event]
        | None => events
        end in
      update_slots self rest slot_confidence timestamp current_time sl' events'
  end.

(** [process_detections]; [current_time] is the reading of [time.time()]
    taken on entry. *)
Definition process_detections (self : OccupancyProcessor)
    (detections : list Detection) (timestamp : datetime) (current_time : Q)
  : result (OccupancyProcessor * list Event) :=
  let slot_occupancy := map (fun kv => (fst kv, false)) (slots self) in
  let slot_confidence := map (fun kv => (fst kv, 0)) (slots self) in
  obs <- scan_detections (slots self) detections
           (slot_occupancy, slot_confidence) ;;
  r <- update_slots self (fst obs) (snd obs) timestamp current_time
         (slots self) [] ;;
  Ok (set_slots self (fst r), snd r).

(** [get_summary]: the four numeric fields. *)
Record Summary : Set := {
  free_count : nat;
  occupied_count : nat;
  unknown_count : nat;
  total_slots : nat
}.

Definition count_state (st : string) (sl : Py.dict SlotState) : nat :=
  List.length
    (filter (fun s => String.eqb (current_state s) st) (Py.values sl)).

Definition get_summary (self : OccupancyProcessor) : Summary :=
  {| free_count := count_state "free" (slots self);
     occupied_count := count_state "occupied" (slots self);
     unknown_count := count_state "unknown" (slots self);
     total_slots := List.length (slots self) |}.

(** [get_roi_version] *)
Definition get_roi_version (self : OccupancyProcessor) : string :=
  _roi_version self.

(** An entry of [get_all_states]; [last_change] is left as the clock
    reading it is formatted from. *)
Record SlotReport : Set := {
  rep_slot_id : string;
  rep_state : string;
  rep_confidence : Q;
  rep_last_change : Q
}.

Definition get_all_states (self : OccupancyProcessor) : list SlotReport :=
  map (fun slot => {| rep_slot_id := slot_id slot;
                      rep_state := current_state slot;
                      rep_confidence := confidence slot;
                      rep_last_change := last_change slot |})
    (Py.values (slots self)).

(** The parsed slots file: [config.get('roi_version')],
    [config.get('image_size')], [config.get('slots')]. *)
Record SlotDef : Set := {
  def_slot_id : string;
  def_poly : list Point
}.

Record SlotsConfig : Set := {
  cfg_roi_version : option string;
  cfg_image_size : option (Q * Q);
  cfg_slots : option (list SlotDef)
}.

(** [SlotState(slot_id=..., polygon=...)]: the two [time.time()] default
    factories read the clock in field order. *)
Definition new_SlotState (sid : string) (poly : Polygon) (t_change t_dwell : Q)
  : SlotState :=
  {| slot_id := sid;
     polygon := poly;
     current_state := "unknown";
     confidence := 0;
     last_change := t_change;
     pending_state := None;
     pending_since := None;
     dwell_start := t_dwell |}.

(** The loop of [_load_slots]. [clock n] is the n-th reading of
    [time.time()]. An exception leaves the loop through the handler of
    [_load_slots]; the slots stored so far stay. *)
Fixpoint load_loop (defs : list SlotDef) (scale_x scale_y : Q)
    (clock : nat -> Q) (n : nat) (sl : Py.dict SlotState) : Py.dict SlotState :=
  match defs with
  | [] => sl
  | slot_def :: rest =>
      let scaled_points :=
        map (fun p => (fst p * scale_x, snd p * scale_y)) (def_poly slot_def) in
      match Polygon_new scaled_points with
      | Raise _ => sl
      | Ok poly =>
          load_loop rest scale_x scale_y clock (n + 2)
            (Py.setitem sl (def_slot_id slot_def)
               (new_SlotState (def_slot_id slot_def) poly
                  (clock n) (clock (n + 1)%nat)))
      end
  end.

(** [_load_slots]. [file = None] is a missing or unparsable file. *)
Definition _load_slots (resolution : Q * Q) (file : option SlotsConfig)
    (clock : nat -> Q) : Py.dict SlotState :=
  match file with
  | None => []
  | Some config =>
      let original_size :=
        match cfg_image_size config with
        | Some sz => sz
        | None => resolution
        end in
      if Qeq_bool (fst original_size) 0 || Qeq_bool (snd original_size) 0
      then []
      else
        let scale_x := fst resolution / fst original_size in
        let scale_y := snd resolution / snd original_size in
        load_loop
          (match cfg_slots config with Some l => l | None => [] end)
          scale_x scale_y clock 0 []
  end.

(** [OccupancyProcessor.__init__]; the assignment after [_load_slots]
    fixes [_roi_version] to "v1". *)
Definition __init__ (file : option SlotsConfig)
    (debounce enter exit : Q) (resolution : Q * Q) (clock : nat -> Q)
  : OccupancyProcessor :=
  {| debounce_seconds := debounce;
     enter_threshold := enter;
     exit_threshold := exit;
     capture_resolution := resolution;
     slots := _load_slots resolution file clock;
     _roi_version := "v1" |}.

(** One frame: what the processing loop passes to [process_detections],
    with the clock reading of that call. *)
Record Frame : Type := {
  fr_detections : list Detection;
  fr_timestamp : datetime;
  fr_time : Q
}.

(** A sequence of [process_detections] calls; the result lists, call by
    call, the events returned. *)
Fixpoint run (self : OccupancyProcessor) (frames : list Frame)
  : result (OccupancyProcessor * list (list Event)) :=
  match frames with
  | [] => Ok (self, [])
  | f :: rest =>
      r <- process_detections self (fr_detections f) (fr_timestamp f)
             (fr_time f) ;;
      r' <- run (fst r) rest ;;
      Ok (fst r', snd r :: snd r')
  end.

End Engine.


End Occupancy.

(** ** Shapely's polygon predicate

    [Polygon.contains(Point)] is true for the points of the polygon's
    interior and false on its boundary and outside. The interior of a ring
    is decided by the parity of the crossings of the ray that leaves the
    point toward positive [x]. *)

Module Shapely.

Definition cross (a b p : Point) : Q :=
  (fst b - fst a) * (snd p - snd a) - (snd b - snd a) * (fst p - fst a).

Definition between (u v x : Q) : bool :=
  (Qle_bool u x && Qle_bool x v) || (Qle_bool v x && Qle_bool x u).

Definition on_segment (a b p : Point) : bool :=
  Qeq_bool (cross a b p) 0
  && between (fst a) (fst b) (fst p)
  && between (snd a) (snd b) (snd p).

(** The edges of the closed ring through the given vertices. *)
Fixpoint ring_from (first prev : Point) (pts : list Point)
  : list (Point * Point) :=
  match pts with
  | [] => [(prev, first)]
  | p :: rest => (prev, p) :: ring_from first p rest
  end.

Definition edges (poly : list Point) : list (Point * Point) :=
  match poly with
  | [] => []
  | p :: rest => ring_from p p rest
  end.

Definition on_boundary (poly : list Point) (p : Point) : bool :=
  existsb (fun e => on_segment (fst e) (snd e) p) (edges poly).

(** The edge [a b] crosses the ray from [p] toward positive [x]. *)
Definition crosses (a b p : Point) : bool :=
  negb (Bool.eqb (Py.lt (snd p) (snd a)) (Py.lt (snd p) (snd b)))
  && Py.lt (fst p)
       ((fst b - fst a) * (snd p - snd a) / (snd b - snd a) + fst a).

Definition crossings (poly : list Point) (p : Point) : nat :=
  List.length (filter (fun e => crosses (fst e) (snd e) p) (edges poly)).

Definition polygon_contains (poly : list Point) (p : Point) : bool :=
  negb (on_boundary poly p) && Nat.odd (crossings poly p).

(** [polygon.covers(point)]: interior or boundary. *)
Definition polygon_covers (poly : list Point) (p : Point) : bool :=
  on_boundary poly p || polygon_contains poly p.

(** [Polygon(points)]: a ring needs at least three vertices; an empty
    sequence gives the empty polygon. *)
Definition polygon_new (pts : list Point) : result (list Point) :=
  match pts with
  | [_] | [_; _] => Raise ValueError
  | _ => Ok pts
  end.

#[export] Instance geometry : Geometry := {|
  Polygon := list Point;
  Polygon_new := polygon_new;
  contains := polygon_contains
|}.

End Shapely.

(** ** stats_sender.py *)

(** Outcome of [requests.post]: a response with its status code, or a
    [requests.RequestException]. *)
Inductive Response : Set :=
| Status (code : Z)
| RequestException.

(** Outcome of reading one buffered payload back:
    [data = json.loads(payload_str)] followed by [data['event']]. *)
Inductive Loaded (A : Type) : Type :=
| Decoded (event : A)
| JSONDecodeError
| LookupError.

Arguments Decoded {A} event.
Arguments JSONDecodeError {A}.
Arguments LookupError {A}.

(** JSON values as the sender handles them: event, summary and health
    dictionaries are opaque; [dumps_event e v] is
    [json.dumps({'event': e, 'model_version': v})]. *)
Class Codec : Type := {
  Json : Type;
  dumps_event : Json -> string -> string;
  loads_event : string -> Loaded Json
}.

Module StatsSender.
Section Sender.
Context `{C : Codec}.

Record Stats : Set := {
  events_sent : Z;
  events_failed : Z;
  events_buffered : Z;
  events_replayed : Z;
  summaries_sent : Z
}.

(** A row of the [event_buffer] table. *)
Record Row : Set := {
  row_id : Z;
  event_type : string;
  payload : string;
  timestamp : string;
  retry_count : Z
}.

(** The table with its AUTOINCREMENT sequence (the largest id handed out
    so far). *)
Record Table : Set := {
  rows : list Row;
  sequence : Z
}.

Inductive Body : Type :=
| EventsBody (events : list Json) (model_version ts_utc : string)
    (is_replay : bool)
| SummaryBody (summary : Json) (ts_utc : string)
| HealthBody (health_data : Json)
| LogBody (frame_id : Z) (ts : string) (inference_time_ms : Q)
    (detections_count events_count : Z).

Record Request : Type := {
  url : string;
  body : Body
}.

(** The sender with the two things it acts on: the SQLite buffer and the
    network ([posted] lists the [requests.post] calls made, oldest first). *)
Record StatsSender : Type := {
  server_url : string;
  node_id : string;
  _stats : Stats;
  event_buffer : Table;
  posted : list Request
}.

Definition with_stats (self : StatsSender) (st : Stats) : StatsSender :=
  {| server_url := server_url self; node_id := node_id self;
     _stats := st; event_buffer := event_buffer self;
     posted := posted self |}.

Definition with_buffer (self : StatsSender) (t : Table) : StatsSender :=
  {| server_url := server_url self; node_id := node_id self;
     _stats := _stats self; event_buffer := t;
     posted := posted self |}.

(** [requests.post(url, json=body, ...)] *)
Definition post (self : StatsSender) (path : string) (b : Body) : StatsSender :=
  {| server_url := server_url self; node_id := node_id self;
     _stats := _stats self; event_buffer := event_buffer self;
     posted := posted self ++ [{| url := server_url self ++ path; body := b |}] |}.

Definition len {A : Type} (l : list A) : Z := Z.of_nat (List.length l).

(** [INSERT INTO event_buffer (event_type, payload, timestamp) VALUES ...] *)
Definition insert (t : Table) (ty pl ts : string) : Table :=
  let id := (sequence t + 1)%Z in
  {| rows := rows t ++ [{| row_id := id; event_type := ty; payload := pl;
                           timestamp := ts; retry_count := 0 |}];
     sequence := id |}.

(** [_buffer_events]. [db_ok = false] is an SQLite error: the transaction
    is not committed and the handler counts the events as failed. *)
Definition _buffer_events (self : StatsSender) (events : list Json)
    (model_version : string) (now : datetime) (db_ok : bool) : StatsSender :=
  let st := _stats self in
  if db_ok then
    let t := fold_left
               (fun t event =>
                  insert t "slot_event" (dumps_event event model_version)
                    (isoformat now))
               events (event_buffer self) in
    with_stats (with_buffer self t)
      {| events_sent := events_sent st;
         events_failed := events_failed st;
         events_buffered := (events_buffered st + len events)%Z;
         events_replayed := events_replayed st;
         summaries_sent := summaries_sent st |}
  else
    with_stats self
      {| events_sent := events_sent st;
         events_failed := (events_failed st + len events)%Z;
         events_buffered := events_buffered st;
         events_replayed := events_replayed st;
         summaries_sent := summaries_sent st |}.

Definition send_slot_events (self : StatsSender) (events : list Json)
    (model_version : string) (now : datetime) (response : Response)
    (db_ok : bool) : StatsSender * bool :=
  match events with
  | [] => (self, true)
  | _ =>
      let self := post self "/api/v2/events"
                    (EventsBody events model_version (isoformat now) false) in
      match response with
      | Status code =>
          if Z.eqb code 200 then
            let st := _stats self in
            (with_stats self
               {| events_sent := (events_sent st + len events)%Z;
                  events_failed := events_failed st;
                  events_buffered := events_buffered st;
                  events_replayed := events_replayed st;
                  summaries_sent := summaries_sent st |}, true)
          else (_buffer_events self events model_version now db_ok, false)
      | RequestException =>
          (_buffer_events self events model_version now db_ok, false)
      end
  end.

Definition send_summary (self : StatsSender) (summary : Json) (now : datetime)
    (response : Response) : StatsSender * bool :=
  let self := post self "/api/v2/summary" (SummaryBody summary (isoformat now)) in
  match response with
  | Status code =>
      if Z.eqb code 200 then
        let st := _stats self in
        (with_stats self
           {| events_sent := events_sent st;
              events_failed := events_failed st;
              events_buffered := events_buffered st;
              events_replayed := events_replayed st;
              summaries_sent := (summaries_sent st + 1)%Z |}, true)
      else (self, false)
  | RequestException => (self, false)
  end.

Definition send_health (self : StatsSender) (health_data : Json)
    (response : Response) : StatsSender * bool :=
  let self := post self "/api/v2/health" (HealthBody health_data) in
  match response with
  | Status code => if Z.eqb code 200 then (self, true) else (self, false)
  | RequestException => (self, false)
  end.

Definition send_processing_log (self : StatsSender) (frame_id : Z)
    (inference_time_ms : Q) (detections_count events_count : Z)
    (now : datetime) (response : Response) : StatsSender * bool :=
  let self := post self "/api/v2/processing-log"
                (LogBody frame_id (isoformat now) inference_time_ms
                   detections_count events_count) in
  match response with
  | Status code => (self, Z.eqb code 200)
  | RequestException => (self, false)
  end.

(** [ORDER BY id]: insertion sort on the primary key. *)
Fixpoint insert_by_id (r : Row) (l : list Row) : list Row :=
  match l with
  | [] => [r]
  | r' :: l' =>
      if Z.leb (row_id r) (row_id r') then r :: l
      else r' :: insert_by_id r l'
  end.

Definition order_by_id (l : list Row) : list Row :=
  fold_right insert_by_id [] l.

(** [SELECT id, payload FROM event_buffer ORDER BY id LIMIT ?] *)
Definition select_oldest (t : Table) (batch_size : nat) : list Row :=
  firstn batch_size (order_by_id (rows t)).

(** [DELETE FROM event_buffer WHERE id = ?], for each id of the list. *)
Definition delete_ids (t : Table) (ids : list Z) : Table :=
  {| rows := filter (fun r => negb (existsb (Z.eqb (row_id r)) ids)) (rows t);
     sequence := sequence t |}.

(** The loop of [replay_buffered_events] over the fetched rows. A
    [JSONDecodeError] is handled inside the loop; any other exception
    leaves it. *)
Fixpoint collect (fetched : list Row) (events_to_send : list Json)
    (ids_to_delete : list Z) : result (list Json * list Z) :=
  match fetched with
  | [] => Ok (events_to_send, ids_to_delete)
  | r :: rest =>
      match loads_event (payload r) with
      | Decoded event =>
          collect rest (events_to_send ++ [event]) (ids_to_delete ++ [row_id r])
      | JSONDecodeError =>
          collect rest events_to_send (ids_to_delete ++ [row_id r])
      | LookupError => Raise KeyError
      end
  end.

(** [replay_buffered_events]; returns the sender and [replayed]. SQLite
    itself is taken to work here: its errors only reach the outer handler,
    which returns [replayed] as it stands. *)
Definition replay_buffered_events (self : StatsSender) (batch_size : nat)
    (now : datetime) (response : Response) : StatsSender * Z :=
  match select_oldest (event_buffer self) batch_size with
  | [] => (self, 0%Z)
  | fetched =>
      match collect fetched [] [] with
      | Raise _ => (self, 0%Z)
      | Ok (events_to_send, ids_to_delete) =>
          match events_to_send with
          | [] => (self, 0%Z)
          | _ =>
              let self := post self "/api/v2/events"
                            (EventsBody events_to_send "replay"
                               (isoformat now) true) in
              match response with
              | Status code =>
                  if Z.eqb code 200 then
                    let replayed := len events_to_send in
                    let st := _stats self in
                    (with_stats
                       (with_buffer self
                          (delete_ids (event_buffer self) ids_to_delete))
                       {| events_sent := events_sent st;
                          events_failed := events_failed st;
                          events_buffered := events_buffered st;
                          events_replayed := (events_replayed st + replayed)%Z;
                          summaries_sent := summaries_sent st |}, replayed)
                  else (self, 0%Z)
              | RequestException => (self, 0%Z)
              end
          end
      end
  end.

(** [server_url.rstrip('/')] *)
Fixpoint rstrip_slash (s : string) : string :=
  match s with
  | EmptyString => EmptyString
  | String c s' =>
      match rstrip_slash s' with
      | EmptyString =>
          if Ascii.eqb c "/"%char then EmptyString else String c EmptyString
      | r => String c r
      end
  end.

(** [StatsSender.__init__] with [_init_buffer_db]. The table is created only
    if the database file does not hold it yet: [existing] is the table a
    previous run left in the file, if any. The counters start at zero. *)
Definition __init__ (url node : string) (existing : option Table)
  : StatsSender :=
  {| server_url := rstrip_slash url;
     node_id := node;
     _stats := {| events_sent := 0; events_failed := 0; events_buffered := 0;
                  events_replayed := 0; summaries_sent := 0 |};
     event_buffer := match existing with
                     | Some t => t
                     | None => {| rows := []; sequence := 0 |}
                     end;
     posted := [] |}.

(** [get_stats()['buffer_depth']]: [SELECT COUNT( * ) FROM event_buffer]. *)
Definition buffer_depth (self : StatsSender) : Z :=
  len (rows (event_buffer self)).

End Sender.
End StatsSender.

(** ** inference.py *)

Module Inference.

(** A box of the model's result, as [detect_vehicles] reads it:
    [box.cls[0]], [box.conf[0]] and [box.xyxy[0].tolist()]. *)
Record Box : Set := {
  box_cls : Q;
  box_conf : Q;
  box_x1 : Q;
  box_y1 : Q;
  box_x2 : Q;
  box_y2 : Q
}.

Record BBox : Set := { x1 : Q; y1 : Q; x2 : Q; y2 : Q }.

(** A detection dictionary. *)
Record Vehicle : Set := {
  v_class_id : Z;
  v_class_name : string;
  v_confidence : Q;
  v_bbox : BBox;
  v_center_x : Q;
  v_center_y : Q
}.

(** [VEHICLE_CLASSES.get(class_id, 'vehicle')] *)
Definition vehicle_class_name (class_id : Z) : string :=
  if Z.eqb class_id 2 then "car"
  else if Z.eqb class_id 3 then "motorcycle"
  else if Z.eqb class_id 5 then "bus"
  else if Z.eqb class_id 7 then "truck"
  else "vehicle".

Record Detected : Set := {
  detections : list Vehicle;
  inference_time_ms : Q;
  image_size : Z * Z;
  model_version : string
}.

Definition vehicle_of_box (box : Box) : Vehicle :=
  let class_id := Py.int (box_cls box) in
  {| v_class_id := class_id;
     v_class_name := vehicle_class_name class_id;
     v_confidence := box_conf box;
     v_bbox := {| x1 := box_x1 box; y1 := box_y1 box;
                  x2 := box_x2 box; y2 := box_y2 box |};
     v_center_x := (box_x1 box + box_x2 box) / 2;
     v_center_y := (box_y1 box + box_y2 box) / 2 |}.

(** [detect_vehicles]. [results] is what [model.predict] returns for the
    image, [t_start] and [t_end] are the two readings of [time.time()]. *)
Definition detect_vehicles (size : Z * Z) (results : list (list Box))
    (t_start t_end : Q) : Detected :=
  {| detections := match results with
                   | [] => []
                   | boxes :: _ => map vehicle_of_box boxes
                   end;
     inference_time_ms := (t_end - t_start) * 1000;
     image_size := size;
     model_version := "yolov8m-edge" |}.

(** The loop of [detect_from_array] that maps a detection found in the
    rotated image back to the frame. *)
Definition flip (img_width img_height : Z) (det : Vehicle) : Vehicle :=
  let old := v_bbox det in
  {| v_class_id := v_class_id det;
     v_class_name := v_class_name det;
     v_confidence := v_confidence det;
     v_bbox := {| x1 := inject_Z img_width - x2 old;
                  y1 := inject_Z img_height - y2 old;
                  x2 := inject_Z img_width - x1 old;
                  y2 := inject_Z img_height - y1 old |};
     v_center_x := inject_Z img_width - v_center_x det;
     v_center_y := inject_Z img_height - v_center_y det |}.

(** [detect_from_array]; [size] is the size of the frame and [results] what
    the model returns for the image it is given (the rotated one when
    [rotate_180]). *)
Definition detect_from_array (size : Z * Z) (results : list (list Box))
    (rotate_180 : bool) (t_start t_end : Q) : Detected :=
  let result := detect_vehicles size results t_start t_end in
  if rotate_180 then
    {| detections := map (flip (fst size) (snd size)) (detections result);
       inference_time_ms := inference_time_ms result;
       image_size := image_size result;
       model_version := model_version result |}
  else result.

End Inference.

(** ** main.py *)

Module EdgeApp.

Record InferenceStats : Set := {
  total_frames : Z;
  total_detections : Z;
  total_events : Z;
  avg_inference_ms : Q;
  last_inference_ms : Q
}.

(** The statistics [SmartParkEdgeV2.__init__] starts with. *)
Definition initial_stats : InferenceStats :=
  {| total_frames := 0; total_detections := 0; total_events := 0;
     avg_inference_ms := 0; last_inference_ms := 0 |}.

(** Python's floats are binary64 numbers: an arithmetic operation returns
    its exact result rounded to a representable number. The running
    average is fed back through three such operations at every call, so
    its rounding is kept explicit: [rnd] is the rounding, and the facts
    proved of the statistics hold whichever it is. Overflow to infinity is
    left out, and so is the rounding of [total] when it is converted to a
    float, which is exact below 2^53. *)
Class Rounding := { rnd : Q -> Q }.

(** [_update_inference_stats]; the division raises when the new total is
    zero. *)
Definition _update_inference_stats `{R : Rounding} (st : InferenceStats)
    (inference_time_ms : Q) (n_detections n_events : Z)
  : result InferenceStats :=
  let total := (total_frames st + 1)%Z in
  let current_avg := avg_inference_ms st in
  if Z.eqb total 0 then Raise ZeroDivisionError
  else
    Ok {| total_frames := total;
          total_detections := (total_detections st + n_detections)%Z;
          total_events := (total_events st + n_events)%Z;
          avg_inference_ms :=
            rnd (rnd (rnd (current_avg * inject_Z (total - 1))
                      + inference_time_ms)
                 / inject_Z total);
          last_inference_ms := inference_time_ms |}.

(** *** One turn of [_processing_loop]

    From the frame taken from the queue to the processing log. The clock
    readings, the model's result and the collector's answers are given in
    a [Turn]. *)

Section Loop.
Context `{G : Geometry} `{C : Codec} `{R : Rounding}.

(** The dictionaries of the engine as the JSON values the sender posts. *)
Variable event_json : Occupancy.Event -> Json.
Variable summary_json : Occupancy.Summary -> Json.

(** What the MQTT client is asked to publish. *)
Inductive Message : Type :=
| SlotStateMessage (topic node : string) (event : Occupancy.Event)
| SummaryMessage (topic node : string) (summary : Occupancy.Summary).

Record App : Type := {
  occupancy : Occupancy.OccupancyProcessor;
  stats_sender : StatsSender.StatsSender;
  mqtt_node_id : string;
  published : list Message;
  _inference_stats : InferenceStats
}.

Record Turn : Type := {
  frame_id : Z;
  timestamp : datetime;
  frame_size : Z * Z;
  results : list (list Inference.Box);
  t_start : Q;
  t_end : Q;
  clock : Q;
  events_now : datetime;
  events_response : Response;
  db_ok : bool;
  summary_now : datetime;
  summary_response : Response;
  log_now : datetime;
  log_response : Response
}.

(** The part of a detection dictionary the engine reads. *)
Definition detection_of (v : Inference.Vehicle) : Occupancy.Detection :=
  {| Occupancy.center_x := Inference.v_center_x v;
     Occupancy.center_y := Inference.v_center_y v;
     Occupancy.det_confidence := Inference.v_confidence v |}.

(** [MQTTClient.publish_slot_state] *)
Definition publish_slot_state (node : string) (event : Occupancy.Event)
  : Message :=
  SlotStateMessage
    ("su/parking/fass/slot/" ++ Occupancy.ev_slot_id event ++ "/state")
    node event.

(** [MQTTClient.publish_summary] *)
Definition publish_summary (node : string) (summary : Occupancy.Summary)
  : Message :=
  SummaryMessage "su/parking/fass/summary" node summary.

(** The body of the loop. An exception leaves through the handler of the
    loop, with what had been done before it. The model's result is given
    in the turn, and the publish calls of the MQTT client are taken to
    return: they are recorded in [published] in the order they are made. *)
Definition process_frame (app : App) (turn : Turn) : App :=
  let inference_result :=
    Inference.detect_from_array (frame_size turn) (results turn) true
      (t_start turn) (t_end turn) in
  let detections := Inference.detections inference_result in
  let inference_time_ms := Inference.inference_time_ms inference_result in
  match Occupancy.process_detections (occupancy app)
          (map detection_of detections) (timestamp turn) (clock turn) with
  | Raise _ => app
  | Ok (occupancy', events) =>
      let n_detections := StatsSender.len detections in
      let n_events := StatsSender.len events in
      match _update_inference_stats (_inference_stats app) inference_time_ms
              n_detections n_events with
      | Raise _ =>
          {| occupancy := occupancy';
             stats_sender := stats_sender app;
             mqtt_node_id := mqtt_node_id app;
             published := published app;
             _inference_stats :=
               {| total_frames := total_frames (_inference_stats app) + 1;
                  total_detections :=
                    total_detections (_inference_stats app) + n_detections;
                  total_events :=
                    total_events (_inference_stats app) + n_events;
                  avg_inference_ms := avg_inference_ms (_inference_stats app);
                  last_inference_ms := inference_time_ms |} |}
      | Ok stats' =>
          let model_version := Inference.model_version inference_result in
          let sender1 :=
            match events with
            | [] => stats_sender app
            | _ => fst (StatsSender.send_slot_events (stats_sender app)
                          (map event_json events) model_version
                          (events_now turn) (events_response turn)
                          (db_ok turn))
            end in
          let published1 :=
            match events with
            | [] => published app
            | _ => published app
                   ++ map (publish_slot_state (mqtt_node_id app)) events
            end in
          let summary := Occupancy.get_summary occupancy' in
          let published2 :=
            published1 ++ [publish_summary (mqtt_node_id app) summary] in
          let sender2 :=
            fst (StatsSender.send_summary sender1 (summary_json summary)
                   (summary_now turn) (summary_response turn)) in
          let sender3 :=
            fst (StatsSender.send_processing_log sender2 (frame_id turn)
                   inference_time_ms n_detections n_events
                   (log_now turn) (log_response turn)) in
          {| occupancy := occupancy';
             stats_sender := sender3;
             mqtt_node_id := mqtt_node_id app;
             published := published2;
             _inference_stats := stats' |}
      end
  end.

End Loop.

End EdgeApp.

(** ** Sample data

    A small codec and a few values on which the properties below are run.
    The codec writes an event [e] with model version [v] as the text
    [event=e;v]; a text with another prefix does not decode, and the text
    [event=] alone decodes to a value without an event. *)

Module Sample.

Definition dumps (e v : string) : string := "event=" ++ e ++ ";" ++ v.

Fixpoint until_semicolon (s : string) : string :=
  match s with
  | EmptyString => EmptyString
  | String c s' =>
      if Ascii.eqb c ";"%char then EmptyString
      else String c (until_semicolon s')
  end.

Definition loads (s : string) : Loaded string :=
  if String.prefix "event=" s then
    match until_semicolon (String.substring 6 (String.length s - 6) s) with
    | EmptyString => LookupError
    | e => Decoded e
    end
  else JSONDecodeError.

#[export] Instance codec : Codec := {|
  Json := string;
  dumps_event := dumps;
  loads_event := loads
|}.

(** The nearest integer, ties going to the even one. *)
Definition round_half_even (q : Q) : Z :=
  let f := Qfloor q in
  match Qcompare (q - inject_Z f) (1#2) with
  | Lt => f
  | Gt => (f + 1)%Z
  | Eq => if Z.even f then f else (f + 1)%Z
  end.

(** [a * 2^(-e)] *)
Definition scaled_by (a : Q) (e : Z) : Q :=
  if Z.leb 0 e then a / inject_Z (2 ^ e) else a * inject_Z (2 ^ (- e)).

(** Rounding to the nearest number with a significand of 53 bits, ties to
    even, for the numbers in the normal range of binary64. *)
Definition nearest (q : Q) : Q :=
  if Qeq_bool q 0 then 0
  else
    let a := if Qle_bool 0 q then q else - q in
    let e0 := (Z.log2 (Qnum a) - Z.log2 (Zpos (Qden a)) - 52)%Z in
    let e := if Qle_bool (inject_Z (2 ^ 52)) (scaled_by a e0) then e0
             else (e0 - 1)%Z in
    let m := inject_Z (round_half_even (scaled_by a e)) in
    let v := scaled_by m (- e) in
    Qred (if Qle_bool 0 q then v else - v).

#[export] Instance binary64 : EdgeApp.Rounding := {| EdgeApp.rnd := nearest |}.

Definition noon : datetime := {| isoformat := "2024-01-01T12:00:00+00:00" |}.

Definition no_stats : StatsSender.Stats :=
  {| StatsSender.events_sent := 0; StatsSender.events_failed := 0;
     StatsSender.events_buffered := 0; StatsSender.events_replayed := 0;
     StatsSender.summaries_sent := 0 |}.

Definition row (id : Z) (text : string) : StatsSender.Row :=
  {| StatsSender.row_id := id; StatsSender.event_type := "slot_event";
     StatsSender.payload := text;
     StatsSender.timestamp := isoformat noon;
     StatsSender.retry_count := 0 |}.

(** A sender whose buffer holds the given rows. *)
Definition sender (rs : list StatsSender.Row) (seq : Z)
  : StatsSender.StatsSender :=
  {| StatsSender.server_url := "http://collector";
     StatsSender.node_id := "fass-edge-01";
     StatsSender._stats := no_stats;
     StatsSender.event_buffer :=
       {| StatsSender.rows := rs; StatsSender.sequence := seq |};
     StatsSender.posted := [] |}.

Definition fresh_sender : StatsSender.StatsSender := sender [] 0.

End Sample.

(** The two-slot lot of the repository's occupancy tests, loaded at the
    authoring resolution, with the test thresholds. *)

Module Lot.
Import Occupancy.

Definition config : SlotsConfig :=
  {| cfg_roi_version := Some "test_v1"%string;
     cfg_image_size := Some (1920, 1080);
     cfg_slots :=
       Some [ {| def_slot_id := "A";
                 def_poly := [(100, 100); (200, 100); (200, 200); (100, 200)] |};
              {| def_slot_id := "B";
                 def_poly := [(300, 100); (400, 100); (400, 200); (300, 200)] |} ] |}.

Definition processor (debounce enter exit : Q)
  : @OccupancyProcessor Shapely.geometry :=
  __init__ (Some config) debounce enter exit (1920, 1080) (fun _ => 0).

Definition car (x y conf : Q) : Detection :=
  {| center_x := x; center_y := y; det_confidence := conf |}.

Definition frame (dets : list Detection) (t : Q) : Frame :=
  {| fr_detections := dets; fr_timestamp := Sample.noon; fr_time := t |}.

Definition square_A : list Point :=
  [(100, 100); (200, 100); (200, 200); (100, 200)].

End Lot.

(** * Properties of the sender and its buffer *)

Section SenderFacts.
Import StatsSender.
Context `{C : Codec}.


(** What the code itself tests: anything but status 200. *)
Definition not_200 (response : Response) : bool :=
  match response with
  | Status code => negb (Z.eqb code 200)
  | RequestException => true
  end.


(** The primary key: ids are unique and none exceeds the sequence. *)
Definition table_ok (t : Table) : Prop :=
  NoDup (map row_id (rows t))
  /\ Forall (fun r => (row_id r <= sequence t)%Z) (rows t).

Lemma insert_ok t ty pl ts : table_ok t -> table_ok (insert t ty pl ts).
Proof.
  intros [Hnd Hle]. unfold insert, table_ok; simpl. split.
  - rewrite map_app; simpl.
    apply NoDup_app; [exact Hnd | repeat constructor; intros [] | ].
    intros x Hin [<-|[]].
    apply in_map_iff in Hin as (r & Heq & Hr).
    rewrite Forall_forall in Hle. specialize (Hle r Hr). lia.
  - apply Forall_app. split.
    + eapply Forall_impl; [|exact Hle]. simpl. intros; lia.
    + repeat constructor. simpl. lia.
Qed.

Lemma insert_all_ok (f : Json -> string) ty ts events : forall t,
  table_ok t ->
  table_ok (fold_left (fun t e => insert t ty (f e) ts) events t).
Proof.
  induction events as [|e events IH]; simpl; intros t Ht; [exact Ht|].
  apply IH, insert_ok, Ht.
Qed.

Lemma insert_all_rows (f : Json -> string) ty ts events : forall t,
  exists added,
    rows (fold_left (fun t e => insert t ty (f e) ts) events t)
      = rows t ++ added
    /\ map payload added = map f events
    /\ Forall (fun r => event_type r = ty /\ (sequence t < row_id r)%Z) added.
Proof.
  induction events as [|e events IH]; simpl; intros t.
  - exists []. rewrite app_nil_r. repeat split; constructor.
  - destruct (IH (insert t ty (f e) ts)) as (added & Hrows & Hpl & Hall).
    exists ({| row_id := sequence t + 1; event_type := ty; payload := f e;
               timestamp := ts; retry_count := 0 |} :: added).
    rewrite Hrows. simpl. rewrite <- app_assoc. simpl.
    split; [reflexivity|]. split; [now rewrite Hpl|].
    constructor; simpl; [split; [reflexivity|lia]|].
    eapply Forall_impl; [|exact Hall]. simpl. intros r [? ?]. split; [assumption|lia].
Qed.

(** *** Ordering of the fetched batch *)

Definition id_le (a b : Row) : Prop := (row_id a <= row_id b)%Z.

Lemma insert_by_id_perm r l : Permutation (r :: l) (insert_by_id r l).
Proof.
  induction l as [|a l IH]; simpl; [reflexivity|].
  destruct (Z.leb (row_id r) (row_id a)); [reflexivity|].
  rewrite perm_swap. now constructor.
Qed.

Lemma order_by_id_perm l : Permutation l (order_by_id l).
Proof.
  induction l as [|a l IH]; simpl; [constructor|].
  rewrite <- insert_by_id_perm. now constructor.
Qed.







Lemma select_oldest_length t n :
  List.length (select_oldest t n) = Nat.min n (List.length (rows t)).
Proof.
  unfold select_oldest. rewrite length_firstn.
  now rewrite <- (Permutation_length (order_by_id_perm (rows t))).
Qed.

(** *** The loop over the fetched rows *)


Lemma collect_corrupt fetched : forall evs ids,
  Forall (fun r => loads_event (payload r) = JSONDecodeError) fetched ->
  collect fetched evs ids = Ok (evs, ids ++ map row_id fetched).
Proof.
  induction fetched as [|r rest IH]; simpl; intros evs ids H.
  - now rewrite app_nil_r.
  - inversion H as [|? ? Hr Hrest]; subst. rewrite Hr, IH by assumption.
    now rewrite <- app_assoc.
Qed.




Local Unset Implicit Arguments.

(** The events a list of rows decodes to, undecodable rows left out. *)
Definition decoded (rs : list Row) : list Json :=
  flat_map (fun r => match loads_event (payload r) with
                     | Decoded e => [e]
                     | _ => []
                     end) rs.

Definition readable (r : Row) : Prop := loads_event (payload r) <> LookupError.

Lemma collect_readable fetched : forall evs ids,
  Forall readable fetched ->
  collect fetched evs ids
  = Ok (evs ++ decoded fetched, ids ++ map row_id fetched).
Proof.
  induction fetched as [|r rest IH]; intros evs ids Hall; simpl.
  - now rewrite !app_nil_r.
  - inversion Hall as [|? ? Hr Hrest]; subst. unfold readable in Hr.
    destruct (loads_event (payload r)) as [e| |]; [| |contradiction].
    + rewrite IH by exact Hrest. now rewrite <- !app_assoc.
    + rewrite IH by exact Hrest. now rewrite <- !app_assoc.
Qed.

Local Set Implicit Arguments.


Lemma filter_keeps_key (keep : Row -> bool) (rs : list Row) :
  NoDup (map row_id rs) -> NoDup (map row_id (filter keep rs)).
Proof.
  induction rs as [|r rs IH]; simpl; intros Hkey; [constructor|].
  apply NoDup_cons_iff in Hkey as [Hfresh Hkey].
  destruct (keep r); simpl; [apply NoDup_cons|]; auto.
  intros Hin. apply Hfresh.
  apply in_map_iff in Hin as (x & Hx & Hin).
  apply filter_In in Hin as [Hin _]. rewrite <- Hx. now apply in_map.
Qed.

(** The primary key is kept by every operation on the buffer. *)
Lemma buffer_events_ok (self : StatsSender) (events : list Json)
    (model_version : string) (now : datetime) (db_ok : bool) :
  table_ok (event_buffer self) ->
  table_ok (event_buffer (_buffer_events self events model_version now db_ok)).
Proof.
  intros H. unfold _buffer_events. destruct db_ok; [|exact H].
  unfold with_stats, with_buffer. cbn [event_buffer].
  now apply (insert_all_ok (fun e => dumps_event e model_version)).
Qed.

Lemma replay_ok (self : StatsSender) (batch_size : nat) (now : datetime)
    (response : Response) :
  table_ok (event_buffer self) ->
  table_ok (event_buffer
              (fst (replay_buffered_events self batch_size now response))).
Proof.
  intros H. unfold replay_buffered_events.
  destruct (select_oldest _ _) as [|r0 rest]; [exact H|].
  destruct (collect _ _ _) as [[evs ids]|e]; [|exact H].
  destruct evs as [|ev evs]; [exact H|].
  destruct response as [code|]; [|exact H].
  destruct (Z.eqb code 200); [|exact H].
  destruct H as [Hnd Hle]. split; cbn.
  - now apply filter_keeps_key.
  - apply Forall_forall. intros r Hr. apply filter_In in Hr as [Hr _].
    rewrite Forall_forall in Hle. now apply Hle.
Qed.

(** A batch in which no payload decodes is never posted and never
    deleted, whatever the collector would have answered. *)
Lemma replay_all_corrupt (self : StatsSender) (batch_size : nat)
    (now : datetime) (response : Response) :
  Forall (fun r => loads_event (payload r) = JSONDecodeError)
    (select_oldest (event_buffer self) batch_size) ->
  replay_buffered_events self batch_size now response = (self, 0%Z).
Proof.
  intros H. unfold replay_buffered_events.
  destruct (select_oldest (event_buffer self) batch_size) as [|r0 rest];
    [reflexivity|].
  now rewrite (collect_corrupt [] [] H).
Qed.



(** C10 -- sending an empty list of events reports success and leaves the
    sender as it was: no request is posted, no row is written, no counter
    and not the buffer depth changes. *)
Theorem send_slot_events_empty (self : StatsSender) (model_version : string)
    (now : datetime) (response : Response) (db_ok : bool) :
  let r := send_slot_events self [] model_version now response db_ok in
  snd r = true
  /\ posted (fst r) = posted self
  /\ event_buffer (fst r) = event_buffer self
  /\ buffer_depth (fst r) = buffer_depth self
  /\ _stats (fst r) = _stats self
  /\ fst r = self.
Proof. cbn. repeat split. Qed.

End SenderFacts.

(** *** Runs on the sample data *)

Section SenderRuns.
Import StatsSender.





(** C8 -- evaluation at the failing input. A buffer holding one row whose
    payload does not decode: the replay, answered with status 200 or not,
    returns 0 and leaves the row in the buffer. And a batch of a good and
    an undecodable row whose delivery fails keeps both. *)
Theorem replay_keeps_corrupt_record :
  let bad := Sample.row 1 "@@not-json" in
  let good := Sample.row 2 "event=a;yolov8m" in
  (@loads_event Sample.codec (payload bad) = JSONDecodeError)
  /\ replay_buffered_events (Sample.sender [bad] 1) 50 Sample.noon (Status 200)
      = (Sample.sender [bad] 1, 0%Z)
  /\ replay_buffered_events
       (fst (replay_buffered_events (Sample.sender [bad] 1) 50 Sample.noon
               (Status 200))) 50 Sample.noon (Status 200)
      = (Sample.sender [bad] 1, 0%Z)
  /\ rows (event_buffer
             (fst (replay_buffered_events (Sample.sender [bad; good] 2) 50
                     Sample.noon (Status 500)))) = [bad; good].
Proof. vm_compute. repeat split. Qed.

End SenderRuns.

(** * Properties of the occupancy engine *)

Section EngineFacts.
Import Occupancy.
Context `{G : Geometry}.
Local Unset Implicit Arguments.

(** *** Dictionaries with unique keys *)

Definition tag {A B : Type} (f : A -> B) (d : Py.dict A) : Py.dict B :=
  map (fun kv => (fst kv, f (snd kv))) d.

Lemma keys_tag {A B : Type} (f : A -> B) d : Py.keys (tag f d) = Py.keys d.
Proof. unfold Py.keys, tag. rewrite map_map. reflexivity. Qed.

Lemma tag_app {A B : Type} (f : A -> B) d1 d2 :
  tag f (d1 ++ d2) = tag f d1 ++ tag f d2.
Proof. apply map_app. Qed.

Lemma keys_app {V : Type} (d1 d2 : Py.dict V) :
  Py.keys (d1 ++ d2) = Py.keys d1 ++ Py.keys d2.
Proof. apply map_app. Qed.

Lemma getitem_mid {V : Type} (pre suf : Py.dict V) k v :
  ~ In k (Py.keys pre) -> Py.getitem (pre ++ (k, v) :: suf) k = Ok v.
Proof.
  induction pre as [|[k' v'] pre IH]; simpl; intros Hk.
  - now rewrite String.eqb_refl.
  - destruct (String.eqb_spec k' k) as [->|_]; [tauto|]. apply IH. tauto.
Qed.

Lemma setitem_mid {V : Type} (pre suf : Py.dict V) k v v' :
  ~ In k (Py.keys pre) ->
  Py.setitem (pre ++ (k, v) :: suf) k v' = pre ++ (k, v') :: suf.
Proof.
  induction pre as [|[k0 v0] pre IH]; simpl; intros Hk.
  - now rewrite String.eqb_refl.
  - destruct (String.eqb_spec k0 k) as [->|_]; [tauto|].
    rewrite IH; tauto.
Qed.

Lemma getitem_in {V : Type} (d : Py.dict V) k v :
  Py.getitem d k = Ok v ->
  exists pre suf, d = pre ++ (k, v) :: suf /\ ~ In k (Py.keys pre).
Proof.
  induction d as [|[k' v'] d IH]; simpl; [discriminate|].
  destruct (String.eqb_spec k' k) as [->|Hne]; intros H.
  - inversion H; subst. exists [], d. simpl. tauto.
  - destruct (IH H) as (pre & suf & -> & Hk).
    exists ((k', v') :: pre), suf. simpl. split; [reflexivity|].
    intros [?|?]; [congruence|tauto].
Qed.

Lemma nodup_mid (pre suf : list string) k :
  NoDup (pre ++ k :: suf) -> ~ In k pre.
Proof.
  intros H Hin. apply NoDup_remove_2 in H. apply H, in_or_app. now left.
Qed.

(** *** The first loop: what is observed for each slot *)

Definition occ_step (poly : Polygon) (b : bool) (d : Detection) : bool :=
  if contains poly (center d) then true else b.

Definition conf_step (poly : Polygon) (q : Q) (d : Detection) : Q :=
  if contains poly (center d) then Py.max q (det_confidence d) else q.

(** The entries of [slot_occupancy] and [slot_confidence] for a slot with
    the given polygon, after the loop over the detections. *)
Definition hit (poly : Polygon) (dets : list Detection) : bool :=
  fold_left (occ_step poly) dets false.

Definition raw_confidence (poly : Polygon) (dets : list Detection) : Q :=
  fold_left (conf_step poly) dets 0.

Lemma scan_slots_spec (d : Detection) (oa : SlotState -> bool)
    (ca : SlotState -> Q) : forall suf pre,
  NoDup (Py.keys (pre ++ suf)) ->
  scan_slots suf d
    (tag (fun s => occ_step (polygon s) (oa s) d) pre ++ tag oa suf,
     tag (fun s => conf_step (polygon s) (ca s) d) pre ++ tag ca suf)
  = Ok (tag (fun s => occ_step (polygon s) (oa s) d) (pre ++ suf),
        tag (fun s => conf_step (polygon s) (ca s) d) (pre ++ suf)).
Proof.
  set (f := fun s => occ_step (polygon s) (oa s) d).
  set (g := fun s => conf_step (polygon s) (ca s) d).
  induction suf as [|[k s] rest IH]; intros pre Hnd.
  - simpl. now rewrite !app_nil_r.
  - assert (~ In k (Py.keys pre)) as Hk.
    { rewrite keys_app in Hnd. simpl in Hnd. now apply nodup_mid in Hnd. }
    specialize (IH (pre ++ [(k, s)])).
    rewrite <- app_assoc in IH. simpl app in IH. specialize (IH Hnd).
    rewrite !tag_app in IH. rewrite <- !app_assoc in IH.
    rewrite !tag_app.
    change (tag f [(k, s)]) with [(k, f s)] in IH.
    change (tag g [(k, s)]) with [(k, g s)] in IH.
    change (tag f ((k, s) :: rest)) with ((k, f s) :: tag f rest).
    change (tag g ((k, s) :: rest)) with ((k, g s) :: tag g rest).
    change (tag oa ((k, s) :: rest)) with ((k, oa s) :: tag oa rest).
    change (tag ca ((k, s) :: rest)) with ((k, ca s) :: tag ca rest).
    simpl app in IH.
    cbn [scan_slots fst snd].
    destruct (contains (polygon s) (center d)) eqn:Hc.
    + assert (f s = true) as Hf by (unfold f, occ_step; now rewrite Hc).
      assert (g s = Py.max (ca s) (det_confidence d)) as Hg
        by (unfold g, conf_step; now rewrite Hc).
      rewrite getitem_mid by now rewrite keys_tag.
      cbn [bind].
      rewrite !setitem_mid by now rewrite keys_tag.
      rewrite Hf, Hg in IH. rewrite Hf, Hg. exact IH.
    + assert (f s = oa s) as Hf by (unfold f, occ_step; now rewrite Hc).
      assert (g s = ca s) as Hg by (unfold g, conf_step; now rewrite Hc).
      rewrite Hf, Hg in IH. rewrite Hf, Hg. exact IH.
Qed.

Lemma scan_slots_all (d : Detection) (oa : SlotState -> bool)
    (ca : SlotState -> Q) (sl : Py.dict SlotState) :
  NoDup (Py.keys sl) ->
  scan_slots sl d (tag oa sl, tag ca sl)
  = Ok (tag (fun s => occ_step (polygon s) (oa s) d) sl,
        tag (fun s => conf_step (polygon s) (ca s) d) sl).
Proof. intros Hnd. exact (scan_slots_spec d oa ca sl [] Hnd). Qed.

Lemma scan_detections_spec (sl : Py.dict SlotState) :
  NoDup (Py.keys sl) ->
  forall dets (oa : SlotState -> bool) (ca : SlotState -> Q),
    scan_detections sl dets (tag oa sl, tag ca sl)
    = Ok (tag (fun s => fold_left (occ_step (polygon s)) dets (oa s)) sl,
          tag (fun s => fold_left (conf_step (polygon s)) dets (ca s)) sl).
Proof.
  intros Hnd. induction dets as [|d dets IH]; intros oa ca.
  - reflexivity.
  - cbn [scan_detections fold_left].
    rewrite (scan_slots_all d oa ca sl Hnd). cbn [bind]. apply IH.
Qed.

Lemma hit_exists poly dets :
  hit poly dets = existsb (fun d => contains poly (center d)) dets.
Proof.
  unfold hit.
  assert (forall b, fold_left (occ_step poly) dets b
                    = b || existsb (fun d => contains poly (center d)) dets)
    as H; [|apply H].
  induction dets as [|d dets IH]; intros b; simpl.
  - now rewrite orb_false_r.
  - rewrite IH. unfold occ_step.
    destruct (contains poly (center d)), b; reflexivity.
Qed.

Lemma raw_confidence_miss poly dets :
  hit poly dets = false -> raw_confidence poly dets = 0.
Proof.
  rewrite hit_exists. unfold raw_confidence. generalize 0.
  induction dets as [|d dets IH]; simpl; intros q H; [reflexivity|].
  apply orb_false_iff in H as [Hd Hrest].
  unfold conf_step at 2. rewrite Hd. now apply IH.
Qed.

(** *** The second loop: one slot at a time *)

Definition new_state_of (poly : Polygon) (dets : list Detection) : string :=
  if hit poly dets then "occupied"%string else "free"%string.

Definition conf_of (poly : Polygon) (dets : list Detection) : Q :=
  if hit poly dets then raw_confidence poly dets
  else 1 - raw_confidence poly dets.

(** [pending_state] and [pending_since] are set together. *)
Definition pending_ok (s : SlotState) : Prop :=
  pending_state s <> None -> pending_since s <> None.

Definition update_pure (self : OccupancyProcessor) (slot : SlotState)
    (new_state : string) (conf : Q) (ts : datetime) (now : Q)
  : SlotState * option Event :=
  match _update_slot_state self slot new_state conf ts now with
  | Ok r => r
  | Raise _ => (slot, None)
  end.

(** What one call of [process_detections] does to one slot. *)
Definition step (self : OccupancyProcessor) (f : Frame) (s : SlotState)
  : SlotState * option Event :=
  update_pure self s (new_state_of (polygon s) (fr_detections f))
    (conf_of (polygon s) (fr_detections f)) (fr_timestamp f) (fr_time f).

Definition opt_list {A : Type} (o : option A) : list A :=
  match o with Some a => [a] | None => [] end.

Lemma opt_str_ne_false a b : Py.opt_str_ne a b = false -> a = Some b.
Proof.
  destruct a as [x|]; simpl; [|discriminate].
  intros H. apply negb_false_iff, String.eqb_eq in H. now subst.
Qed.

Lemma opt_str_ne_true a b : Py.opt_str_ne a b = true <-> a <> Some b.
Proof.
  destruct a as [x|]; simpl.
  - rewrite negb_true_iff, String.eqb_neq. split; congruence.
  - split; [discriminate|trivial].
Qed.

Lemma update_ok self slot new_state conf ts now :
  pending_ok slot ->
  _update_slot_state self slot new_state conf ts now
  = Ok (update_pure self slot new_state conf ts now).
Proof.
  intros Hp. unfold update_pure, _update_slot_state.
  destruct (negb _); [|reflexivity].
  destruct (Py.opt_str_ne _ _) eqn:E; [reflexivity|].
  apply opt_str_ne_false in E.
  destruct (pending_since slot) eqn:Es.
  - destruct (Py.ge _ _); reflexivity.
  - exfalso. apply Hp; [congruence|exact Es].
Qed.

Lemma update_pure_frame self slot new_state conf ts now :
  let s' := fst (update_pure self slot new_state conf ts now) in
  slot_id s' = slot_id slot /\ polygon s' = polygon slot
  /\ (pending_ok slot -> pending_ok s').
Proof.
  unfold update_pure, _update_slot_state, pending_ok.
  destruct (negb _);
    [destruct (Py.opt_str_ne _ _);
       [|destruct (pending_since slot) eqn:Es; [destruct (Py.ge _ _)|]]|];
    simpl; repeat split; try congruence; auto.
Qed.

Lemma update_pure_event self slot new_state conf ts now e :
  snd (update_pure self slot new_state conf ts now) = Some e ->
  ev_slot_id e = slot_id slot
  /\ ev_previous_state e = current_state slot
  /\ ev_state e = hysteresis self (current_state slot) new_state conf
  /\ ev_confidence e = conf
  /\ ev_dwell_s e = Py.int (now - dwell_start slot).
Proof.
  unfold update_pure, _update_slot_state.
  destruct (negb _); [|discriminate].
  destruct (Py.opt_str_ne _ _); [discriminate|].
  destruct (pending_since slot); [|discriminate].
  destruct (Py.ge _ _); [|discriminate].
  simpl. intros H. inversion H; subst e. simpl. repeat split.
Qed.

Definition slots_wf (sl : Py.dict SlotState) : Prop :=
  NoDup (Py.keys sl)
  /\ Forall (fun kv => slot_id (snd kv) = fst kv /\ pending_ok (snd kv)) sl.

Definition events_of (self : OccupancyProcessor) (f : Frame)
    (sl : Py.dict SlotState) : list Event :=
  flat_map (fun kv => opt_list (snd (step self f (snd kv)))) sl.

Lemma update_slots_spec (self : OccupancyProcessor) (f : Frame) :
  forall suf pre pre' events,
    NoDup (Py.keys (pre ++ suf)) ->
    Py.keys pre' = Py.keys pre ->
    Forall (fun kv => pending_ok (snd kv)) suf ->
    update_slots self
      (tag (fun s => hit (polygon s) (fr_detections f)) suf)
      (tag (fun s => raw_confidence (polygon s) (fr_detections f))
         (pre ++ suf))
      (fr_timestamp f) (fr_time f) (pre' ++ suf) events
    = Ok (pre' ++ tag (fun s => fst (step self f s)) suf,
          events ++ events_of self f suf).
Proof.
  induction suf as [|[k s] rest IH]; intros pre pre' events Hnd Hkeys Hp.
  - simpl. unfold events_of. simpl. now rewrite !app_nil_r.
  - assert (~ In k (Py.keys pre)) as Hk.
    { rewrite keys_app in Hnd. simpl in Hnd. now apply nodup_mid in Hnd. }
    inversion Hp as [|? ? Hps Hprest]; subst. simpl in Hps.
    specialize (IH (pre ++ [(k, s)]) (pre' ++ [(k, fst (step self f s))])
                  (events ++ opt_list (snd (step self f s)))).
    rewrite <- !app_assoc in IH. simpl app in IH.
    specialize (IH Hnd).
    rewrite !keys_app, Hkeys in IH. specialize (IH eq_refl Hprest).
    change (tag (fun s => fst (step self f s)) ((k, s) :: rest))
      with ((k, fst (step self f s))
              :: tag (fun s => fst (step self f s)) rest).
    change (events_of self f ((k, s) :: rest))
      with (opt_list (snd (step self f s)) ++ events_of self f rest).
    rewrite <- IH. clear IH.
    change (tag (fun s => hit (polygon s) (fr_detections f)) ((k, s) :: rest))
      with ((k, hit (polygon s) (fr_detections f))
              :: tag (fun s => hit (polygon s) (fr_detections f)) rest).
    cbn [update_slots].
    rewrite getitem_mid by now rewrite Hkeys.
    cbn [bind].
    assert ((if hit (polygon s) (fr_detections f)
             then Py.getitem
                    (tag (fun s => raw_confidence (polygon s) (fr_detections f))
                       (pre ++ (k, s) :: rest)) k
             else Ok (1 - Py.get
                           (tag (fun s => raw_confidence (polygon s)
                                             (fr_detections f))
                              (pre ++ (k, s) :: rest)) k 0))
            = Ok (conf_of (polygon s) (fr_detections f))) as ->.
    { unfold conf_of, Py.get. rewrite tag_app.
      change (tag (fun s => raw_confidence (polygon s) (fr_detections f))
                ((k, s) :: rest))
        with ((k, raw_confidence (polygon s) (fr_detections f))
                :: tag (fun s => raw_confidence (polygon s) (fr_detections f))
                     rest).
      rewrite getitem_mid by now rewrite keys_tag.
      now destruct (hit _ _). }
    cbn [bind].
    change (if hit (polygon s) (fr_detections f)
            then "occupied"%string else "free"%string)
      with (new_state_of (polygon s) (fr_detections f)).
    rewrite update_ok by exact Hps.
    cbn [bind]. fold (step self f s).
    rewrite setitem_mid by now rewrite Hkeys.
    destruct (snd (step self f s)); simpl opt_list;
      [reflexivity | now rewrite app_nil_r].
Qed.

Lemma process_detections_ok (self : OccupancyProcessor) (f : Frame) :
  slots_wf (slots self) ->
  process_detections self (fr_detections f) (fr_timestamp f) (fr_time f)
  = Ok (set_slots self (tag (fun s => fst (step self f s)) (slots self)),
        events_of self f (slots self)).
Proof.
  intros [Hnd Hall]. unfold process_detections.
  change (map (fun kv => (fst kv, false)) (slots self))
    with (tag (fun _ : SlotState => false) (slots self)).
  change (map (fun kv => (fst kv, 0)) (slots self))
    with (tag (fun _ : SlotState => 0) (slots self)).
  rewrite scan_detections_spec by exact Hnd.
  cbn [bind fst snd].
  pose proof (update_slots_spec self f (slots self) [] [] [] Hnd eq_refl)
    as H.
  simpl app in H. unfold hit, raw_confidence in H. rewrite H.
  - reflexivity.
  - eapply Forall_impl; [|exact Hall]. simpl. tauto.
Qed.

(** *** From the slot map to one slot *)

(** The successive states of one slot over a sequence of calls, with the
    event, if any, that each call returned for it. *)
Fixpoint slot_trace (self : OccupancyProcessor) (frames : list Frame)
    (s : SlotState) : SlotState * list (option Event) :=
  match frames with
  | [] => (s, [])
  | f :: rest =>
      let r := slot_trace self rest (fst (step self f s)) in
      (fst r, snd (step self f s) :: snd r)
  end.

(** The events of a call that carry the given slot id. *)
Definition events_for (k : string) (evs : list Event) : list Event :=
  filter (fun e => String.eqb (ev_slot_id e) k) evs.

Lemma slot_trace_set_slots self sl frames : forall s,
  slot_trace (set_slots self sl) frames s = slot_trace self frames s.
Proof.
  induction frames as [|f rest IH]; intros s; simpl; [reflexivity|].
  change (step (set_slots self sl) f s) with (step self f s).
  now rewrite IH.
Qed.

Lemma getitem_tag {A B : Type} (g : A -> B) (d : Py.dict A) k v :
  Py.getitem d k = Ok v -> Py.getitem (tag g d) k = Ok (g v).
Proof.
  induction d as [|[k' v'] d IH]; simpl; [discriminate|].
  destruct (String.eqb k' k); [|exact IH].
  intros H. inversion H. reflexivity.
Qed.

Lemma slots_wf_step self f sl :
  slots_wf sl -> slots_wf (tag (fun s => fst (step self f s)) sl).
Proof.
  intros [Hnd Hall]. split; [now rewrite keys_tag|].
  unfold tag. apply Forall_map. eapply Forall_impl; [|exact Hall].
  intros [k s]; simpl. intros [Hid Hp].
  destruct (update_pure_frame self s
              (new_state_of (polygon s) (fr_detections f))
              (conf_of (polygon s) (fr_detections f))
              (fr_timestamp f) (fr_time f)) as (H1 & _ & H3).
  unfold step. split; [congruence|auto].
Qed.

Lemma step_event_id self f s e :
  snd (step self f s) = Some e -> ev_slot_id e = slot_id s.
Proof. intros H. now apply update_pure_event in H. Qed.

Lemma events_for_app k l1 l2 :
  events_for k (l1 ++ l2) = events_for k l1 ++ events_for k l2.
Proof. apply filter_app. Qed.

Lemma events_of_cons self f k s sl :
  events_of self f ((k, s) :: sl)
  = opt_list (snd (step self f s)) ++ events_of self f sl.
Proof. reflexivity. Qed.

Lemma events_of_app self f sl1 sl2 :
  events_of self f (sl1 ++ sl2) = events_of self f sl1 ++ events_of self f sl2.
Proof. apply flat_map_app. Qed.

Lemma events_for_own self f k s :
  slot_id s = k ->
  events_for k (opt_list (snd (step self f s))) = opt_list (snd (step self f s)).
Proof.
  intros Hid. destruct (snd (step self f s)) as [e|] eqn:E; [|reflexivity].
  apply step_event_id in E. simpl.
  now rewrite E, Hid, String.eqb_refl.
Qed.

Lemma events_for_other self f k : forall sl,
  Forall (fun kv => slot_id (snd kv) = fst kv) sl ->
  ~ In k (Py.keys sl) ->
  events_for k (events_of self f sl) = [].
Proof.
  induction sl as [|[k' s'] sl IH]; intros Hall Hk; [reflexivity|].
  inversion Hall as [|? ? Hid Hrest]; subst. simpl in Hid, Hk.
  rewrite events_of_cons, events_for_app, IH by tauto.
  rewrite app_nil_r.
  destruct (snd (step self f s')) as [e|] eqn:E; [|reflexivity].
  apply step_event_id in E. simpl.
  destruct (String.eqb_spec (ev_slot_id e) k); [|reflexivity].
  exfalso. apply Hk. left. congruence.
Qed.

Lemma events_for_slot self f sl k s :
  slots_wf sl -> Py.getitem sl k = Ok s ->
  events_for k (events_of self f sl) = opt_list (snd (step self f s)).
Proof.
  intros [Hnd Hall] Hget.
  destruct (getitem_in _ _ _ Hget) as (pre & suf & -> & Hpre).
  rewrite keys_app in Hnd. simpl in Hnd.
  assert (~ In k (Py.keys suf)) as Hsuf.
  { apply NoDup_remove_2 in Hnd. intros H. apply Hnd, in_or_app. now right. }
  assert (Forall (fun kv : string * SlotState => slot_id (snd kv) = fst kv)
            (pre ++ (k, s) :: suf)) as Hids.
  { eapply Forall_impl; [|exact Hall]. simpl. tauto. }
  apply Forall_app in Hids as [Hipre Hisuf].
  inversion Hisuf as [|? ? Hid Hisuf']; subst. simpl in Hid.
  rewrite events_of_app, events_of_cons, !events_for_app.
  rewrite !events_for_other by assumption.
  rewrite app_nil_r. simpl app. now apply events_for_own.
Qed.

(** A sequence of calls on a well-formed slot map returns, and a slot of
    the map goes through its own trace. *)
Lemma run_slot : forall frames self k s,
  slots_wf (slots self) ->
  Py.getitem (slots self) k = Ok s ->
  exists self' outs,
    run self frames = Ok (self', outs)
    /\ Py.getitem (slots self') k = Ok (fst (slot_trace self frames s))
    /\ map (events_for k) outs = map opt_list (snd (slot_trace self frames s))
    /\ slots_wf (slots self')
    /\ Py.keys (slots self') = Py.keys (slots self).
Proof.
  induction frames as [|f rest IH]; intros self k s Hwf Hget.
  - exists self, []. simpl. auto.
  - cbn [run]. rewrite process_detections_ok by exact Hwf.
    cbn [bind fst snd].
    set (self1 := set_slots self
                    (tag (fun s => fst (step self f s)) (slots self))).
    destruct (IH self1 k (fst (step self f s))) as
      (self' & outs & Hrun & Hget' & Hev & Hwf' & Hkeys).
    + now apply slots_wf_step.
    + exact (getitem_tag (fun s => fst (step self f s)) (slots self) k s Hget).
    + rewrite Hrun. cbn [bind fst snd].
      exists self', (events_of self f (slots self) :: outs).
      unfold self1 in Hget', Hev. rewrite slot_trace_set_slots in Hget', Hev.
      split; [reflexivity|]. split; [exact Hget'|].
      split; [|split; [exact Hwf'|]].
      * cbn [map slot_trace snd]. rewrite Hev.
        now rewrite (events_for_slot self f (slots self) k s Hwf Hget).
      * rewrite Hkeys. unfold self1. simpl. apply keys_tag.
Qed.

(** *** One slot, one call *)

(** The state a call presents to a slot in state [c]: the observation
    after the hysteresis gate. *)
Definition presents (self : OccupancyProcessor) (c : string) (poly : Polygon)
    (S : string) (f : Frame) : Prop :=
  hysteresis self c (new_state_of poly (fr_detections f))
    (conf_of poly (fr_detections f)) = S.

(** Time between the call that started the pending window and a call. *)
Definition elapsed (t0 : Q) (f : Frame) : Q := fr_time f - t0.

Lemma ge_true x y : y <= x -> Py.ge x y = true.
Proof. intros H. now apply Qle_bool_iff. Qed.

Lemma ge_false x y : x < y -> Py.ge x y = false.
Proof.
  intros H. apply not_true_is_false. intros E.
  apply Qle_bool_iff in E. now apply Qlt_not_le in H.
Qed.

Lemma lt_true x y : x < y -> Py.lt x y = true.
Proof.
  intros H. unfold Py.lt. change (Qle_bool y x) with (Py.ge x y).
  now rewrite (ge_false _ _ H).
Qed.

Lemma hysteresis_same self x conf : hysteresis self x x conf = x.
Proof.
  unfold hysteresis.
  destruct (String.eqb_spec x "free") as [->|_]; [reflexivity|].
  destruct (String.eqb_spec x "occupied") as [->|_]; reflexivity.
Qed.

Lemma hysteresis_cases self c n conf :
  hysteresis self c n conf = n \/ hysteresis self c n conf = c.
Proof.
  unfold hysteresis.
  destruct (String.eqb_spec c "free") as [->|_]; simpl.
  - destruct (String.eqb n "occupied"); [|now left].
    destruct (Py.lt _ _); [now right|now left].
  - destruct (String.eqb_spec c "occupied") as [->|_]; simpl; [|now left].
    destruct (String.eqb n "free"); [|now left].
    destruct (Py.lt _ _); [now right|now left].
Qed.

Lemma presents_raw self c poly S f :
  presents self c poly S f -> S <> c ->
  new_state_of poly (fr_detections f) = S.
Proof.
  unfold presents. intros H Hne.
  destruct (hysteresis_cases self c (new_state_of poly (fr_detections f))
              (conf_of poly (fr_detections f))); congruence.
Qed.

Lemma step_frame self f s :
  slot_id (fst (step self f s)) = slot_id s
  /\ polygon (fst (step self f s)) = polygon s.
Proof.
  destruct (update_pure_frame self s
              (new_state_of (polygon s) (fr_detections f))
              (conf_of (polygon s) (fr_detections f))
              (fr_timestamp f) (fr_time f)) as (H1 & H2 & _).
  now split.
Qed.

Lemma step_same self f s :
  presents self (current_state s) (polygon s) (current_state s) f ->
  snd (step self f s) = None
  /\ current_state (fst (step self f s)) = current_state s.
Proof.
  unfold presents, step, update_pure, _update_slot_state. intros ->.
  rewrite String.eqb_refl. simpl. now split.
Qed.

Lemma step_start self f s S :
  presents self (current_state s) (polygon s) S f ->
  S <> current_state s ->
  pending_state s <> Some S ->
  snd (step self f s) = None
  /\ current_state (fst (step self f s)) = current_state s
  /\ pending_state (fst (step self f s)) = Some S
  /\ pending_since (fst (step self f s)) = Some (fr_time f)
  /\ confidence (fst (step self f s)) = conf_of (polygon s) (fr_detections f).
Proof.
  unfold presents, step, update_pure, _update_slot_state.
  intros -> Hne Hp.
  apply String.eqb_neq in Hne. rewrite Hne.
  apply opt_str_ne_true in Hp. rewrite Hp. simpl. repeat split.
Qed.

Lemma step_wait self f s S t0 :
  presents self (current_state s) (polygon s) S f ->
  S <> current_state s ->
  pending_state s = Some S ->
  pending_since s = Some t0 ->
  elapsed t0 f < debounce_seconds self ->
  step self f s = (s, None).
Proof.
  unfold presents, step, update_pure, _update_slot_state, elapsed.
  intros -> Hne Hp Hs Ht.
  apply String.eqb_neq in Hne. rewrite Hne, Hp, Hs.
  cbn [negb Py.opt_str_ne]. rewrite String.eqb_refl. cbn [negb].
  now rewrite (ge_false _ _ Ht).
Qed.

Lemma step_confirm self f s S t0 :
  presents self (current_state s) (polygon s) S f ->
  S <> current_state s ->
  pending_state s = Some S ->
  pending_since s = Some t0 ->
  debounce_seconds self <= elapsed t0 f ->
  current_state (fst (step self f s)) = S
  /\ exists e,
       snd (step self f s) = Some e
       /\ ev_slot_id e = slot_id s
       /\ ev_state e = S
       /\ ev_previous_state e = current_state s
       /\ ev_confidence e = conf_of (polygon s) (fr_detections f).
Proof.
  unfold presents, step, update_pure, _update_slot_state, elapsed.
  intros -> Hne Hp Hs Ht.
  apply String.eqb_neq in Hne. rewrite Hne, Hp, Hs.
  cbn [negb Py.opt_str_ne]. rewrite String.eqb_refl. cbn [negb].
  rewrite (ge_true _ _ Ht). cbn [fst snd current_state].
  split; [reflexivity|]. eexists. split; [reflexivity|]. simpl. repeat split.
Qed.

(** *** One slot, a sequence of calls *)

Definition silent (tr : list (option Event)) : Prop :=
  Forall (fun o => o = None) tr.

Lemma silent_nth (tr : list (option Event)) (frames : list Frame) i f :
  silent tr -> List.length tr = List.length frames ->
  nth_error frames i = Some f -> nth_error tr i = Some None.
Proof.
  intros Hs Hlen Hf.
  destruct (nth_error tr i) as [o|] eqn:E.
  - apply nth_error_In in E. unfold silent in Hs.
    rewrite Forall_forall in Hs. now rewrite (Hs o E).
  - apply nth_error_None in E.
    assert (i < List.length frames)%nat
      by (apply nth_error_Some; congruence).
    lia.
Qed.

Lemma silent_events (tr : list (option Event)) :
  silent tr -> concat (map opt_list tr) = [].
Proof.
  induction 1 as [|o tr Ho _ IH]; simpl; [reflexivity|].
  now rewrite Ho, IH.
Qed.

(** While every call presents the state the slot is in, nothing happens. *)
Lemma stays_trace self poly c : forall frames s,
  polygon s = poly -> current_state s = c ->
  Forall (presents self c poly c) frames ->
  current_state (fst (slot_trace self frames s)) = c
  /\ silent (snd (slot_trace self frames s))
  /\ List.length (snd (slot_trace self frames s)) = List.length frames.
Proof.
  induction frames as [|f rest IH]; intros s Hpoly Hc Hall.
  - simpl. repeat split; [exact Hc | constructor].
  - inversion Hall as [|? ? Hf Hrest]; subst.
    destruct (step_same self f s Hf) as [Hnone Hcur].
    destruct (step_frame self f s) as [_ Hp].
    destruct (IH (fst (step self f s)) Hp Hcur Hrest) as (H1 & H2 & H3).
    cbn [slot_trace fst snd]. repeat split.
    + exact H1.
    + constructor; assumption.
    + simpl. now rewrite H3.
Qed.

(** A slot in state [c] with a pending window for [S], opened at [t0]:
    the calls that keep presenting [S] are silent until the first one at
    which [debounce_seconds] have elapsed; that one returns the event, and
    the later ones are silent again. *)
Lemma waiting_trace self poly c S t0 (Hne : S <> c) : forall frames s,
  polygon s = poly -> current_state s = c ->
  pending_state s = Some S -> pending_since s = Some t0 ->
  Forall (presents self c poly S) frames ->
  let tr := snd (slot_trace self frames s) in
  List.length tr = List.length frames
  /\ (forall i f, nth_error frames i = Some f ->
        elapsed t0 f < debounce_seconds self ->
        nth_error tr i = Some None)
  /\ (forall i f, nth_error frames i = Some f ->
        debounce_seconds self <= elapsed t0 f ->
        (forall j fj, (j < i)%nat -> nth_error frames j = Some fj ->
                      elapsed t0 fj < debounce_seconds self) ->
        exists e, nth_error tr i = Some (Some e)
                  /\ ev_slot_id e = slot_id s
                  /\ ev_state e = S
                  /\ ev_previous_state e = c
                  /\ ev_confidence e = conf_of poly (fr_detections f))
  /\ (List.length (concat (map opt_list tr)) <= 1)%nat
  /\ (Exists (fun f => debounce_seconds self <= elapsed t0 f) frames ->
      current_state (fst (slot_trace self frames s)) = S)
  /\ (Forall (fun f => elapsed t0 f < debounce_seconds self) frames ->
      current_state (fst (slot_trace self frames s)) = c).
Proof.
  induction frames as [|f rest IH]; intros s Hpoly Hc Hp Hs Hall tr.
  - subst tr. simpl. repeat split; try lia.
    + intros [|i] g; discriminate.
    + intros [|i] g; discriminate.
    + intros H. inversion H.
    + intros _. exact Hc.
  - inversion Hall as [|? ? Hf Hrest]; subst poly c.
    destruct (Qlt_le_dec (elapsed t0 f) (debounce_seconds self)) as [Hearly|Hdue].
    + (* the window is still open *)
      pose proof (step_wait self f s S t0 Hf Hne Hp Hs Hearly) as Hstep.
      subst tr. cbn [slot_trace]. rewrite Hstep. cbn [fst snd].
      destruct (IH s eq_refl eq_refl Hp Hs Hrest)
        as (H1 & H2 & H3 & H4 & H5 & H6).
      repeat split.
      * simpl. now rewrite H1.
      * intros [|i] g Hg Hg'; [reflexivity|]. now apply (H2 i g).
      * intros [|i] g Hg Hg' Hbefore.
        -- inversion Hg; subst g. now apply Qlt_not_le in Hearly.
        -- apply (H3 i g Hg Hg').
           intros j fj Hj Hfj. apply (Hbefore (Datatypes.S j) fj); [lia|exact Hfj].
      * exact H4.
      * intros Hex. inversion Hex as [? ? Hd|? ? Hex']; subst.
        -- now apply Qlt_not_le in Hearly.
        -- now apply H5.
      * intros Hfa. inversion Hfa; subst. now apply H6.
    + (* the window has elapsed: this call confirms *)
      destruct (step_confirm self f s S t0 Hf Hne Hp Hs Hdue)
        as (Hcur & e & He & Hid & Hst & Hprev & Hconf).
      destruct (step_frame self f s) as [_ Hpoly'].
      assert (Forall (presents self S (polygon s) S) rest) as Hrest'.
      { eapply Forall_impl; [|exact Hrest]. intros g Hg.
        unfold presents. rewrite (presents_raw _ _ _ _ _ Hg Hne).
        apply hysteresis_same. }
      destruct (stays_trace self (polygon s) S rest (fst (step self f s))
                  Hpoly' Hcur Hrest') as (Hfin & Hsil & Hlen).
      subst tr. cbn [slot_trace fst snd]. rewrite He.
      repeat split.
      * simpl. now rewrite Hlen.
      * intros [|i] g Hg Hg'.
        -- inversion Hg; subst g. now apply Qlt_not_le in Hg'.
        -- simpl. now apply (silent_nth _ rest i g).
      * intros [|i] g Hg Hg' Hbefore.
        -- inversion Hg; subst g. exists e. simpl. auto.
        -- exfalso. apply (Qlt_not_le _ _ (Hbefore 0%nat f ltac:(lia) eq_refl)).
           exact Hdue.
      * simpl. rewrite (silent_events _ Hsil). simpl. lia.
      * intros _. exact Hfin.
      * intros Hfa. inversion Hfa as [|? ? Hd _]; subst.
        now apply Qlt_not_le in Hd.
Qed.

(** *** Back to the slot map *)

Lemma wf_slot sl k s :
  slots_wf sl -> Py.getitem sl k = Ok s -> slot_id s = k /\ pending_ok s.
Proof.
  intros [_ Hall] Hget.
  destruct (getitem_in _ _ _ Hget) as (pre & suf & -> & _).
  apply Forall_app in Hall as [_ Hall].
  inversion Hall as [|? ? H _]; subst. exact H.
Qed.

Lemma lift_nth k (outs : list (list Event)) (tr : list (option Event)) i evs :
  map (events_for k) outs = map opt_list tr ->
  nth_error outs i = Some evs ->
  exists o, nth_error tr i = Some o /\ events_for k evs = opt_list o.
Proof.
  intros Heq Hi.
  apply (f_equal (fun l => nth_error l i)) in Heq.
  rewrite !nth_error_map, Hi in Heq. simpl in Heq.
  destruct (nth_error tr i) as [o|]; [|discriminate].
  exists o. split; [reflexivity|]. simpl in Heq. congruence.
Qed.

Lemma events_for_concat k (outs : list (list Event)) :
  events_for k (concat outs) = concat (map (events_for k) outs).
Proof.
  induction outs as [|evs outs IH]; simpl; [reflexivity|].
  now rewrite events_for_app, IH.
Qed.

(** What debouncing means for the slot [k], in state [c], to which the
    calls [frames] present [S], the first of them at time [t0]: the first
    call and every call made before [D] has elapsed return no event for
    the slot; the first later call made once [D] has elapsed returns
    exactly one, from [c] to [S]; and the whole sequence returns at most
    one event for the slot. *)
Definition debounced (D t0 : Q) (k c S : string) (poly : Polygon)
    (frames : list Frame) (outs : list (list Event)) : Prop :=
  List.length outs = List.length frames
  /\ (forall i f evs,
        nth_error frames i = Some f -> nth_error outs i = Some evs ->
        i = 0%nat \/ elapsed t0 f < D ->
        events_for k evs = [])
  /\ (forall i f evs,
        nth_error frames i = Some f -> nth_error outs i = Some evs ->
        (0 < i)%nat -> D <= elapsed t0 f ->
        (forall j fj, (0 < j < i)%nat -> nth_error frames j = Some fj ->
                      elapsed t0 fj < D) ->
        exists e, events_for k evs = [e]
                  /\ ev_slot_id e = k
                  /\ ev_state e = S
                  /\ ev_previous_state e = c
                  /\ ev_confidence e = conf_of poly (fr_detections f))
  /\ (List.length (events_for k (concat outs)) <= 1)%nat.

Lemma first_observation self k s S f0 rest :
  slots_wf (slots self) ->
  Py.getitem (slots self) k = Ok s ->
  S <> current_state s ->
  pending_state s <> Some S ->
  Forall (presents self (current_state s) (polygon s) S) (f0 :: rest) ->
  exists self' outs s',
    run self (f0 :: rest) = Ok (self', outs)
    /\ Py.getitem (slots self') k = Ok s'
    /\ debounced (debounce_seconds self) (fr_time f0) k (current_state s) S
         (polygon s) (f0 :: rest) outs
    /\ (Exists (fun f => debounce_seconds self <= elapsed (fr_time f0) f) rest
        -> current_state s' = S)
    /\ (Forall (fun f => elapsed (fr_time f0) f < debounce_seconds self) rest
        -> current_state s' = current_state s).
Proof.
  intros Hwf Hget Hne Hpend Hall.
  destruct (run_slot (f0 :: rest) self k s Hwf Hget)
    as (self' & outs & Hrun & Hget' & Hev & _ & _).
  inversion Hall as [|? ? Hf0 Hrest]; subst.
  destruct (wf_slot _ _ _ Hwf Hget) as [Hid _].
  destruct (step_start self f0 s S Hf0 Hne Hpend)
    as (Hnone & Hcur & Hp1 & Hs1 & _).
  destruct (step_frame self f0 s) as [Hid1 Hpoly1].
  rewrite <- Hcur in Hne, Hrest.
  destruct (waiting_trace self (polygon s) (current_state (fst (step self f0 s)))
              S (fr_time f0) Hne rest (fst (step self f0 s))
              Hpoly1 eq_refl Hp1 Hs1 Hrest)
    as (Hlen & Hearly & Hdue & Hone & Hfin & Hfin').
  cbn [slot_trace fst snd] in Hget', Hev. rewrite Hnone in Hev.
  exists self', outs, (fst (slot_trace self rest (fst (step self f0 s)))).
  split; [exact Hrun|]. split; [exact Hget'|].
  split; [|split; [exact Hfin | now rewrite <- Hcur]].
  unfold debounced. repeat split.
  - apply (f_equal (@List.length _)) in Hev.
    rewrite !length_map in Hev. simpl in Hev. simpl. lia.
  - intros i f evs Hf Hevs Hi.
    destruct (lift_nth k outs _ i evs Hev Hevs) as (o & Ho & ->).
    destruct i as [|i]; [now inversion Ho|].
    simpl in Hf, Ho. destruct Hi as [Hi|Hi]; [discriminate|].
    rewrite (Hearly i f Hf Hi) in Ho. now inversion Ho.
  - intros i f evs Hf Hevs Hi Hd Hbefore.
    destruct (lift_nth k outs _ i evs Hev Hevs) as (o & Ho & ->).
    destruct i as [|i]; [lia|]. simpl in Hf, Ho.
    destruct (Hdue i f Hf Hd) as (e & He & Heid & Hst & Hprev & Hconf).
    + intros j fj Hj Hfj.
      apply (Hbefore (Datatypes.S j) fj); [lia|exact Hfj].
    + rewrite He in Ho. inversion Ho; subst o.
      exists e. repeat split; congruence.
  - rewrite events_for_concat, Hev. simpl. exact Hone.
Qed.

(** *** The raw confidence of a slot *)

Lemma max_cases x y : Py.max x y = x \/ Py.max x y = y.
Proof. unfold Py.max. destruct (Py.lt x y); auto. Qed.

Lemma max_ge x y : x <= Py.max x y /\ y <= Py.max x y.
Proof.
  unfold Py.max, Py.lt. destruct (Qle_bool y x) eqn:E; simpl.
  - apply Qle_bool_iff in E. split; [apply Qle_refl|exact E].
  - split; [|apply Qle_refl].
    apply Qlt_le_weak, Qnot_le_lt. intros H.
    apply Qle_bool_iff in H. congruence.
Qed.

Lemma conf_fold_ge poly dets : forall q,
  q <= fold_left (conf_step poly) dets q
  /\ forall d, In d dets -> contains poly (center d) = true ->
               det_confidence d <= fold_left (conf_step poly) dets q.
Proof.
  induction dets as [|d dets IH]; intros q; simpl.
  - split; [apply Qle_refl | intros d []].
  - destruct (IH (conf_step poly q d)) as [Hq Hall].
    assert (q <= conf_step poly q d) as Hstep.
    { unfold conf_step. destruct (contains poly (center d));
        [apply max_ge | apply Qle_refl]. }
    split; [eapply Qle_trans; eassumption|].
    intros d' [<-|Hin] Hc; [|now apply Hall].
    eapply Qle_trans; [|exact Hq].
    unfold conf_step. rewrite Hc. apply max_ge.
Qed.

Lemma conf_fold_choice poly dets : forall q,
  fold_left (conf_step poly) dets q = q
  \/ exists d, In d dets /\ contains poly (center d) = true
               /\ fold_left (conf_step poly) dets q = det_confidence d.
Proof.
  induction dets as [|d dets IH]; intros q; simpl; [now left|].
  destruct (IH (conf_step poly q d)) as [H|(d' & Hin & Hc & H)].
  - rewrite H. unfold conf_step.
    destruct (contains poly (center d)) eqn:Hc; [|now left].
    destruct (max_cases q (det_confidence d)) as [->| ->]; [now left|].
    right. exists d. auto.
  - right. exists d'. auto.
Qed.

Lemma raw_confidence_below poly dets T :
  (forall d, In d dets -> contains poly (center d) = true ->
             0 <= det_confidence d /\ det_confidence d < T) ->
  hit poly dets = true ->
  raw_confidence poly dets < T.
Proof.
  intros Hall Hhit. unfold raw_confidence.
  destruct (conf_fold_choice poly dets 0) as [->|(d & Hin & Hc & ->)].
  - rewrite hit_exists in Hhit. apply existsb_exists in Hhit as (d & Hin & Hc).
    destruct (Hall d Hin Hc) as [H0 HT]. eapply Qle_lt_trans; eassumption.
  - now apply Hall.
Qed.

(** *** The claims on debounce and hysteresis *)

(** C1 -- debounce. A slot [k] in state [c] is presented, call after
    call, the state [S] (the observation after the hysteresis gate), [S]
    differing from [c] and not already pending. The calls return; the
    call that begins the disagreement and every call made before
    [debounce_seconds] have elapsed since then return no event for the
    slot; the first later call made once [debounce_seconds] have elapsed
    returns exactly one event for it, from [c] to [S]; and the whole
    sequence returns at most one event for the slot, however many calls
    it has. With a positive [debounce_seconds] the confirming call is the
    first call of the sequence made at least [debounce_seconds] after the
    disagreement began. *)
Theorem debounce_single_event self k s S f0 rest :
  slots_wf (slots self) ->
  Py.getitem (slots self) k = Ok s ->
  S <> current_state s ->
  pending_state s <> Some S ->
  Forall (presents self (current_state s) (polygon s) S) (f0 :: rest) ->
  exists self' outs,
    run self (f0 :: rest) = Ok (self', outs)
    /\ debounced (debounce_seconds self) (fr_time f0) k (current_state s) S
         (polygon s) (f0 :: rest) outs
    /\ (0 < debounce_seconds self ->
        forall i f evs,
          nth_error (f0 :: rest) i = Some f -> nth_error outs i = Some evs ->
          debounce_seconds self <= elapsed (fr_time f0) f ->
          (forall j fj, (j < i)%nat -> nth_error (f0 :: rest) j = Some fj ->
                        elapsed (fr_time f0) fj < debounce_seconds self) ->
          exists e, events_for k evs = [e]
                    /\ ev_slot_id e = k
                    /\ ev_state e = S
                    /\ ev_previous_state e = current_state s).
Proof.
  intros Hwf Hget Hne Hpend Hall.
  destruct (first_observation self k s S f0 rest Hwf Hget Hne Hpend Hall)
    as (self' & outs & s' & Hrun & _ & Hdeb & _).
  exists self', outs. split; [exact Hrun|]. split; [exact Hdeb|].
  intros Hpos i f evs Hf Hevs Hd Hbefore.
  destruct i as [|i].
  - exfalso. simpl in Hf. inversion Hf; subst f.
    unfold elapsed in Hd.
    assert (fr_time f0 - fr_time f0 == 0) as Hz by ring.
    rewrite Hz in Hd. now apply Qlt_not_le in Hpos.
  - destruct Hdeb as (_ & _ & Hconfirm & _).
    destruct (Hconfirm (Datatypes.S i) f evs Hf Hevs ltac:(lia) Hd)
      as (e & He & Hid & Hst & Hprev & _).
    + intros j fj [_ Hj] Hfj. now apply (Hbefore j fj).
    + exists e. auto.
Qed.

Lemma presents_free self poly f :
  (forall d, In d (fr_detections f) -> contains poly (center d) = true ->
             0 <= det_confidence d /\ det_confidence d < enter_threshold self) ->
  presents self "free" poly "free" f.
Proof.
  intros Hall. unfold presents, hysteresis, new_state_of, conf_of.
  destruct (hit poly (fr_detections f)) eqn:Hhit; simpl; [|reflexivity].
  now rewrite (lt_true _ _ (raw_confidence_below _ _ _ Hall Hhit)).
Qed.

(** C2 -- hysteresis. A slot [k] is free, and in every call each
    detection contained in the slot has a confidence (non-negative, as
    detection confidences are) strictly below [enter_threshold]. Then the
    calls return, the slot is still free after them, and no call returns
    an event for the slot -- in particular none with state "occupied". *)
Theorem hysteresis_keeps_free self k s frames :
  slots_wf (slots self) ->
  Py.getitem (slots self) k = Ok s ->
  current_state s = "free"%string ->
  Forall (fun f =>
            forall d, In d (fr_detections f) ->
                      contains (polygon s) (center d) = true ->
                      0 <= det_confidence d
                      /\ det_confidence d < enter_threshold self) frames ->
  exists self' outs s',
    run self frames = Ok (self', outs)
    /\ Py.getitem (slots self') k = Ok s'
    /\ current_state s' = "free"%string
    /\ Forall (fun evs => events_for k evs = []) outs
    /\ (forall evs e, In evs outs -> In e evs -> ev_slot_id e = k ->
                      ev_state e <> "occupied"%string).
Proof.
  intros Hwf Hget Hfree Hall.
  destruct (run_slot frames self k s Hwf Hget)
    as (self' & outs & Hrun & Hget' & Hev & _ & _).
  assert (Forall (presents self "free" (polygon s) "free") frames) as Hpres.
  { eapply Forall_impl; [|exact Hall]. intros f. apply presents_free. }
  destruct (stays_trace self (polygon s) "free" frames s eq_refl Hfree Hpres)
    as (Hcur & Hsil & Hlen).
  assert (Forall (fun evs => events_for k evs = []) outs) as Hnone.
  { apply Forall_forall. intros evs Hin.
    apply In_nth_error in Hin as (i & Hi).
    destruct (lift_nth k outs _ i evs Hev Hi) as (o & Ho & ->).
    apply nth_error_In in Ho. unfold silent in Hsil.
    rewrite Forall_forall in Hsil. now rewrite (Hsil o Ho). }
  exists self', outs, (fst (slot_trace self frames s)).
  repeat split; try assumption.
  intros evs e Hevs He Hid _.
  rewrite Forall_forall in Hnone. specialize (Hnone evs Hevs).
  assert (In e (events_for k evs)) as Hin.
  { apply filter_In. split; [exact He|]. now apply String.eqb_eq. }
  rewrite Hnone in Hin. exact Hin.
Qed.

Lemma new_state_of_cases poly dets :
  new_state_of poly dets = "occupied"%string
  \/ new_state_of poly dets = "free"%string.
Proof. unfold new_state_of. destruct (hit poly dets); auto. Qed.

(** C5 -- initial-state bypass. For a slot in state "unknown" the
    hysteresis gate lets every observation through, whatever the
    thresholds. When every call observes the same state [S] for such a
    slot, the calls return and are debounced as in C1, the one event
    going from "unknown" to [S]; and if some call after the first is made
    once [debounce_seconds] have elapsed, the slot ends in state [S]. *)
Theorem unknown_bypass self k s S f0 rest :
  slots_wf (slots self) ->
  Py.getitem (slots self) k = Ok s ->
  current_state s = "unknown"%string ->
  pending_state s <> Some S ->
  Forall (fun f => new_state_of (polygon s) (fr_detections f) = S)
    (f0 :: rest) ->
  (forall observed conf, hysteresis self "unknown" observed conf = observed)
  /\ exists self' outs s',
       run self (f0 :: rest) = Ok (self', outs)
       /\ Py.getitem (slots self') k = Ok s'
       /\ debounced (debounce_seconds self) (fr_time f0) k "unknown" S
            (polygon s) (f0 :: rest) outs
       /\ (Exists (fun f => debounce_seconds self <= elapsed (fr_time f0) f)
             rest -> current_state s' = S).
Proof.
  intros Hwf Hget Hunk Hpend Hall.
  split; [reflexivity|].
  assert (S <> current_state s) as Hne.
  { inversion Hall as [|? ? H0 _]; subst. rewrite Hunk.
    destruct (new_state_of_cases (polygon s) (fr_detections f0)) as [->| ->];
      discriminate. }
  assert (Forall (presents self (current_state s) (polygon s) S) (f0 :: rest))
    as Hpres.
  { eapply Forall_impl; [|exact Hall]. intros f Hf.
    unfold presents. now rewrite Hunk, Hf. }
  destruct (first_observation self k s S f0 rest Hwf Hget Hne Hpend Hpres)
    as (self' & outs & s' & Hrun & Hget' & Hdeb & Hfin & _).
  rewrite Hunk in Hdeb.
  exists self', outs, s'. auto.
Qed.

(** *** Free-state confidence *)

(** C4, as amended -- a slot in which no detection of the call is
    contained is updated with the state "free" and the confidence
    [1.0 - 0.0 = 1.0], whether the call had no detection at all or had
    detections that were tested against the slot and found outside. *)
Theorem free_confidence_is_one self f k s :
  slots_wf (slots self) ->
  Py.getitem (slots self) k = Ok s ->
  (forall d, In d (fr_detections f) ->
             contains (polygon s) (center d) = false) ->
  exists self' evs r,
    process_detections self (fr_detections f) (fr_timestamp f) (fr_time f)
    = Ok (self', evs)
    /\ _update_slot_state self s "free" 1 (fr_timestamp f) (fr_time f) = Ok r
    /\ Py.getitem (slots self') k = Ok (fst r)
    /\ events_for k evs = opt_list (snd r).
Proof.
  intros Hwf Hget Hout.
  assert (hit (polygon s) (fr_detections f) = false) as Hhit.
  { rewrite hit_exists. apply not_true_is_false. intros H.
    apply existsb_exists in H as (d & Hin & Hc).
    rewrite (Hout d Hin) in Hc. discriminate. }
  assert (step self f s
          = update_pure self s "free" 1 (fr_timestamp f) (fr_time f)) as Hstep.
  { unfold step, new_state_of, conf_of.
    now rewrite Hhit, (raw_confidence_miss _ _ Hhit). }
  destruct (wf_slot _ _ _ Hwf Hget) as [_ Hp].
  eexists _, _, (update_pure self s "free" 1 (fr_timestamp f) (fr_time f)).
  split; [apply process_detections_ok; exact Hwf|].
  split; [now apply update_ok|].
  rewrite <- Hstep. split.
  - exact (getitem_tag (fun s => fst (step self f s)) (slots self) k s Hget).
  - now apply events_for_slot.
Qed.

(** *** The count invariant *)

Definition valid_state (st : string) : Prop :=
  st = "free"%string \/ st = "occupied"%string \/ st = "unknown"%string.

Definition states_valid (sl : Py.dict SlotState) : Prop :=
  Forall (fun kv => valid_state (current_state (snd kv))) sl.

Lemma step_valid self f s :
  valid_state (current_state s) ->
  valid_state (current_state (fst (step self f s))).
Proof.
  intros Hv. unfold step, update_pure, _update_slot_state.
  set (n := new_state_of (polygon s) (fr_detections f)).
  set (q := conf_of (polygon s) (fr_detections f)).
  assert (valid_state (hysteresis self (current_state s) n q)) as Hh.
  { destruct (hysteresis_cases self (current_state s) n q) as [->| ->];
      [|exact Hv].
    unfold n, valid_state.
    destruct (new_state_of_cases (polygon s) (fr_detections f)) as [->| ->];
      auto. }
  destruct (negb _); [|exact Hv].
  destruct (Py.opt_str_ne _ _); [exact Hv|].
  destruct (pending_since s); [|exact Hv].
  destruct (Py.ge _ _); [exact Hh|exact Hv].
Qed.

Lemma count_partition (sl : Py.dict SlotState) :
  states_valid sl ->
  (count_state "free" sl + count_state "occupied" sl
   + count_state "unknown" sl = List.length sl)%nat.
Proof.
  unfold count_state, Py.values.
  induction 1 as [|[k s] sl Hs _ IH]; [reflexivity|].
  simpl in Hs. cbn [map snd filter List.length].
  destruct Hs as [-> | [-> | ->]]; simpl; lia.
Qed.

Lemma run_valid : forall frames self,
  slots_wf (slots self) -> states_valid (slots self) ->
  exists self' outs,
    run self frames = Ok (self', outs) /\ states_valid (slots self').
Proof.
  induction frames as [|f rest IH]; intros self Hwf Hv.
  - exists self, []. now split.
  - cbn [run]. rewrite process_detections_ok by exact Hwf.
    cbn [bind fst snd].
    destruct (IH (set_slots self
                    (tag (fun s => fst (step self f s)) (slots self))))
      as (self' & outs & Hrun & Hv').
    + now apply slots_wf_step.
    + unfold states_valid, tag. simpl. apply Forall_map.
      eapply Forall_impl; [|exact Hv]. intros [k s]. apply step_valid.
    + rewrite Hrun. cbn [bind fst snd]. eauto.
Qed.

Lemma setitem_keys {V : Type} (d : Py.dict V) k v :
  NoDup (Py.keys d) -> NoDup (Py.keys (Py.setitem d k v)).
Proof.
  intros Hnd.
  assert (Py.keys (Py.setitem d k v) = Py.keys d
          \/ (~ In k (Py.keys d)
              /\ Py.keys (Py.setitem d k v) = Py.keys d ++ [k])) as [->|[Hk ->]].
  { clear Hnd. induction d as [|[k' v'] d IH]; simpl.
    - right. tauto.
    - destruct (String.eqb_spec k' k) as [->|Hne]; simpl; [now left|].
      destruct IH as [->|[Hk ->]]; [now left|].
      right. split; [|reflexivity]. intros [?|?]; [congruence|tauto]. }
  - exact Hnd.
  - apply NoDup_app; [exact Hnd | repeat constructor; intros [] | ].
    intros x Hx [<-|[]]. contradiction.
Qed.

Lemma setitem_forall {V : Type} (P : string * V -> Prop) (d : Py.dict V) k v :
  Forall P d -> P (k, v) -> Forall P (Py.setitem d k v).
Proof.
  intros Hd Hkv. induction Hd as [|[k' v'] d Hx Hd IH]; simpl.
  - repeat constructor. exact Hkv.
  - destruct (String.eqb_spec k' k) as [->|_]; constructor; assumption.
Qed.

Lemma load_loop_ok defs sx sy clock : forall n sl,
  slots_wf sl /\ states_valid sl ->
  slots_wf (load_loop defs sx sy clock n sl)
  /\ states_valid (load_loop defs sx sy clock n sl).
Proof.
  induction defs as [|d defs IH]; intros n sl Hsl; simpl; [exact Hsl|].
  destruct (Polygon_new _) as [poly|e]; [|exact Hsl].
  apply IH. destruct Hsl as [[Hnd Hall] Hv].
  split; [split|].
  - now apply setitem_keys.
  - apply setitem_forall; [exact Hall|]. simpl. split; [reflexivity|].
    intros H. now elim H.
  - apply setitem_forall; [exact Hv|]. simpl. unfold valid_state. auto.
Qed.

Lemma init_ok file debounce enter exit resolution clock :
  let self := __init__ file debounce enter exit resolution clock in
  slots_wf (slots self) /\ states_valid (slots self).
Proof.
  assert (slots_wf [] /\ states_valid []) as Hnil.
  { repeat split; constructor. }
  simpl. unfold _load_slots.
  destruct file as [config|]; [|exact Hnil].
  destruct (_ || _); [exact Hnil|].
  now apply load_loop_ok.
Qed.

(** C9 -- count invariant. Whatever the slots file, the settings and the
    sequence of frames, the calls of [process_detections] on a freshly
    built processor return, and the summary taken afterwards satisfies
    [free_count + occupied_count + unknown_count = total_slots]. *)
Theorem count_invariant file debounce enter exit resolution clock frames :
  exists self' outs,
    run (__init__ file debounce enter exit resolution clock) frames
    = Ok (self', outs)
    /\ (free_count (get_summary self') + occupied_count (get_summary self')
        + unknown_count (get_summary self')
        = total_slots (get_summary self'))%nat.
Proof.
  destruct (init_ok file debounce enter exit resolution clock) as [Hwf Hv].
  destruct (run_valid frames _ Hwf Hv) as (self' & outs & Hrun & Hv').
  exists self', outs. split; [exact Hrun|].
  simpl. now apply count_partition.
Qed.

(** *** What the first loop records for a slot *)

Lemma scan_observation (sl : Py.dict SlotState) (dets : list Detection) :
  NoDup (Py.keys sl) ->
  exists slot_occupancy slot_confidence,
    scan_detections sl dets
      (map (fun kv => (fst kv, false)) sl, map (fun kv => (fst kv, 0)) sl)
    = Ok (slot_occupancy, slot_confidence)
    /\ forall k s,
         Py.getitem sl k = Ok s ->
         exists is_occupied raw,
           Py.getitem slot_occupancy k = Ok is_occupied
           /\ Py.getitem slot_confidence k = Ok raw
           /\ (is_occupied = true
               <-> exists d, In d dets
                             /\ contains (polygon s) (center d) = true)
           /\ (forall d, In d dets ->
                         contains (polygon s) (center d) = true ->
                         det_confidence d <= raw)
           /\ ((exists d, In d dets
                          /\ contains (polygon s) (center d) = true
                          /\ 0 <= det_confidence d) ->
               exists d, In d dets
                         /\ contains (polygon s) (center d) = true
                         /\ raw == det_confidence d).
Proof.
  intros Hnd.
  exists (tag (fun s => hit (polygon s) dets) sl),
         (tag (fun s => raw_confidence (polygon s) dets) sl).
  split.
  - exact (scan_detections_spec sl Hnd dets (fun _ => false) (fun _ => 0)).
  - intros k s Hget.
    exists (hit (polygon s) dets), (raw_confidence (polygon s) dets).
    split; [exact (getitem_tag (fun s => hit (polygon s) dets) sl k s Hget)|].
    split; [exact (getitem_tag (fun s => raw_confidence (polygon s) dets)
                     sl k s Hget)|].
    split; [|split].
    + rewrite hit_exists, existsb_exists. reflexivity.
    + intros d Hin Hc. now apply (conf_fold_ge (polygon s) dets 0).
    + intros (d & Hin & Hc & H0).
      unfold raw_confidence.
      destruct (conf_fold_choice (polygon s) dets 0)
        as [Hz|(d' & Hin' & Hc' & Heq)].
      * exists d. repeat split; trivial.
        apply Qle_antisym.
        -- rewrite Hz. exact H0.
        -- now apply (conf_fold_ge (polygon s) dets 0).
      * exists d'. repeat split; trivial. now rewrite Heq.
Qed.

End EngineFacts.

(** * The engine on Shapely polygons *)

Section ShapelyFacts.
Import Occupancy.
Local Existing Instance Shapely.geometry.
Local Unset Implicit Arguments.

(** C3, as amended -- containment. For every slot, the first loop of
    [process_detections] records the slot as occupied exactly when the
    centre of some detection is contained in its polygon, which a point
    of the polygon's boundary is not; and the confidence it records is at
    least that of every contained detection and, when a contained
    detection has a non-negative confidence, is that of one of them. *)
Theorem containment_interior (sl : Py.dict SlotState) (dets : list Detection)
    (Hkeys : NoDup (Py.keys sl)) :
  exists slot_occupancy slot_confidence,
    scan_detections sl dets
      (map (fun kv => (fst kv, false)) sl, map (fun kv => (fst kv, 0)) sl)
    = Ok (slot_occupancy, slot_confidence)
    /\ forall k s,
         Py.getitem sl k = Ok s ->
         exists is_occupied raw,
           Py.getitem slot_occupancy k = Ok is_occupied
           /\ Py.getitem slot_confidence k = Ok raw
           /\ (is_occupied = true
               <-> exists d, In d dets
                             /\ Shapely.polygon_contains (polygon s) (center d)
                                = true)
           /\ (forall p, Shapely.on_boundary (polygon s) p = true ->
                         Shapely.polygon_contains (polygon s) p = false)
           /\ (forall d, In d dets ->
                         Shapely.polygon_contains (polygon s) (center d) = true ->
                         det_confidence d <= raw)
           /\ ((exists d, In d dets
                          /\ Shapely.polygon_contains (polygon s) (center d)
                             = true
                          /\ 0 <= det_confidence d) ->
               exists d, In d dets
                         /\ Shapely.polygon_contains (polygon s) (center d)
                            = true
                         /\ raw == det_confidence d).
Proof.
  destruct (scan_observation sl dets Hkeys) as (occ & conf & Hscan & Hall).
  exists occ, conf. split; [exact Hscan|].
  intros k s Hget.
  destruct (Hall k s Hget) as (b & q & Hb & Hq & Hiff & Hge & Hmax).
  exists b, q. repeat split; try assumption; try apply Hiff.
  intros p Hp. unfold Shapely.polygon_contains. now rewrite Hp.
Qed.

(** The claim as stated: a slot is observed occupied when the centre of
    some detection lies inside its polygon or on its boundary. *)
Definition observed_occupied_stated (poly : list Point)
    (dets : list Detection) : bool :=
  existsb (fun d => Shapely.polygon_covers poly (center d)) dets.

Definition lot : OccupancyProcessor := Lot.processor (1#10) (1#2) (1#2).

(** Slot A of the lot as [_load_slots] builds it. *)
Definition slot_A : SlotState :=
  new_SlotState "A"
    (map (fun p => (fst p * (1920 / 1920), snd p * (1080 / 1080)))
       Lot.square_A) 0 0.

(** C3, as stated, fails: a car centred at (100, 150), on the left edge
    of slot A, counts for the claim but the loop records the slot as not
    occupied. *)
Lemma boundary_center_not_observed :
  let d := Lot.car 100 150 (9#10) in
  Shapely.on_boundary (polygon slot_A) (center d) = true
  /\ observed_occupied_stated (polygon slot_A) [d] = true
  /\ Py.getitem (slots lot) "A" = Ok slot_A
  /\ (obs <- scan_detections (slots lot) [d]
               (map (fun kv => (fst kv, false)) (slots lot),
                map (fun kv => (fst kv, 0)) (slots lot)) ;;
      Py.getitem (fst obs) "A") = Ok false.
Proof. vm_compute. repeat split. Qed.

Lemma containment_interior_witness :
  NoDup (Py.keys (slots lot))
  /\ exists slot_occupancy slot_confidence,
       scan_detections (slots lot) [Lot.car 150 150 (9#10)]
         (map (fun kv => (fst kv, false)) (slots lot),
          map (fun kv => (fst kv, 0)) (slots lot))
       = Ok (slot_occupancy, slot_confidence).
Proof.
  assert (NoDup (Py.keys (slots lot))) as Hkeys.
  { vm_compute. repeat constructor; simpl; intuition discriminate. }
  split; [exact Hkeys|].
  destruct (containment_interior (slots lot) [Lot.car 150 150 (9#10)] Hkeys)
    as (occ & conf & Hscan & _).
  exists occ, conf. exact Hscan.
Defined.

(** C4, as stated, fails: a car centred at (500, 500) with confidence
    0.9 is tested against slot A and found outside; the slot is updated
    as free with confidence 1.0, not 1 - 0.9. *)
Lemma near_miss_confidence_is_one :
  let d := Lot.car 500 500 (9#10) in
  contains (polygon slot_A) (center d) = false
  /\ (r <- process_detections lot [d] Sample.noon 0 ;;
      s <- Py.getitem (slots (fst r)) "A" ;;
      Ok (pending_state s, confidence s)) = Ok (Some "free"%string, 1)
  /\ ~ 1 == 1 - det_confidence d.
Proof.
  vm_compute. repeat split. discriminate.
Qed.

(** *** Runs on the two-slot lot *)

Definition parked : list Detection := [Lot.car 150 150 (9#10)].

(** Calls at 0 s, 0.05 s, 0.2 s and 0.3 s, the same car in slot A. *)
Definition arrival : list Frame :=
  [Lot.frame parked (1#20); Lot.frame parked (1#5); Lot.frame parked (3#10)].

(** The end-to-end scenario of the specification: debounce 0.1 s, both
    thresholds 0.5, one car of confidence 0.9 centred in slot A. The call
    at [t0] returns nothing; the call 0.2 s later returns the event of
    slot A, unknown to occupied at 0.9, and, slot B having been observed
    free since [t0], the event of slot B, unknown to free at 1.0. *)
Example end_to_end :
  (r <- run lot [Lot.frame parked 0; Lot.frame parked (1#5)] ;;
   Ok (map (map (fun e => (ev_slot_id e, ev_previous_state e, ev_state e,
                           ev_confidence e, ev_roi_version e)))
         (snd r)))
  = Ok [ [];
         [ ("A", "unknown", "occupied", 9#10, "v1");
           ("B", "unknown", "free", 1, "v1") ] ]%string.
Proof. vm_compute. reflexivity. Qed.

Lemma lot_wf : slots_wf (slots lot).
Proof. apply (init_ok (Some Lot.config) (1#10) (1#2) (1#2) (1920, 1080)). Qed.

Lemma debounce_single_event_witness :
  slots_wf (slots lot)
  /\ Py.getitem (slots lot) "A" = Ok slot_A
  /\ "occupied"%string <> current_state slot_A
  /\ pending_state slot_A <> Some "occupied"%string
  /\ Forall (presents lot (current_state slot_A) (polygon slot_A) "occupied")
       (Lot.frame parked 0 :: arrival)
  /\ exists self' outs,
       run lot (Lot.frame parked 0 :: arrival) = Ok (self', outs)
       /\ debounced (debounce_seconds lot) 0 "A" (current_state slot_A)
            "occupied" (polygon slot_A) (Lot.frame parked 0 :: arrival) outs.
Proof.
  assert (Py.getitem (slots lot) "A" = Ok slot_A) as Hget
    by (vm_compute; reflexivity).
  assert ("occupied"%string <> current_state slot_A) as Hne
    by (simpl; discriminate).
  assert (pending_state slot_A <> Some "occupied"%string) as Hpend
    by (simpl; discriminate).
  assert (Forall (presents lot (current_state slot_A) (polygon slot_A)
                    "occupied") (Lot.frame parked 0 :: arrival)) as Hall
    by (repeat constructor; vm_compute; reflexivity).
  repeat (split; [assumption || exact lot_wf|]).
  destruct (debounce_single_event lot "A" slot_A "occupied" (Lot.frame parked 0)
              arrival lot_wf Hget Hne Hpend Hall)
    as (self' & outs & Hrun & Hdeb & _).
  exists self', outs. now split.
Defined.

Lemma unknown_bypass_witness :
  slots_wf (slots lot)
  /\ Py.getitem (slots lot) "A" = Ok slot_A
  /\ current_state slot_A = "unknown"%string
  /\ pending_state slot_A <> Some "occupied"%string
  /\ Forall (fun f => new_state_of (polygon slot_A) (fr_detections f)
                      = "occupied"%string) (Lot.frame parked 0 :: arrival)
  /\ forall observed conf, hysteresis lot "unknown" observed conf = observed.
Proof.
  assert (Py.getitem (slots lot) "A" = Ok slot_A) as Hget
    by (vm_compute; reflexivity).
  assert (current_state slot_A = "unknown"%string) as Hunk by reflexivity.
  assert (pending_state slot_A <> Some "occupied"%string) as Hpend
    by (simpl; discriminate).
  assert (Forall (fun f => new_state_of (polygon slot_A) (fr_detections f)
                           = "occupied"%string)
            (Lot.frame parked 0 :: arrival)) as Hall
    by (repeat constructor; vm_compute; reflexivity).
  repeat (split; [assumption || exact lot_wf|]).
  exact (proj1 (unknown_bypass lot "A" slot_A "occupied" (Lot.frame parked 0)
                  arrival lot_wf Hget Hunk Hpend Hall)).
Defined.

(** Slot A alone, free, with the default thresholds; a car of confidence
    0.5 stays in it. *)
Definition free_A : SlotState :=
  {| slot_id := "A"; polygon := Lot.square_A; current_state := "free";
     confidence := 1; last_change := 0; pending_state := None;
     pending_since := None; dwell_start := 0 |}.

Definition free_lot : OccupancyProcessor :=
  set_slots (Lot.processor 3 (6#10) (4#10)) [("A"%string, free_A)].

Definition weak : list Detection := [Lot.car 150 150 (5#10)].

Definition lingering : list Frame :=
  [Lot.frame weak 0; Lot.frame weak 10; Lot.frame weak 100].

Lemma hysteresis_keeps_free_witness :
  slots_wf (slots free_lot)
  /\ Py.getitem (slots free_lot) "A" = Ok free_A
  /\ current_state free_A = "free"%string
  /\ Forall (fun f =>
               forall d, In d (fr_detections f) ->
                         contains (polygon free_A) (center d) = true ->
                         0 <= det_confidence d
                         /\ det_confidence d < enter_threshold free_lot)
       lingering
  /\ exists self' outs s',
       run free_lot lingering = Ok (self', outs)
       /\ Py.getitem (slots self') "A" = Ok s'
       /\ current_state s' = "free"%string
       /\ Forall (fun evs => events_for "A" evs = []) outs.
Proof.
  assert (slots_wf (slots free_lot)) as Hwf.
  { split.
    - repeat constructor. simpl. tauto.
    - repeat constructor. simpl. intros H. now elim H. }
  assert (Py.getitem (slots free_lot) "A" = Ok free_A) as Hget by reflexivity.
  assert (current_state free_A = "free"%string) as Hfree by reflexivity.
  assert (Forall (fun f =>
                    forall d, In d (fr_detections f) ->
                              contains (polygon free_A) (center d) = true ->
                              0 <= det_confidence d
                              /\ det_confidence d < enter_threshold free_lot)
            lingering) as Hall.
  { repeat constructor; destruct H as [<-|[]]; vm_compute;
      (discriminate || reflexivity). }
  repeat (split; [assumption|]).
  destruct (hysteresis_keeps_free free_lot "A" free_A lingering
              Hwf Hget Hfree Hall)
    as (self' & outs & s' & Hrun & Hget' & Hcur & Hnone & _).
  exists self', outs, s'. auto.
Defined.

Lemma free_confidence_is_one_witness :
  slots_wf (slots lot)
  /\ Py.getitem (slots lot) "A" = Ok slot_A
  /\ (forall d, In d [Lot.car 500 500 (9#10)] ->
                contains (polygon slot_A) (center d) = false)
  /\ exists r,
       _update_slot_state lot slot_A "free" 1 Sample.noon 0 = Ok r.
Proof.
  assert (Py.getitem (slots lot) "A" = Ok slot_A) as Hget
    by (vm_compute; reflexivity).
  assert (forall d, In d [Lot.car 500 500 (9#10)] ->
                    contains (polygon slot_A) (center d) = false) as Hout.
  { intros d [<-|[]]. vm_compute. reflexivity. }
  repeat (split; [assumption || exact lot_wf|]).
  destruct (free_confidence_is_one lot
              (Lot.frame [Lot.car 500 500 (9#10)] 0) "A" slot_A
              lot_wf Hget Hout)
    as (self' & evs & r & _ & Hr & _).
  exists r. exact Hr.
Defined.

End ShapelyFacts.


(** * Further properties of the occupancy engine *)

Section EngineExtras.
Import Occupancy.
Context `{G : Geometry}.
Local Unset Implicit Arguments.

(** The settings of a processor, which no call changes. *)
Definition settings (self : OccupancyProcessor)
  : Q * Q * Q * (Q * Q) * string :=
  (debounce_seconds self, enter_threshold self, exit_threshold self,
   capture_resolution self, _roi_version self).

Lemma step_settings self self' f s :
  settings self' = settings self -> step self' f s = step self f s.
Proof.
  unfold settings. intros H. inversion H as [[Hd He Hx Hc Hr]].
  unfold step, update_pure, _update_slot_state, hysteresis.
  now rewrite Hd, He, Hx, Hr.
Qed.

(** A sequence of calls seen slot by slot: an invariant [I] of the slots
    that every call keeps on frames satisfying [F], and a property [E] of
    the events such calls return. *)
Lemma run_general (F : Frame -> Prop) (I : SlotState -> Prop)
    (E : Event -> Prop) (self0 : OccupancyProcessor) :
  (forall f s, F f -> I s ->
               I (fst (step self0 f s))
               /\ forall e, snd (step self0 f s) = Some e -> E e) ->
  forall frames self,
    settings self = settings self0 ->
    slots_wf (slots self) ->
    Forall (fun kv => I (snd kv)) (slots self) ->
    Forall F frames ->
    exists self' outs,
      run self frames = Ok (self', outs)
      /\ settings self' = settings self0
      /\ slots_wf (slots self')
      /\ Py.keys (slots self') = Py.keys (slots self)
      /\ Forall (fun kv => I (snd kv)) (slots self')
      /\ Forall (Forall E) outs
      /\ List.length outs = List.length frames.
Proof.
  intros Hstep. induction frames as [|f rest IH];
    intros self Hset Hwf HI HF.
  - exists self, []. simpl.
    repeat split; try assumption; try apply Hwf; constructor.
  - inversion HF as [|? ? Hf Hrest]; subst.
    cbn [run]. rewrite process_detections_ok by exact Hwf.
    cbn [bind fst snd].
    set (self1 := set_slots self
                    (tag (fun s => fst (step self f s)) (slots self))).
    assert (forall s, step self f s = step self0 f s) as Hsame
      by (intros s; now apply step_settings).
    destruct (IH self1) as (self' & outs & Hrun & Hset' & Hwf' & Hkeys & HI'
                            & HE & Hlen).
    + exact Hset.
    + now apply slots_wf_step.
    + unfold self1, tag. simpl. apply Forall_map.
      eapply Forall_impl; [|exact HI]. intros [k s] Hs. simpl in *.
      rewrite Hsame. now apply Hstep.
    + exact Hrest.
    + rewrite Hrun. cbn [bind fst snd].
      exists self', (events_of self f (slots self) :: outs).
      split; [reflexivity|]. split; [exact Hset'|]. split; [exact Hwf'|].
      split; [|split; [exact HI'|split]].
      * rewrite Hkeys. unfold self1. simpl. apply keys_tag.
      * constructor; [|exact HE].
        apply Forall_forall. intros e He.
        unfold events_of in He. apply in_flat_map in He as ([k s] & Hin & He).
        rewrite Forall_forall in HI. specialize (HI (k, s) Hin).
        simpl in He, HI. rewrite Hsame in He.
        destruct (snd (step self0 f s)) as [e'|] eqn:Es; [|contradiction].
        destruct He as [<-|[]]. now apply (Hstep f s Hf HI).
      * simpl. now rewrite Hlen.
Qed.

Lemma step_event_roi self f s e :
  snd (step self f s) = Some e -> ev_roi_version e = _roi_version self.
Proof.
  unfold step, update_pure, _update_slot_state.
  destruct (negb _); [|discriminate].
  destruct (Py.opt_str_ne _ _); [discriminate|].
  destruct (pending_since s); [|discriminate].
  destruct (Py.ge _ _); [|discriminate].
  simpl. intros H. inversion H. reflexivity.
Qed.

(** X1 -- the version tag of the events. Whatever [roi_version] the slots
    file declares, a processor built by [__init__] reports "v1" from
    [get_roi_version], and every event of every call carries "v1". *)
Theorem roi_version_is_v1 file debounce enter exit resolution clock frames :
  get_roi_version (__init__ file debounce enter exit resolution clock)
  = "v1"%string
  /\ exists self' outs,
       run (__init__ file debounce enter exit resolution clock) frames
       = Ok (self', outs)
       /\ get_roi_version self' = "v1"%string
       /\ forall evs e, In evs outs -> In e evs ->
                        ev_roi_version e = "v1"%string.
Proof.
  split; [reflexivity|].
  set (self0 := __init__ file debounce enter exit resolution clock).
  destruct (init_ok file debounce enter exit resolution clock) as [Hwf _].
  destruct (run_general (fun _ => True) (fun _ => True)
              (fun e => ev_roi_version e = "v1"%string) self0) with
    (frames := frames) (self := self0)
    as (self' & outs & Hrun & Hset & _ & _ & _ & HE & _).
  - intros f s _ _. split; [exact I|]. intros e He.
    now apply step_event_roi in He.
  - reflexivity.
  - exact Hwf.
  - apply Forall_forall. intros; exact I.
  - apply Forall_forall. intros; exact I.
  - exists self', outs. split; [exact Hrun|]. split.
    + apply (f_equal snd) in Hset. exact Hset.
    + intros evs e Hevs He. rewrite Forall_forall in HE.
      specialize (HE evs Hevs). rewrite Forall_forall in HE. now apply HE.
Qed.

(** *** What a call does to one slot *)

Lemma step_change self f s :
  (snd (step self f s) = None ->
   current_state (fst (step self f s)) = current_state s)
  /\ (forall e, snd (step self f s) = Some e ->
        current_state (fst (step self f s)) = ev_state e
        /\ ev_previous_state e = current_state s
        /\ ev_state e <> current_state s
        /\ (ev_state e = "occupied"%string \/ ev_state e = "free"%string)
        /\ pending_state (fst (step self f s)) = None
        /\ pending_since (fst (step self f s)) = None
        /\ last_change (fst (step self f s)) = fr_time f
        /\ dwell_start (fst (step self f s)) = fr_time f
        /\ ev_dwell_s e = Py.int (fr_time f - dwell_start s)
        /\ ev_ts_utc e = isoformat (fr_timestamp f)
        /\ ev_confidence e = conf_of (polygon s) (fr_detections f)).
Proof.
  unfold step, update_pure, _update_slot_state.
  set (n := new_state_of (polygon s) (fr_detections f)).
  set (q := conf_of (polygon s) (fr_detections f)).
  destruct (String.eqb_spec (hysteresis self (current_state s) n q)
              (current_state s)) as [Heq|Hne]; cbn [negb].
  - split; [reflexivity|discriminate].
  - destruct (Py.opt_str_ne _ _); [split; [reflexivity|discriminate]|].
    destruct (pending_since s); [|split; [reflexivity|discriminate]].
    destruct (Py.ge _ _); [|split; [reflexivity|discriminate]].
    split; [discriminate|]. cbn [fst snd]. intros e He.
    inversion He; subst e. cbn. repeat split; try assumption.
    destruct (hysteresis_cases self (current_state s) n q) as [->|Hc];
      [|contradiction].
    unfold n. apply new_state_of_cases.
Qed.

Lemma in_getitem {V : Type} (d : Py.dict V) k v :
  NoDup (Py.keys d) -> In (k, v) d -> Py.getitem d k = Ok v.
Proof.
  intros Hnd Hin. apply in_split in Hin as (pre & suf & ->).
  rewrite keys_app in Hnd. simpl in Hnd.
  apply getitem_mid. now apply nodup_mid in Hnd.
Qed.

Lemma getitem_is_in {V : Type} (d : Py.dict V) k v :
  Py.getitem d k = Ok v -> In (k, v) d.
Proof.
  intros H. destruct (getitem_in _ _ _ H) as (pre & suf & -> & _).
  apply in_or_app. right. now left.
Qed.

(** X2 -- events are the state changes. In one call on a well-formed slot
    map, a slot either gets no event and keeps its state, or gets exactly
    one event, whose [previous_state] is the state before the call and
    whose [state] is the different state the slot has after it; the change
    and the start of the dwell are then dated at the call's clock reading,
    and [dwell_s] is the whole number of seconds since the earlier dwell
    start. *)
Theorem events_are_the_state_changes self f k s :
  slots_wf (slots self) ->
  Py.getitem (slots self) k = Ok s ->
  exists self' evs s',
    process_detections self (fr_detections f) (fr_timestamp f) (fr_time f)
    = Ok (self', evs)
    /\ Py.getitem (slots self') k = Ok s'
    /\ ((events_for k evs = [] /\ current_state s' = current_state s)
        \/ (exists e,
              events_for k evs = [e]
              /\ ev_slot_id e = k
              /\ ev_previous_state e = current_state s
              /\ ev_state e = current_state s'
              /\ current_state s' <> current_state s
              /\ last_change s' = fr_time f
              /\ dwell_start s' = fr_time f
              /\ ev_dwell_s e = Py.int (fr_time f - dwell_start s))).
Proof.
  intros Hwf Hget.
  exists (set_slots self (tag (fun s => fst (step self f s)) (slots self))),
         (events_of self f (slots self)), (fst (step self f s)).
  split; [now apply process_detections_ok|].
  split; [exact (getitem_tag (fun s => fst (step self f s)) (slots self) k s
                   Hget)|].
  rewrite (events_for_slot self f (slots self) k s Hwf Hget).
  destruct (wf_slot _ _ _ Hwf Hget) as [Hid _].
  destruct (step_change self f s) as [Hnone Hsome].
  destruct (snd (step self f s)) as [e|] eqn:Es.
  - right. exists e.
    destruct (Hsome e eq_refl)
      as (Hcur & Hprev & Hne & _ & _ & _ & Hlc & Hds & Hdw & _).
    apply step_event_id in Es.
    repeat split; try congruence.
  - left. split; [reflexivity|]. now apply Hnone.
Qed.

(** X3 -- events come in slot order. The events of one call list slots in
    the order of the slot map, each slot at most once: their slot ids are
    the keys of the map with some of them left out. *)
Theorem events_in_slot_order self f :
  slots_wf (slots self) ->
  exists self' evs,
    process_detections self (fr_detections f) (fr_timestamp f) (fr_time f)
    = Ok (self', evs)
    /\ (exists changed : string -> bool,
          map ev_slot_id evs = filter changed (Py.keys (slots self)))
    /\ NoDup (map ev_slot_id evs)
    /\ (List.length evs <= List.length (slots self))%nat.
Proof.
  intros Hwf.
  exists (set_slots self (tag (fun s => fst (step self f s)) (slots self))),
         (events_of self f (slots self)).
  split; [now apply process_detections_ok|].
  set (changed := fun k =>
         match Py.getitem (slots self) k with
         | Ok s => match snd (step self f s) with
                   | Some _ => true
                   | None => false
                   end
         | Raise _ => false
         end).
  assert (forall l,
            (forall k s, In (k, s) l ->
                         Py.getitem (slots self) k = Ok s /\ slot_id s = k) ->
            map ev_slot_id (events_of self f l) = filter changed (Py.keys l))
    as Hsub.
  { induction l as [|[k s] l IH]; intros Hl; [reflexivity|].
    rewrite events_of_cons, map_app, IH
      by (intros k' s' H; apply Hl; now right).
    destruct (Hl k s (or_introl eq_refl)) as [Hget Hid].
    simpl. unfold changed at 2. rewrite Hget.
    destruct (snd (step self f s)) as [e|] eqn:Es; [|reflexivity].
    apply step_event_id in Es. simpl. congruence. }
  assert (map ev_slot_id (events_of self f (slots self))
          = filter changed (Py.keys (slots self))) as Hids.
  { apply Hsub. intros k s Hin. destruct Hwf as [Hnd Hall].
    split; [now apply in_getitem|].
    rewrite Forall_forall in Hall. now apply (Hall (k, s)). }
  split; [now exists changed|]. split.
  - rewrite Hids. apply NoDup_filter. apply Hwf.
  - apply (f_equal (@List.length string)) in Hids.
    rewrite length_map in Hids. rewrite Hids.
    etransitivity; [apply filter_length_le|].
    unfold Py.keys. now rewrite length_map.
Qed.

Lemma slot_trace_frame self frames : forall s,
  slot_id (fst (slot_trace self frames s)) = slot_id s
  /\ polygon (fst (slot_trace self frames s)) = polygon s.
Proof.
  induction frames as [|f rest IH]; intros s; simpl; [now split|].
  destruct (IH (fst (step self f s))) as [H1 H2].
  destruct (step_frame self f s) as [H3 H4]. split; congruence.
Qed.

(** X4 -- the geometry is fixed. A sequence of calls on a well-formed slot
    map returns and changes neither the settings of the processor, nor the
    keys of the slot map and their order, nor the id and the polygon of
    any slot. *)
Theorem geometry_is_fixed self frames :
  slots_wf (slots self) ->
  exists self' outs,
    run self frames = Ok (self', outs)
    /\ settings self' = settings self
    /\ Py.keys (slots self') = Py.keys (slots self)
    /\ List.length outs = List.length frames
    /\ forall k s, Py.getitem (slots self) k = Ok s ->
                   exists s', Py.getitem (slots self') k = Ok s'
                              /\ slot_id s' = slot_id s
                              /\ polygon s' = polygon s.
Proof.
  intros Hwf.
  destruct (run_general (fun _ => True) (fun _ => True) (fun _ => True) self)
    with (frames := frames) (self := self)
    as (self' & outs & Hrun & Hset & _ & Hkeys & _ & _ & Hlen);
    try (apply Forall_forall; intros; exact I); trivial.
  { intros. split; trivial. }
  exists self', outs. repeat split; try assumption.
  intros k s Hget.
  destruct (run_slot frames self k s Hwf Hget)
    as (self2 & outs2 & Hrun2 & Hget2 & _).
  rewrite Hrun in Hrun2. inversion Hrun2; subst self2 outs2.
  exists (fst (slot_trace self frames s)).
  split; [exact Hget2|]. apply slot_trace_frame.
Qed.

Lemma slot_trace_known self frames : forall s,
  current_state s <> "unknown"%string ->
  current_state (fst (slot_trace self frames s)) <> "unknown"%string.
Proof.
  induction frames as [|f rest IH]; intros s Hs; simpl; [exact Hs|].
  apply IH. destruct (step_change self f s) as [Hnone Hsome].
  destruct (snd (step self f s)) as [e|].
  - destruct (Hsome e eq_refl) as (-> & _ & _ & [-> | ->] & _); discriminate.
  - now rewrite Hnone.
Qed.

(** X5 -- no way back to "unknown". On a well-formed slot map, the state
    of every event any call returns is "occupied" or "free", and a slot
    that has left "unknown" is never in that state again. *)
Theorem unknown_is_only_initial self frames k s :
  slots_wf (slots self) ->
  Py.getitem (slots self) k = Ok s ->
  exists self' outs s',
    run self frames = Ok (self', outs)
    /\ Py.getitem (slots self') k = Ok s'
    /\ (current_state s <> "unknown"%string ->
        current_state s' <> "unknown"%string)
    /\ forall evs e, In evs outs -> In e evs ->
                     (ev_state e = "occupied"%string
                      \/ ev_state e = "free"%string)
                     /\ ev_state e <> ev_previous_state e.
Proof.
  intros Hwf Hget.
  destruct (run_general (fun _ => True) (fun _ => True)
              (fun e => (ev_state e = "occupied"%string
                         \/ ev_state e = "free"%string)
                        /\ ev_state e <> ev_previous_state e) self)
    with (frames := frames) (self := self)
    as (self' & outs & Hrun & _ & _ & _ & _ & HE & _);
    try (apply Forall_forall; intros; exact I); trivial.
  { intros f s0 _ _. split; [exact I|]. intros e He.
    destruct (step_change self f s0) as [_ Hsome].
    destruct (Hsome e He) as (_ & Hprev & Hne & Hcases & _).
    split; [exact Hcases | congruence]. }
  destruct (run_slot frames self k s Hwf Hget)
    as (self2 & outs2 & Hrun2 & Hget2 & _).
  rewrite Hrun in Hrun2. inversion Hrun2; subst self2 outs2.
  exists self', outs, (fst (slot_trace self frames s)).
  split; [exact Hrun|]. split; [exact Hget2|]. split.
  - apply slot_trace_known.
  - intros evs e Hevs He. rewrite Forall_forall in HE.
    specialize (HE evs Hevs). rewrite Forall_forall in HE. now apply HE.
Qed.

(** *** Confidence values *)

Definition unit_interval (q : Q) : Prop := 0 <= q /\ q <= 1.

Lemma conf_of_range poly dets :
  (forall d, In d dets -> unit_interval (det_confidence d)) ->
  unit_interval (conf_of poly dets).
Proof.
  intros Hall. unfold conf_of.
  destruct (hit poly dets) eqn:Hhit.
  - unfold raw_confidence.
    destruct (conf_fold_choice poly dets 0) as [->|(d & Hin & _ & ->)].
    + split; [apply Qle_refl | discriminate].
    + now apply Hall.
  - rewrite (raw_confidence_miss _ _ Hhit). split; discriminate.
Qed.

Lemma step_confidence self f s :
  confidence (fst (step self f s)) = confidence s
  \/ confidence (fst (step self f s)) = conf_of (polygon s) (fr_detections f).
Proof.
  unfold step, update_pure, _update_slot_state.
  destruct (negb _); [|now right].
  destruct (Py.opt_str_ne _ _); [now right|].
  destruct (pending_since s); [|now left].
  destruct (Py.ge _ _); now left.
Qed.

Lemma load_loop_forall (P : string * SlotState -> Prop) defs sx sy clock :
  (forall sid poly t1 t2, P (sid, new_SlotState sid poly t1 t2)) ->
  forall n sl, Forall P sl -> Forall P (load_loop defs sx sy clock n sl).
Proof.
  intros Hfresh. induction defs as [|d defs IH]; intros n sl Hsl; simpl;
    [exact Hsl|].
  destruct (Polygon_new _) as [poly|e]; [|exact Hsl].
  apply IH. apply setitem_forall; [exact Hsl|apply Hfresh].
Qed.

Lemma init_forall (P : string * SlotState -> Prop)
    file debounce enter exit resolution clock :
  (forall sid poly t1 t2, P (sid, new_SlotState sid poly t1 t2)) ->
  Forall P (slots (__init__ file debounce enter exit resolution clock)).
Proof.
  intros Hfresh. simpl. unfold _load_slots.
  destruct file as [config|]; [|constructor].
  destruct (_ || _); [constructor|].
  apply load_loop_forall; [exact Hfresh|constructor].
Qed.

(** X6 -- confidences stay in range. When the confidence of every
    detection of every frame lies in [0, 1], the calls on a freshly built
    processor return, and the confidence of every event and the
    confidence stored in every slot lie in [0, 1] as well. *)
Theorem confidence_stays_in_range file debounce enter exit resolution clock
    frames :
  Forall (fun f => forall d, In d (fr_detections f) ->
                             unit_interval (det_confidence d)) frames ->
  exists self' outs,
    run (__init__ file debounce enter exit resolution clock) frames
    = Ok (self', outs)
    /\ (forall k s, Py.getitem (slots self') k = Ok s ->
                    unit_interval (confidence s))
    /\ (forall evs e, In evs outs -> In e evs ->
                      unit_interval (ev_confidence e)).
Proof.
  intros HF.
  set (self0 := __init__ file debounce enter exit resolution clock).
  destruct (init_ok file debounce enter exit resolution clock) as [Hwf _].
  destruct (run_general
              (fun f => forall d, In d (fr_detections f) ->
                                  unit_interval (det_confidence d))
              (fun s => unit_interval (confidence s))
              (fun e => unit_interval (ev_confidence e)) self0)
    with (frames := frames) (self := self0)
    as (self' & outs & Hrun & _ & _ & _ & HI & HE & _); trivial.
  - intros f s Hf Hs. split.
    + destruct (step_confidence self0 f s) as [-> | ->];
        [exact Hs | now apply conf_of_range].
    + intros e He. destruct (step_change self0 f s) as [_ Hsome].
      destruct (Hsome e He) as (_ & _ & _ & _ & _ & _ & _ & _ & _ & _ & ->).
      now apply conf_of_range.
  - apply (init_forall (fun kv => unit_interval (confidence (snd kv)))).
    intros. simpl. split; [apply Qle_refl|discriminate].
  - exists self', outs. split; [exact Hrun|]. split.
    + intros k s Hget. apply getitem_is_in in Hget.
      rewrite Forall_forall in HI. now apply (HI (k, s)).
    + intros evs e Hevs He. rewrite Forall_forall in HE.
      specialize (HE evs Hevs). rewrite Forall_forall in HE. now apply HE.
Qed.

(** *** Leaving a slot *)

Definition empty_of (poly : Polygon) (f : Frame) : Prop :=
  forall d, In d (fr_detections f) -> contains poly (center d) = false.

Lemma empty_observation poly f :
  empty_of poly f ->
  new_state_of poly (fr_detections f) = "free"%string
  /\ conf_of poly (fr_detections f) = 1.
Proof.
  intros Hout.
  assert (hit poly (fr_detections f) = false) as Hhit.
  { rewrite hit_exists. apply not_true_is_false. intros H.
    apply existsb_exists in H as (d & Hin & Hc).
    rewrite (Hout d Hin) in Hc. discriminate. }
  unfold new_state_of, conf_of.
  now rewrite Hhit, (raw_confidence_miss _ _ Hhit).
Qed.

Lemma empty_trace_confidence self frames : forall s e,
  Forall (empty_of (polygon s)) frames ->
  In (Some e) (snd (slot_trace self frames s)) ->
  ev_confidence e = 1.
Proof.
  induction frames as [|f rest IH]; intros s e Hall Hin; [contradiction|].
  inversion Hall as [|? ? Hf Hrest]; subst.
  cbn [slot_trace snd] in Hin. destruct Hin as [He|Hin].
  - destruct (step_change self f s) as [_ Hsome].
    destruct (Hsome e He) as (_ & _ & _ & _ & _ & _ & _ & _ & _ & _ & ->).
    now destruct (empty_observation _ _ Hf).
  - apply (IH (fst (step self f s))); [|exact Hin].
    destruct (step_frame self f s) as [_ ->]. exact Hrest.
Qed.

(** X7 -- a departure is confirmed whenever [exit_threshold] is at most 1.
    An occupied slot in which no detection is contained is observed free
    with confidence 1.0, so with [exit_threshold <= 1] the gate lets the
    observation through: the calls are debounced, the one event goes from
    "occupied" to "free" with confidence 1.0, and the slot is free once a
    later call is made after [debounce_seconds]. *)
Theorem departure_is_confirmed self k s f0 rest :
  slots_wf (slots self) ->
  Py.getitem (slots self) k = Ok s ->
  current_state s = "occupied"%string ->
  pending_state s <> Some "free"%string ->
  exit_threshold self <= 1 ->
  Forall (empty_of (polygon s)) (f0 :: rest) ->
  exists self' outs s',
    run self (f0 :: rest) = Ok (self', outs)
    /\ Py.getitem (slots self') k = Ok s'
    /\ debounced (debounce_seconds self) (fr_time f0) k "occupied" "free"
         (polygon s) (f0 :: rest) outs
    /\ (forall evs e, In evs outs -> In e (events_for k evs) ->
                      ev_confidence e = 1)
    /\ (Exists (fun f => debounce_seconds self <= elapsed (fr_time f0) f) rest
        -> current_state s' = "free"%string).
Proof.
  intros Hwf Hget Hocc Hpend Hexit Hall.
  assert (Forall (presents self (current_state s) (polygon s) "free")
            (f0 :: rest)) as Hpres.
  { eapply Forall_impl; [|exact Hall]. intros f Hf.
    destruct (empty_observation _ _ Hf) as [Hn Hq].
    unfold presents, hysteresis. rewrite Hocc, Hn, Hq. simpl.
    unfold Py.lt. change (Qle_bool (exit_threshold self) 1)
      with (Py.ge 1 (exit_threshold self)).
    now rewrite (ge_true _ _ Hexit). }
  assert ("free"%string <> current_state s) as Hne
    by (rewrite Hocc; discriminate).
  destruct (first_observation self k s "free" f0 rest Hwf Hget Hne Hpend Hpres)
    as (self' & outs & s' & Hrun & Hget' & Hdeb & Hfin & _).
  rewrite Hocc in Hdeb.
  exists self', outs, s'. repeat split; try assumption; try apply Hdeb.
  intros evs e Hevs He.
  apply In_nth_error in Hevs as (i & Hi).
  destruct (run_slot (f0 :: rest) self k s Hwf Hget)
    as (self2 & outs2 & Hrun2 & _ & Hev & _).
  rewrite Hrun in Hrun2. inversion Hrun2; subst self2 outs2.
  destruct (lift_nth k outs _ i evs Hev Hi) as (o & Ho & Heq).
  rewrite Heq in He. destruct o as [e'|]; [|contradiction].
  destruct He as [<-|[]].
  apply nth_error_In in Ho.
  exact (empty_trace_confidence self (f0 :: rest) s e' Hall Ho).
Qed.

(** X8 -- no departure when [exit_threshold] exceeds 1. The confidence of
    a free observation is always 1.0, so with [exit_threshold > 1] the
    gate turns every free observation of an occupied slot back: whatever
    the frames, the calls return, the slot stays occupied and no event is
    returned for it. *)
Theorem no_departure_above_one self k s frames :
  slots_wf (slots self) ->
  Py.getitem (slots self) k = Ok s ->
  current_state s = "occupied"%string ->
  1 < exit_threshold self ->
  exists self' outs s',
    run self frames = Ok (self', outs)
    /\ Py.getitem (slots self') k = Ok s'
    /\ current_state s' = "occupied"%string
    /\ Forall (fun evs => events_for k evs = []) outs.
Proof.
  intros Hwf Hget Hocc Hexit.
  destruct (run_slot frames self k s Hwf Hget)
    as (self' & outs & Hrun & Hget' & Hev & _ & _).
  assert (Forall (presents self "occupied" (polygon s) "occupied") frames)
    as Hpres.
  { apply Forall_forall. intros f _. unfold presents, new_state_of, conf_of.
    destruct (hit (polygon s) (fr_detections f)) eqn:Hhit;
      [apply hysteresis_same|].
    rewrite (raw_confidence_miss _ _ Hhit). unfold hysteresis. simpl.
    change (1 - 0) with 1. now rewrite (lt_true _ _ Hexit). }
  destruct (stays_trace self (polygon s) "occupied" frames s eq_refl Hocc Hpres)
    as (Hcur & Hsil & _).
  exists self', outs, (fst (slot_trace self frames s)).
  repeat split; try assumption.
  apply Forall_forall. intros evs Hin.
  apply In_nth_error in Hin as (i & Hi).
  destruct (lift_nth k outs _ i evs Hev Hi) as (o & Ho & ->).
  apply nth_error_In in Ho. unfold silent in Hsil.
  rewrite Forall_forall in Hsil. now rewrite (Hsil o Ho).
Qed.

(** *** An interrupted window *)

Lemma step_same_pending self f s :
  presents self (current_state s) (polygon s) (current_state s) f ->
  pending_state (fst (step self f s)) = None.
Proof.
  unfold presents, step, update_pure, _update_slot_state. intros ->.
  now rewrite String.eqb_refl.
Qed.

(** X9 -- the debounce window restarts. A call that presents a slot the
    state it is in clears the pending window, whatever was pending and for
    how long: when the following calls present another state [S], they are
    debounced from the first of them on, and the time before the
    interruption does not count. *)
Theorem interrupted_window_restarts self k s S g f0 rest :
  slots_wf (slots self) ->
  Py.getitem (slots self) k = Ok s ->
  S <> current_state s ->
  presents self (current_state s) (polygon s) (current_state s) g ->
  Forall (presents self (current_state s) (polygon s) S) (f0 :: rest) ->
  exists self' quiet outs,
    run self (g :: f0 :: rest) = Ok (self', quiet :: outs)
    /\ events_for k quiet = []
    /\ debounced (debounce_seconds self) (fr_time f0) k (current_state s) S
         (polygon s) (f0 :: rest) outs.
Proof.
  intros Hwf Hget Hne Hg Hall.
  destruct (step_same self g s Hg) as [Hnone Hcur].
  pose proof (step_same_pending self g s Hg) as Hpend.
  destruct (step_frame self g s) as [_ Hpoly].
  set (s1 := fst (step self g s)) in *.
  set (self1 := set_slots self
                  (tag (fun s => fst (step self g s)) (slots self))).
  assert (slots_wf (slots self1)) as Hwf1 by now apply slots_wf_step.
  assert (Py.getitem (slots self1) k = Ok s1) as Hget1
    by exact (getitem_tag (fun s => fst (step self g s)) (slots self) k s Hget).
  assert (Forall (presents self1 (current_state s1) (polygon s1) S) (f0 :: rest))
    as Hall1.
  { rewrite Hcur, Hpoly. exact Hall. }
  assert (S <> current_state s1) as Hne1 by now rewrite Hcur.
  assert (pending_state s1 <> Some S) as Hp1 by (rewrite Hpend; discriminate).
  destruct (first_observation self1 k s1 S f0 rest Hwf1 Hget1 Hne1 Hp1 Hall1)
    as (self' & outs & s' & Hrun & _ & Hdeb & _).
  exists self', (events_of self g (slots self)), outs.
  split; [|split].
  - cbn [run]. rewrite process_detections_ok by exact Hwf.
    cbn [bind fst snd]. fold self1.
    cbn [run] in Hrun. rewrite Hrun. reflexivity.
  - rewrite (events_for_slot self g (slots self) k s Hwf Hget).
    now rewrite Hnone.
  - rewrite Hcur, Hpoly in Hdeb. exact Hdeb.
Qed.

(** *** The order of the detections *)

Lemma hit_perm poly dets dets' :
  Permutation dets dets' -> hit poly dets = hit poly dets'.
Proof.
  intros Hp. rewrite !hit_exists.
  destruct (existsb _ dets') eqn:E'.
  - apply existsb_exists in E' as (d & Hin & Hc).
    apply existsb_exists. exists d. split; [|exact Hc].
    now apply (Permutation_in _ (Permutation_sym Hp)).
  - apply not_true_is_false. intros E.
    apply existsb_exists in E as (d & Hin & Hc).
    assert (existsb (fun d => contains poly (center d)) dets' = true)
      by (apply existsb_exists; exists d; split;
          [now apply (Permutation_in _ Hp)|exact Hc]).
    congruence.
Qed.

Lemma raw_confidence_le poly dets dets' :
  (forall d, In d dets -> In d dets') ->
  raw_confidence poly dets <= raw_confidence poly dets'.
Proof.
  intros Hsub. unfold raw_confidence.
  destruct (conf_fold_ge poly dets' 0) as [H0 Hall].
  destruct (conf_fold_choice poly dets 0) as [->|(d & Hin & Hc & ->)].
  - exact H0.
  - apply Hall; [now apply Hsub|exact Hc].
Qed.

(** X10 -- the order of the detections does not matter. On a slot map with
    unique keys, the first loop of [process_detections] returns for two
    lists holding the same detections in different orders; it records the
    same occupancy for every slot and equal confidences. *)
Theorem detection_order_is_irrelevant (sl : Py.dict SlotState)
    (dets dets' : list Detection) :
  NoDup (Py.keys sl) ->
  Permutation dets dets' ->
  exists occ conf conf',
    scan_detections sl dets
      (map (fun kv => (fst kv, false)) sl, map (fun kv => (fst kv, 0)) sl)
    = Ok (occ, conf)
    /\ scan_detections sl dets'
         (map (fun kv => (fst kv, false)) sl, map (fun kv => (fst kv, 0)) sl)
       = Ok (occ, conf')
    /\ Forall2 (fun a b => fst a = fst b /\ snd a == snd b) conf conf'.
Proof.
  intros Hnd Hp.
  exists (tag (fun s => hit (polygon s) dets) sl),
         (tag (fun s => raw_confidence (polygon s) dets) sl),
         (tag (fun s => raw_confidence (polygon s) dets') sl).
  split; [|split].
  - exact (scan_detections_spec sl Hnd dets (fun _ => false) (fun _ => 0)).
  - replace (tag (fun s => hit (polygon s) dets) sl)
      with (tag (fun s => hit (polygon s) dets') sl).
    + exact (scan_detections_spec sl Hnd dets' (fun _ => false) (fun _ => 0)).
    + unfold tag. apply map_ext. intros [k s]. simpl.
      now rewrite (hit_perm _ _ _ Hp).
  - clear Hnd. induction sl as [|[k s] sl IH]; simpl; constructor; [|exact IH].
    simpl. split; [reflexivity|].
    apply Qle_antisym; apply raw_confidence_le; intros d Hd.
    + now apply (Permutation_in _ Hp).
    + now apply (Permutation_in _ (Permutation_sym Hp)).
Qed.

(** *** Loading the slots *)

(** The points of a polygon after [_load_slots] has scaled them. *)
Definition scaled (sx sy : Q) (pts : list Point) : list Point :=
  map (fun p => (fst p * sx, snd p * sy)) pts.

Definition buildable (sx sy : Q) (d : SlotDef) : Prop :=
  exists poly, Polygon_new (scaled sx sy (def_poly d)) = Ok poly.

(** A slot as [_load_slots] stores it for a definition. *)
Definition loaded_from (sx sy : Q) (d : SlotDef) (s : SlotState) : Prop :=
  slot_id s = def_slot_id d
  /\ Polygon_new (scaled sx sy (def_poly d)) = Ok (polygon s)
  /\ current_state s = "unknown"%string
  /\ confidence s = 0
  /\ pending_state s = None
  /\ pending_since s = None.

(** The last definition of a slot id in the file. *)
Fixpoint last_def (sid : string) (defs : list SlotDef) : option SlotDef :=
  match defs with
  | [] => None
  | d :: rest =>
      match last_def sid rest with
      | Some d' => Some d'
      | None => if String.eqb (def_slot_id d) sid then Some d else None
      end
  end.

Lemma setitem_in {V : Type} (d : Py.dict V) k0 v0 k v :
  In (k, v) (Py.setitem d k0 v0) -> In (k, v) d \/ (k = k0 /\ v = v0).
Proof.
  induction d as [|[k' v'] d IH]; simpl.
  - intros [H|[]]. inversion H. auto.
  - destruct (String.eqb_spec k' k0) as [->|_]; simpl.
    + intros [H|H]; [inversion H; auto|auto].
    + intros [H|H]; [auto|]. destruct (IH H); auto.
Qed.

Lemma getitem_setitem_same {V : Type} (d : Py.dict V) k v :
  Py.getitem (Py.setitem d k v) k = Ok v.
Proof.
  induction d as [|[k' v'] d IH]; simpl.
  - now rewrite String.eqb_refl.
  - destruct (String.eqb_spec k' k) as [->|Hne]; simpl.
    + now rewrite String.eqb_refl.
    + apply String.eqb_neq in Hne. now rewrite Hne.
Qed.

Lemma getitem_setitem_other {V : Type} (d : Py.dict V) k v k' :
  k <> k' -> Py.getitem (Py.setitem d k v) k' = Py.getitem d k'.
Proof.
  intros Hne. induction d as [|[k0 v0] d IH]; simpl.
  - apply String.eqb_neq in Hne. now rewrite Hne.
  - destruct (String.eqb_spec k0 k) as [->|Hk]; simpl.
    + apply String.eqb_neq in Hne. now rewrite Hne.
    + now rewrite IH.
Qed.

Lemma load_loop_in defs sx sy clock : forall n sl k s,
  In (k, s) (load_loop defs sx sy clock n sl) ->
  In (k, s) sl
  \/ exists d, In d defs /\ def_slot_id d = k /\ loaded_from sx sy d s.
Proof.
  induction defs as [|d defs IH]; intros n sl k s Hin; simpl in Hin;
    [now left|].
  fold (scaled sx sy (def_poly d)) in Hin.
  destruct (Polygon_new (scaled sx sy (def_poly d))) as [poly|e] eqn:Ep;
    [|now left].
  destruct (IH _ _ _ _ Hin) as [Hin'|(d' & Hd' & Hk & Hl)].
  - apply setitem_in in Hin' as [Hin'|[-> ->]]; [now left|].
    right. exists d. split; [now left|]. split; [reflexivity|].
    unfold loaded_from. simpl. repeat split; auto.
  - right. exists d'. split; [now right|]. auto.
Qed.

(** X11 -- what [_load_slots] stores. Every slot of a freshly built
    processor comes from a definition of the slots file with the same id:
    its polygon is built from the points of the definition, each scaled by
    [target width / authored width] and [target height / authored
    height], and it starts in state "unknown" with confidence 0.0 and no
    pending window. *)
Theorem loaded_slots_are_scaled config debounce enter exit resolution clock
    k s :
  Py.getitem
    (slots (__init__ (Some config) debounce enter exit resolution clock)) k
  = Ok s ->
  let original_size :=
    match cfg_image_size config with Some sz => sz | None => resolution end in
  exists slot_def,
    In slot_def (match cfg_slots config with Some l => l | None => [] end)
    /\ def_slot_id slot_def = k
    /\ loaded_from (fst resolution / fst original_size)
         (snd resolution / snd original_size) slot_def s.
Proof.
  intros Hget original_size. apply getitem_is_in in Hget.
  simpl in Hget. unfold _load_slots in Hget. fold original_size in Hget.
  destruct (_ || _); [contradiction|].
  apply load_loop_in in Hget as [[]|H]. exact H.
Qed.

Lemma last_def_id sid defs d :
  last_def sid defs = Some d -> def_slot_id d = sid /\ In d defs.
Proof.
  induction defs as [|d0 defs IH]; simpl; [discriminate|].
  destruct (last_def sid defs) as [d'|].
  - intros H. inversion H; subst d'. destruct (IH eq_refl). auto.
  - destruct (String.eqb_spec (def_slot_id d0) sid); [|discriminate].
    intros H. inversion H; subst. auto.
Qed.

Lemma last_def_some defs d :
  In d defs -> last_def (def_slot_id d) defs <> None.
Proof.
  induction defs as [|d0 defs IH]; simpl; [contradiction|].
  intros [->|Hin].
  - destruct (last_def _ defs); [discriminate|].
    rewrite String.eqb_refl. discriminate.
  - specialize (IH Hin). destruct (last_def _ defs); [discriminate|tauto].
Qed.

Lemma load_loop_getitem sx sy clock sid defs :
  Forall (buildable sx sy) defs ->
  forall n sl,
    match last_def sid defs with
    | Some d =>
        exists s, Py.getitem (load_loop defs sx sy clock n sl) sid = Ok s
                  /\ loaded_from sx sy d s
    | None =>
        Py.getitem (load_loop defs sx sy clock n sl) sid = Py.getitem sl sid
    end.
Proof.
  induction 1 as [|d defs [poly Hd] _ IH]; intros n sl; simpl; [reflexivity|].
  fold (scaled sx sy (def_poly d)). rewrite Hd.
  set (sl' := Py.setitem sl (def_slot_id d) _).
  specialize (IH (n + 2)%nat sl').
  destruct (last_def sid defs) as [d'|]; [exact IH|].
  destruct (String.eqb_spec (def_slot_id d) sid) as [<-|Hne].
  - eexists. split.
    + rewrite IH. unfold sl'. apply getitem_setitem_same.
    + unfold loaded_from. simpl. repeat split; auto.
  - rewrite IH. unfold sl'. now apply getitem_setitem_other.
Qed.

(** X12 -- declared slots are loaded, the last declaration winning. When
    the authored image size has no zero dimension and the polygon of every
    definition can be built, every slot id declared in the file is a key of
    the slot map, and the slot stored under it comes from the last
    definition with that id. *)
Theorem last_declaration_wins roi size defs debounce enter exit resolution
    clock slot_def :
  let config := {| cfg_roi_version := roi; cfg_image_size := Some size;
                   cfg_slots := Some defs |} in
  let sx := fst resolution / fst size in
  let sy := snd resolution / snd size in
  ~ fst size == 0 -> ~ snd size == 0 ->
  Forall (buildable sx sy) defs ->
  In slot_def defs ->
  exists d s,
    last_def (def_slot_id slot_def) defs = Some d
    /\ Py.getitem
         (slots (__init__ (Some config) debounce enter exit resolution clock))
         (def_slot_id slot_def) = Ok s
    /\ loaded_from sx sy d s.
Proof.
  intros config sx sy Hw Hh Hall Hin.
  pose proof (load_loop_getitem sx sy clock (def_slot_id slot_def) defs Hall
                0%nat []) as H.
  pose proof (last_def_some defs slot_def Hin) as Hsome.
  destruct (last_def (def_slot_id slot_def) defs) as [d|]; [|tauto].
  destruct H as (s & Hget & Hl).
  exists d, s. split; [reflexivity|]. split; [|exact Hl].
  simpl. unfold _load_slots. simpl.
  destruct (Qeq_bool (fst size) 0) eqn:E1;
    [apply Qeq_bool_iff in E1; contradiction|].
  destruct (Qeq_bool (snd size) 0) eqn:E2;
    [apply Qeq_bool_iff in E2; contradiction|].
  exact Hget.
Qed.

Lemma load_loop_app sx sy clock good : forall tail n sl,
  Forall (buildable sx sy) good ->
  load_loop (good ++ tail) sx sy clock n sl
  = load_loop tail sx sy clock (n + 2 * List.length good)
      (load_loop good sx sy clock n sl).
Proof.
  induction good as [|d good IH]; intros tail n sl Hall; simpl.
  - now rewrite Nat.add_0_r.
  - inversion Hall as [|? ? [poly Hd] Hrest]; subst.
    fold (scaled sx sy (def_poly d)). rewrite Hd.
    rewrite IH by exact Hrest. f_equal. lia.
Qed.

(** X13 -- a polygon that cannot be built ends the loading. When
    [Polygon(...)] raises for a definition, the slots defined before it
    stay loaded and the definitions after it are skipped: the slot map is
    the one the file would give if it stopped before that definition. *)
Theorem bad_polygon_ends_loading roi size good bad rest debounce enter exit
    resolution clock e :
  let sx := fst resolution / fst size in
  let sy := snd resolution / snd size in
  Forall (buildable sx sy) good ->
  Polygon_new (scaled sx sy (def_poly bad)) = Raise e ->
  slots (__init__
           (Some {| cfg_roi_version := roi; cfg_image_size := Some size;
                    cfg_slots := Some (good ++ bad :: rest) |})
           debounce enter exit resolution clock)
  = slots (__init__
             (Some {| cfg_roi_version := roi; cfg_image_size := Some size;
                      cfg_slots := Some good |})
             debounce enter exit resolution clock).
Proof.
  intros sx sy Hgood Hbad. simpl. unfold _load_slots. simpl.
  destruct (_ || _); [reflexivity|].
  fold sx sy. rewrite load_loop_app by exact Hgood.
  simpl. fold (scaled sx sy (def_poly bad)). now rewrite Hbad.
Qed.

Lemma scan_detections_nil dets acc :
  scan_detections [] dets acc = Ok acc.
Proof.
  revert acc. induction dets as [|d dets IH]; intros acc; simpl; auto.
Qed.

Lemma run_without_slots self frames :
  slots self = [] ->
  run self frames = Ok (self, map (fun _ => []) frames).
Proof.
  intros Hnil. induction frames as [|f rest IH]; simpl; [reflexivity|].
  unfold process_detections. rewrite Hnil. simpl.
  rewrite scan_detections_nil. simpl.
  replace (set_slots self []) with self
    by (destruct self; simpl in *; now subst).
  now rewrite IH.
Qed.

(** X14 -- a missing or unusable slots file. When the slots file is missing
    or unreadable, or its image size has a zero dimension, the processor
    is built without slots: its summary counts nothing, and every call
    returns no event and leaves it as it is. *)
Theorem unusable_file_gives_no_slots file debounce enter exit resolution
    clock frames :
  file = None
  \/ (exists config size,
        file = Some config /\ cfg_image_size config = Some size
        /\ (fst size == 0 \/ snd size == 0)) ->
  let self := __init__ file debounce enter exit resolution clock in
  slots self = []
  /\ get_summary self
     = {| free_count := 0; occupied_count := 0; unknown_count := 0;
          total_slots := 0 |}
  /\ get_all_states self = []
  /\ run self frames = Ok (self, map (fun _ => []) frames).
Proof.
  intros Hfile self.
  assert (slots self = []) as Hnil.
  { unfold self. simpl. unfold _load_slots.
    destruct Hfile as [->|(config & size & -> & Hsz & Hzero)]; [reflexivity|].
    rewrite Hsz.
    destruct Hzero as [H|H]; apply Qeq_bool_iff in H; rewrite H;
      [reflexivity | now rewrite orb_true_r]. }
  split; [exact Hnil|]. split; [|split].
  - unfold get_summary, count_state. now rewrite Hnil.
  - unfold get_all_states. now rewrite Hnil.
  - now apply run_without_slots.
Qed.

End EngineExtras.


(** * Further properties of the sender and its buffer *)

Section SenderExtras.
Import StatsSender.
Context `{C : Codec}.
Local Unset Implicit Arguments.

Definition stats_total (st : Stats) : Z :=
  (events_sent st + events_buffered st + events_failed st)%Z.

Lemma buffer_events_depth self events model_version now :
  buffer_depth (_buffer_events self events model_version now true)
  = (buffer_depth self + len events)%Z.
Proof.
  unfold buffer_depth, _buffer_events, with_stats, with_buffer.
  cbn [event_buffer].
  destruct (insert_all_rows (fun e => dumps_event e model_version)
              "slot_event" (isoformat now) events (event_buffer self))
    as (added & -> & Hpl & _).
  unfold len. rewrite length_app.
  apply (f_equal (@List.length string)) in Hpl.
  rewrite !length_map in Hpl. lia.
Qed.

Lemma send_slot_events_accounts self events model_version now response db_ok :
  let r := send_slot_events self events model_version now response db_ok in
  stats_total (_stats (fst r)) = (stats_total (_stats self) + len events)%Z
  /\ events_replayed (_stats (fst r)) = events_replayed (_stats self)
  /\ summaries_sent (_stats (fst r)) = summaries_sent (_stats self)
  /\ (buffer_depth (fst r) - buffer_depth self
      = events_buffered (_stats (fst r)) - events_buffered (_stats self))%Z
  /\ (snd r = true ->
      events_sent (_stats (fst r)) = (events_sent (_stats self) + len events)%Z
      /\ event_buffer (fst r) = event_buffer self)
  /\ (snd r = false ->
      events_sent (_stats (fst r)) = events_sent (_stats self)).
Proof.
  unfold send_slot_events.
  destruct events as [|e es].
  { cbn. unfold stats_total. repeat split; lia. }
  set (events := e :: es).
  set (self1 := post self "/api/v2/events"
                  (EventsBody events model_version (isoformat now) false)).
  assert (let r := (_buffer_events self1 events model_version now db_ok, false)
          in
          stats_total (_stats (fst r))
          = (stats_total (_stats self) + len events)%Z
          /\ events_replayed (_stats (fst r)) = events_replayed (_stats self)
          /\ summaries_sent (_stats (fst r)) = summaries_sent (_stats self)
          /\ (buffer_depth (fst r) - buffer_depth self
              = events_buffered (_stats (fst r))
                - events_buffered (_stats self))%Z
          /\ (snd r = true ->
              events_sent (_stats (fst r))
              = (events_sent (_stats self) + len events)%Z
              /\ event_buffer (fst r) = event_buffer self)
          /\ (snd r = false ->
              events_sent (_stats (fst r)) = events_sent (_stats self)))
    as Hfail.
  { cbn [fst snd]. destruct db_ok.
    - rewrite buffer_events_depth.
      unfold _buffer_events, with_stats, with_buffer, stats_total, self1, post.
      cbn. unfold buffer_depth. cbn.
      repeat split; try lia; discriminate.
    - unfold _buffer_events, with_stats, stats_total, self1, post,
        buffer_depth. cbn.
      repeat split; try lia; discriminate. }
  destruct response as [code|]; [|exact Hfail].
  destruct (Z.eqb code 200); [|exact Hfail].
  unfold with_stats, stats_total, self1, post, buffer_depth. cbn.
  repeat split; try lia; discriminate.
Qed.

(** X15 -- every event of a send is counted once. [send_slot_events]
    adds the number of events it was given to exactly one counter and
    leaves the two others as they were: to [events_sent] when the
    collector answers with status 200, to [events_buffered] when it does
    not and the buffer can be written, to [events_failed] when it does not
    and the buffer cannot be written. The buffer grows by that number in
    the second case only, [events_replayed] and [summaries_sent] never
    change, and the call reports [True] exactly when there was no event or
    the answer was status 200. *)
Theorem every_event_is_counted self events model_version now response db_ok :
  let r := send_slot_events self events model_version now response db_ok in
  let sent := events_sent (_stats (fst r)) in
  let buffered := events_buffered (_stats (fst r)) in
  let failed := events_failed (_stats (fst r)) in
  (not_200 response = false ->
   sent = (events_sent (_stats self) + len events)%Z
   /\ buffered = events_buffered (_stats self)
   /\ failed = events_failed (_stats self)
   /\ event_buffer (fst r) = event_buffer self)
  /\ (not_200 response = true -> db_ok = true ->
      sent = events_sent (_stats self)
      /\ buffered = (events_buffered (_stats self) + len events)%Z
      /\ failed = events_failed (_stats self)
      /\ buffer_depth (fst r) = (buffer_depth self + len events)%Z)
  /\ (not_200 response = true -> db_ok = false ->
      sent = events_sent (_stats self)
      /\ buffered = events_buffered (_stats self)
      /\ failed = (events_failed (_stats self) + len events)%Z
      /\ event_buffer (fst r) = event_buffer self)
  /\ events_replayed (_stats (fst r)) = events_replayed (_stats self)
  /\ summaries_sent (_stats (fst r)) = summaries_sent (_stats self)
  /\ stats_total (_stats (fst r)) = (stats_total (_stats self) + len events)%Z
  /\ (snd r = true <-> events = [] \/ not_200 response = false).
Proof.
  intros r sent buffered failed. subst r sent buffered failed.
  destruct (send_slot_events_accounts self events model_version now response
              db_ok) as (Htotal & Hreplayed & Hsummaries & _).
  unfold send_slot_events in *.
  destruct events as [|e es].
  { cbn [fst snd]. unfold len. cbn [List.length Z.of_nat].
    rewrite !Z.add_0_r. repeat split; trivial. now left. }
  set (events := e :: es) in *.
  set (self1 := post self "/api/v2/events"
                  (EventsBody events model_version (isoformat now) false))
    in *.
  assert (events <> []) as Hne by discriminate.
  destruct response as [code|]; [destruct (Z.eqb_spec code 200) as [->|Hcode]|].
  - cbn [fst snd not_200 Z.eqb Pos.eqb negb] in *.
    split; [intros _; repeat split|].
    split; [discriminate|]. split; [discriminate|].
    split; [exact Hreplayed|]. split; [exact Hsummaries|].
    split; [exact Htotal|]. split; [now right|trivial].
  - assert (not_200 (Status code) = true) as Hno.
    { unfold not_200. apply negb_true_iff. now apply Z.eqb_neq. }
    rewrite Hno. cbn [fst snd] in *.
    split; [discriminate|].
    split; [intros _ ->; rewrite buffer_events_depth; repeat split|].
    split; [intros _ ->; repeat split|].
    split; [exact Hreplayed|]. split; [exact Hsummaries|].
    split; [exact Htotal|].
    split; [discriminate|intros [H|H]; [contradiction|discriminate]].
  - cbn [fst snd not_200] in *.
    split; [discriminate|].
    split; [intros _ ->; rewrite buffer_events_depth; repeat split|].
    split; [intros _ ->; repeat split|].
    split; [exact Hreplayed|]. split; [exact Hsummaries|].
    split; [exact Htotal|].
    split; [discriminate|intros [H|H]; [contradiction|discriminate]].
Qed.

(** *** The buffer as a queue *)

(** Rows are kept in the order of their ids, which are unique and bounded
    by the sequence. *)
Definition buffer_inv (t : Table) : Prop :=
  table_ok t /\ StronglySorted id_le (rows t).

Lemma sorted_snoc (l : list Row) (x : Row) :
  StronglySorted id_le l -> Forall (fun r => id_le r x) l ->
  StronglySorted id_le (l ++ [x]).
Proof.
  induction 1 as [|a l Hs IH Ha]; intros Hall; simpl.
  - repeat constructor.
  - inversion Hall as [|? ? Hax Hlx]; subst.
    constructor; [now apply IH|].
    apply Forall_app. split; [exact Ha|]. now repeat constructor.
Qed.

Lemma insert_inv t ty pl ts : buffer_inv t -> buffer_inv (insert t ty pl ts).
Proof.
  intros [Hok Hs]. split; [now apply insert_ok|].
  unfold insert. cbn [rows]. apply sorted_snoc; [exact Hs|].
  destruct Hok as [_ Hle]. eapply Forall_impl; [|exact Hle].
  unfold id_le. simpl. intros; lia.
Qed.

Lemma insert_all_inv (f : Json -> string) ty ts events : forall t,
  buffer_inv t ->
  buffer_inv (fold_left (fun t e => insert t ty (f e) ts) events t).
Proof.
  induction events as [|e events IH]; simpl; intros t Ht; [exact Ht|].
  apply IH, insert_inv, Ht.
Qed.

Lemma insert_all_sequence (f : Json -> string) ty ts events : forall t,
  (sequence t
   <= sequence (fold_left (fun t e => insert t ty (f e) ts) events t))%Z.
Proof.
  induction events as [|e events IH]; simpl; intros t; [lia|].
  etransitivity; [|apply IH]. simpl. lia.
Qed.

Lemma sorted_order_by_id (l : list Row) :
  StronglySorted id_le l -> order_by_id l = l.
Proof.
  induction 1 as [|a l Hs IH Ha]; simpl; [reflexivity|].
  rewrite IH. destruct l as [|b l]; [reflexivity|]. simpl.
  inversion Ha as [|? ? Hab _]; subst. unfold id_le in Hab.
  apply Z.leb_le in Hab. now rewrite Hab.
Qed.

Lemma delete_front (n : nat) : forall (l : list Row),
  NoDup (map row_id l) ->
  filter (fun r => negb (existsb (Z.eqb (row_id r)) (map row_id (firstn n l))))
    l = skipn n l.
Proof.
  assert (forall (l : list Row) ids,
            (forall r, In r l -> ~ In (row_id r) ids) ->
            filter (fun r => negb (existsb (Z.eqb (row_id r)) ids)) l = l)
    as Hkeep.
  { induction l as [|a l IH]; intros ids H; simpl; [reflexivity|].
    destruct (existsb (Z.eqb (row_id a)) ids) eqn:E.
    - apply existsb_exists in E as (i & Hi & Heq). apply Z.eqb_eq in Heq.
      subst i. exfalso. apply (H a); [now left|exact Hi].
    - simpl. f_equal. apply IH. intros r Hr. apply H. now right. }
  assert (forall (l : list Row) ids a,
            ~ In (row_id a) (map row_id l) ->
            filter (fun r => negb (existsb (Z.eqb (row_id r)) (row_id a :: ids)))
              l
            = filter (fun r => negb (existsb (Z.eqb (row_id r)) ids)) l)
    as Hskip.
  { intros l ids a Ha. apply filter_ext_in. intros r Hr. simpl.
    destruct (Z.eqb_spec (row_id r) (row_id a)) as [Heq|_]; [|reflexivity].
    exfalso. apply Ha. rewrite <- Heq. now apply in_map. }
  induction n as [|n IH]; intros l Hnd.
  - cbn [firstn map skipn]. apply Hkeep. intros r _ [].
  - destruct l as [|a l]; [reflexivity|].
    apply NoDup_cons_iff in Hnd as [Ha Hnd].
    cbn [firstn map skipn filter].
    replace (existsb (Z.eqb (row_id a)) (row_id a :: map row_id (firstn n l)))
      with true by (simpl; now rewrite Z.eqb_refl).
    cbn [negb].
    rewrite Hskip; [now apply IH|].
    intros Hin. apply Ha. exact Hin.
Qed.

Lemma collect_lookup_error fetched : forall evs ids,
  Exists (fun r => loads_event (payload r) = LookupError) fetched ->
  exists e, collect fetched evs ids = Raise e.
Proof.
  induction fetched as [|r rest IH]; intros evs ids Hex;
    [inversion Hex|].
  simpl. destruct (loads_event (payload r)) as [ev| |] eqn:El.
  - apply IH. inversion Hex as [? ? H|? ? H]; subst; [congruence|exact H].
  - apply IH. inversion Hex as [? ? H|? ? H]; subst; [congruence|exact H].
  - now exists KeyError.
Qed.

Lemma decoded_length (rs : list Row) :
  (List.length (decoded rs) <= List.length rs)%nat.
Proof.
  induction rs as [|r rs IH]; simpl; [lia|].
  rewrite length_app.
  destruct (loads_event (payload r)); simpl; lia.
Qed.

(** A replayed batch that the collector accepts. *)
Lemma replay_success self batch_size now :
  buffer_inv (event_buffer self) ->
  let fetched := firstn batch_size (rows (event_buffer self)) in
  Forall readable fetched ->
  decoded fetched <> [] ->
  replay_buffered_events self batch_size now (Status 200)
  = (with_stats
       (with_buffer
          (post self "/api/v2/events"
             (EventsBody (decoded fetched) "replay" (isoformat now) true))
          {| rows := skipn batch_size (rows (event_buffer self));
             sequence := sequence (event_buffer self) |})
       {| events_sent := events_sent (_stats self);
          events_failed := events_failed (_stats self);
          events_buffered := events_buffered (_stats self);
          events_replayed :=
            (events_replayed (_stats self) + len (decoded fetched))%Z;
          summaries_sent := summaries_sent (_stats self) |},
     len (decoded fetched)).
Proof.
  intros [[Hnd _] Hs] fetched Hread Hsome.
  unfold replay_buffered_events, select_oldest.
  rewrite (sorted_order_by_id _ Hs). fold fetched.
  destruct fetched as [|r0 rest] eqn:Ef; [now elim Hsome|].
  rewrite (collect_readable (r0 :: rest) [] [] Hread).
  cbn [app]. destruct (decoded (r0 :: rest)) as [|ev evs] eqn:Ed;
    [now elim Hsome|].
  cbn [Z.eqb Pos.eqb]. unfold delete_ids. cbn [post event_buffer].
  rewrite <- Ef. unfold fetched. rewrite (delete_front batch_size _ Hnd).
  reflexivity.
Qed.

Lemma replay_pops_the_oldest_aux self batch_size now :
  buffer_inv (event_buffer self) ->
  let fetched := firstn batch_size (rows (event_buffer self)) in
  Forall readable fetched ->
  decoded fetched <> [] ->
  let r := replay_buffered_events self batch_size now (Status 200) in
  rows (event_buffer (fst r)) = skipn batch_size (rows (event_buffer self))
  /\ posted (fst r)
     = posted self
       ++ [{| url := server_url self ++ "/api/v2/events";
              body := EventsBody (decoded fetched) "replay" (isoformat now)
                        true |}]
  /\ snd r = len (decoded fetched)
  /\ events_replayed (_stats (fst r))
     = (events_replayed (_stats self) + len (decoded fetched))%Z.
Proof.
  intros Hinv fetched Hread Hsome r. unfold r.
  rewrite (replay_success self batch_size now Hinv Hread Hsome).
  repeat split.
Qed.

(** X16 -- a successful replay pops the oldest batch. On a buffer whose
    rows are in id order, when the [batch_size] oldest rows hold no payload
    that decodes to a value without an event, and at least one that
    decodes, a replay answered with status 200 posts the decoded events in
    buffer order, tagged as a replay, removes exactly those oldest rows
    (undecodable ones included), and returns and counts the number of
    events posted. *)
Theorem replay_pops_the_oldest self batch_size now :
  buffer_inv (event_buffer self) ->
  let fetched := firstn batch_size (rows (event_buffer self)) in
  Forall readable fetched ->
  decoded fetched <> [] ->
  let r := replay_buffered_events self batch_size now (Status 200) in
  rows (event_buffer (fst r)) = skipn batch_size (rows (event_buffer self))
  /\ posted (fst r)
     = posted self
       ++ [{| url := server_url self ++ "/api/v2/events";
              body := EventsBody (decoded fetched) "replay" (isoformat now)
                        true |}]
  /\ snd r = len (decoded fetched)
  /\ events_replayed (_stats (fst r))
     = (events_replayed (_stats self) + len (decoded fetched))%Z
  /\ buffer_depth (fst r)
     = (buffer_depth self
        - Z.of_nat (Nat.min batch_size
                      (List.length (rows (event_buffer self)))))%Z
  /\ buffer_inv (event_buffer (fst r)).
Proof.
  intros Hinv fetched Hread Hsome r. unfold r.
  rewrite (replay_success self batch_size now Hinv Hread Hsome).
  unfold buffer_depth, with_stats, with_buffer, post.
  cbn [fst snd event_buffer posted _stats events_replayed rows sequence
       server_url].
  repeat split.
  - unfold len. rewrite length_skipn. lia.
  - destruct Hinv as [[Hnd _] _].
    rewrite <- (firstn_skipn batch_size (rows (event_buffer self))) in Hnd.
    rewrite map_app in Hnd. now apply NoDup_app_remove_l in Hnd.
  - destruct Hinv as [[_ Hle] _].
    rewrite <- (firstn_skipn batch_size (rows (event_buffer self))) in Hle.
    apply Forall_app in Hle. tauto.
  - destruct Hinv as [_ Hs].
    rewrite <- (firstn_skipn batch_size (rows (event_buffer self))) in Hs.
    cbn [rows]. clear Hread Hsome. clear r fetched.
    revert Hs. generalize (skipn batch_size (rows (event_buffer self))).
    induction (firstn batch_size (rows (event_buffer self))) as [|a l IH];
      intros tl Hs; [exact Hs|].
    simpl in Hs. inversion Hs as [|? ? Hs' _]; subst. exact (IH tl Hs').
Qed.

Lemma decoded_of_payloads (f : Json -> string) : forall rs events,
  map payload rs = map f events ->
  Forall (fun e => loads_event (f e) = Decoded e) events ->
  decoded rs = events /\ Forall readable rs.
Proof.
  induction rs as [|r rs IH]; intros [|e events] Hmap Hall;
    try discriminate; [split; [reflexivity|constructor]|].
  simpl in Hmap. inversion Hmap as [[Hr Hrs]].
  inversion Hall as [|? ? He Hes]; subst.
  destruct (IH events Hrs Hes) as [Hd Hread].
  split.
  - simpl. rewrite Hr, He, Hd. reflexivity.
  - constructor; [|exact Hread]. unfold readable. rewrite Hr, He. discriminate.
Qed.

(** X17 -- buffer round trip. With an empty buffer and a working database,
    a non-empty batch of events whose send fails is written to the buffer;
    if every event reads back from its payload, a later replay with
    [batch_size] at least the size of the batch, answered with status 200,
    posts exactly those events in their order, tagged as a replay with
    model version "replay", empties the buffer, and returns and counts
    their number. *)
Theorem buffered_events_are_replayed self events model_version now response
    now' batch_size :
  rows (event_buffer self) = [] ->
  events <> [] ->
  not_200 response = true ->
  Forall (fun e => loads_event (dumps_event e model_version) = Decoded e)
    events ->
  (List.length events <= batch_size)%nat ->
  let sent := send_slot_events self events model_version now response true in
  let r := replay_buffered_events (fst sent) batch_size now' (Status 200) in
  snd sent = false
  /\ buffer_depth (fst sent) = len events
  /\ snd r = len events
  /\ posted (fst r)
     = posted (fst sent)
       ++ [{| url := server_url self ++ "/api/v2/events";
              body := EventsBody events "replay" (isoformat now') true |}]
  /\ rows (event_buffer (fst r)) = []
  /\ events_replayed (_stats (fst r))
     = (events_replayed (_stats self) + len events)%Z.
Proof.
  intros Hempty Hne Hfail Hround Hsize sent r.
  set (self1 := post self "/api/v2/events"
                  (EventsBody events model_version (isoformat now) false)).
  assert (sent = (_buffer_events self1 events model_version now true, false))
    as Hsent.
  { unfold sent, send_slot_events. destruct events as [|e es]; [congruence|].
    destruct response as [code|]; [|reflexivity].
    simpl in Hfail. apply negb_true_iff in Hfail. now rewrite Hfail. }
  set (t1 := fold_left
               (fun t e => insert t "slot_event"
                             (dumps_event e model_version) (isoformat now))
               events (event_buffer self)).
  assert (buffer_inv t1) as Hinv.
  { apply (insert_all_inv (fun e => dumps_event e model_version)).
    unfold buffer_inv, table_ok. rewrite Hempty. repeat split; constructor. }
  destruct (insert_all_rows (fun e => dumps_event e model_version)
              "slot_event" (isoformat now) events (event_buffer self))
    as (added & Hrows & Hpl & _).
  fold t1 in Hrows. rewrite Hempty in Hrows. simpl in Hrows.
  destruct (decoded_of_payloads (fun e => dumps_event e model_version)
              added events Hpl Hround) as [Hdec Hread].
  assert (List.length added = List.length events) as Hlen.
  { apply (f_equal (@List.length string)) in Hpl.
    now rewrite !length_map in Hpl. }
  assert (event_buffer (fst sent) = t1) as Hbuf by (rewrite Hsent; reflexivity).
  assert (firstn batch_size (rows (event_buffer (fst sent))) = added) as Hfirst.
  { rewrite Hbuf, Hrows. apply firstn_all2. lia. }
  destruct (replay_pops_the_oldest_aux (fst sent) batch_size now')
    as (H1 & H2 & H3 & H4).
  - now rewrite Hbuf.
  - now rewrite Hfirst.
  - rewrite Hfirst, Hdec. exact Hne.
  - rewrite Hfirst, Hdec in *. fold r in H1, H2, H3, H4.
    split; [now rewrite Hsent|]. split.
    { unfold buffer_depth. rewrite Hbuf, Hrows. unfold len. now rewrite Hlen. }
    split; [exact H3|]. split.
    { rewrite H2. rewrite Hsent. reflexivity. }
    split.
    { rewrite H1, Hbuf, Hrows. apply skipn_all2. lia. }
    rewrite H4, Hsent. reflexivity.
Qed.

(** X18 -- a payload without an event blocks the replay. When one of the
    fetched rows holds a payload that is valid JSON but gives no event
    ([data['event']] raises), the replay posts nothing, deletes nothing and
    returns 0, whatever the other rows and the answer of the collector;
    the sender is unchanged, so every later replay meets the same row. *)
Theorem lookup_error_blocks_replay self batch_size now response :
  Exists (fun r => loads_event (payload r) = LookupError)
    (select_oldest (event_buffer self) batch_size) ->
  replay_buffered_events self batch_size now response = (self, 0%Z).
Proof.
  intros Hex. unfold replay_buffered_events.
  destruct (select_oldest (event_buffer self) batch_size) as [|r0 rest];
    [inversion Hex|].
  destruct (collect_lookup_error (r0 :: rest) [] [] Hex) as [e ->].
  reflexivity.
Qed.

Lemma collect_length fetched : forall evs ids evs' ids',
  collect fetched evs ids = Ok (evs', ids') ->
  (List.length evs' <= List.length evs + List.length fetched)%nat.
Proof.
  induction fetched as [|r rest IH]; simpl; intros evs ids evs' ids' H.
  - inversion H. lia.
  - destruct (loads_event (payload r)); try discriminate;
      apply IH in H; rewrite ?length_app in H; simpl in H; lia.
Qed.

(** X19 -- what a replay posts. A call of [replay_buffered_events] posts
    nothing or one request: to the events endpoint, tagged [is_replay] with
    model version "replay", carrying at least one and at most [batch_size]
    events. It never changes a counter other than [events_replayed], which
    grows by the number it returns, and never adds a row to the buffer. *)
Theorem replay_posts_one_tagged_batch self batch_size now response :
  let r := replay_buffered_events self batch_size now response in
  (posted (fst r) = posted self
   \/ exists evs,
        posted (fst r)
        = posted self
          ++ [{| url := server_url self ++ "/api/v2/events";
                 body := EventsBody evs "replay" (isoformat now) true |}]
        /\ (1 <= List.length evs <= batch_size)%nat)
  /\ events_replayed (_stats (fst r))
     = (events_replayed (_stats self) + snd r)%Z
  /\ events_sent (_stats (fst r)) = events_sent (_stats self)
  /\ events_buffered (_stats (fst r)) = events_buffered (_stats self)
  /\ events_failed (_stats (fst r)) = events_failed (_stats self)
  /\ summaries_sent (_stats (fst r)) = summaries_sent (_stats self)
  /\ (forall row, In row (rows (event_buffer (fst r))) ->
                  In row (rows (event_buffer self)))
  /\ sequence (event_buffer (fst r)) = sequence (event_buffer self).
Proof.
  assert (forall x : Z, x = (x + 0)%Z) as Hz by (intros; lia).
  unfold replay_buffered_events.
  pose proof (select_oldest_length (event_buffer self) batch_size) as Hlen.
  destruct (select_oldest (event_buffer self) batch_size) as [|r0 rest]
    eqn:Ef; [cbn; auto 10|].
  destruct (collect (r0 :: rest) [] []) as [[evs ids]|e] eqn:Ec;
    [|cbn; auto 10].
  apply collect_length in Ec. simpl List.length in Ec, Hlen.
  destruct evs as [|ev evs]; [cbn; auto 10|].
  assert (1 <= List.length (ev :: evs) <= batch_size)%nat as Hsize
    by (simpl in Ec |- *; lia).
  destruct response as [code|].
  - destruct (Z.eqb code 200).
    + unfold with_stats, with_buffer, post, delete_ids. cbn.
      split; [right; exists (ev :: evs); split; [reflexivity|exact Hsize]|].
      repeat split. intros row Hrow. apply filter_In in Hrow. tauto.
    + unfold post. cbn.
      split; [right; exists (ev :: evs); split; [reflexivity|exact Hsize]|].
      auto 10.
  - unfold post. cbn.
    split; [right; exists (ev :: evs); split; [reflexivity|exact Hsize]|].
    auto 10.
Qed.

(** *** Sequences of calls *)

(** A call on the sender, with what the environment answers. *)
Inductive Call : Type :=
| SendSlotEvents (events : list Json) (model_version : string)
    (now : datetime) (response : Response) (db_ok : bool)
| SendSummary (summary : Json) (now : datetime) (response : Response)
| SendHealth (health_data : Json) (response : Response)
| SendProcessingLog (frame_id : Z) (inference_time_ms : Q)
    (detections_count events_count : Z) (now : datetime) (response : Response)
| Replay (batch_size : nat) (now : datetime) (response : Response).

Definition call (self : StatsSender) (c : Call) : StatsSender :=
  match c with
  | SendSlotEvents events v now response db_ok =>
      fst (send_slot_events self events v now response db_ok)
  | SendSummary summary now response =>
      fst (send_summary self summary now response)
  | SendHealth health_data response =>
      fst (send_health self health_data response)
  | SendProcessingLog fid ms nd ne now response =>
      fst (send_processing_log self fid ms nd ne now response)
  | Replay batch_size now response =>
      fst (replay_buffered_events self batch_size now response)
  end.

Definition calls (self : StatsSender) (cs : list Call) : StatsSender :=
  fold_left call cs self.

(** The buffer of [self'] reuses no id: it is in order, its sequence has
    not gone back, and each of its rows is a row of the earlier buffer or
    has an id above the earlier sequence. *)
Definition extends (self self' : StatsSender) : Prop :=
  buffer_inv (event_buffer self')
  /\ (sequence (event_buffer self) <= sequence (event_buffer self'))%Z
  /\ forall r, In r (rows (event_buffer self')) ->
               In r (rows (event_buffer self))
               \/ (sequence (event_buffer self) < row_id r)%Z.

Lemma extends_same self self' :
  buffer_inv (event_buffer self) ->
  event_buffer self' = event_buffer self -> extends self self'.
Proof.
  intros H Heq. unfold extends. rewrite Heq.
  split; [exact H|]. split; [lia|auto].
Qed.

Lemma extends_refl self :
  buffer_inv (event_buffer self) -> extends self self.
Proof. intros H. now apply extends_same. Qed.

Lemma buffer_events_extends self events v now db_ok :
  buffer_inv (event_buffer self) ->
  extends self (_buffer_events self events v now db_ok).
Proof.
  intros Hinv. unfold _buffer_events. destruct db_ok;
    [|now apply extends_same].
  unfold extends, with_stats, with_buffer. cbn [event_buffer].
  split; [now apply (insert_all_inv (fun e => dumps_event e v))|].
  split; [apply (insert_all_sequence (fun e => dumps_event e v))|].
  destruct (insert_all_rows (fun e => dumps_event e v) "slot_event"
              (isoformat now) events (event_buffer self))
    as (added & -> & _ & Hall).
  intros r Hr. apply in_app_or in Hr as [Hr|Hr]; [now left|].
  right. rewrite Forall_forall in Hall. now apply Hall.
Qed.

Lemma delete_ids_inv t ids : buffer_inv t -> buffer_inv (delete_ids t ids).
Proof.
  intros [[Hnd Hle] Hs]. unfold delete_ids. repeat split; cbn [rows sequence].
  - now apply filter_keeps_key.
  - apply Forall_forall. intros r Hr. apply filter_In in Hr as [Hr _].
    rewrite Forall_forall in Hle. now apply Hle.
  - clear Hnd Hle. induction Hs as [|a l Hs IH Ha]; simpl; [constructor|].
    destruct (negb _); [|exact IH].
    constructor; [exact IH|].
    apply Forall_forall. intros r Hr. apply filter_In in Hr as [Hr _].
    rewrite Forall_forall in Ha. now apply Ha.
Qed.

Lemma call_extends self c :
  buffer_inv (event_buffer self) -> extends self (call self c).
Proof.
  intros Hinv. destruct c; simpl.
  - unfold send_slot_events. destruct events as [|e es];
      [now apply extends_refl|].
    assert (forall b, extends self
              (_buffer_events
                 (post self "/api/v2/events"
                    (EventsBody (e :: es) model_version (isoformat now) false))
                 (e :: es) model_version now b)) as Hbuf.
    { intros b.
      exact (buffer_events_extends
               (post self "/api/v2/events"
                  (EventsBody (e :: es) model_version (isoformat now) false))
               (e :: es) model_version now b Hinv). }
    destruct response as [code|]; [|apply Hbuf].
    destruct (Z.eqb code 200); [|apply Hbuf].
    now apply extends_same.
  - unfold send_summary. destruct response as [code|];
      [destruct (Z.eqb code 200)|]; now apply extends_same.
  - unfold send_health. destruct response as [code|];
      [destruct (Z.eqb code 200)|]; now apply extends_same.
  - unfold send_processing_log. destruct response; now apply extends_same.
  - unfold replay_buffered_events.
    destruct (select_oldest _ _) as [|r0 rest]; [now apply extends_refl|].
    destruct (collect _ _ _) as [[evs ids]|e]; [|now apply extends_refl].
    destruct evs as [|ev evs]; [now apply extends_refl|].
    destruct response as [code|]; [|now apply extends_same].
    destruct (Z.eqb code 200); [|now apply extends_same].
    unfold extends, with_stats, with_buffer, post. cbn [event_buffer fst].
    split; [now apply delete_ids_inv|]. split; [simpl; lia|].
    intros r Hr. left. unfold delete_ids in Hr. cbn [rows] in Hr.
    apply filter_In in Hr. tauto.
Qed.

(** X20 -- row ids are never reused. Starting from a buffer whose rows are
    in id order with unique ids below the sequence, any sequence of sends
    and replays keeps the buffer so: the sequence never goes back, and a
    row that is in the buffer afterwards and was not there before has an
    id above the earlier sequence, even after rows have been deleted. *)
Theorem row_ids_are_never_reused self cs :
  buffer_inv (event_buffer self) -> extends self (calls self cs).
Proof.
  revert self. induction cs as [|c cs IH]; intros self Hinv;
    [now apply extends_refl|].
  unfold calls. simpl. fold (calls (call self c) cs).
  destruct (call_extends self c Hinv) as (Hinv1 & Hseq1 & Hrows1).
  destruct (IH (call self c) Hinv1) as (Hinv2 & Hseq2 & Hrows2).
  split; [exact Hinv2|]. split; [lia|].
  intros r Hr. destruct (Hrows2 r Hr) as [H|H]; [|right; lia].
  destruct (Hrows1 r H) as [H'|H']; [now left|right; lia].
Qed.

(** *** The depth of the buffer and the counters *)

Definition decodes (r : Row) : Prop :=
  exists e, loads_event (payload r) = Decoded e.

Definition well_encoded (self : StatsSender) : Prop :=
  Forall decodes (rows (event_buffer self)).

(** The events a call hands to the sender read back from their payloads. *)
Definition encodes (c : Call) : Prop :=
  match c with
  | SendSlotEvents events v _ _ _ =>
      Forall (fun e => loads_event (dumps_event e v) = Decoded e) events
  | _ => True
  end.

Definition backlog (self : StatsSender) : Z :=
  (buffer_depth self - events_buffered (_stats self)
   + events_replayed (_stats self))%Z.

Lemma decodes_all (rs : list Row) :
  Forall decodes rs ->
  List.length (decoded rs) = List.length rs /\ Forall readable rs.
Proof.
  induction 1 as [|r rs [e He] _ [IHl IHr]]; simpl;
    [split; [reflexivity|constructor]|].
  rewrite He. simpl. split; [now rewrite IHl|].
  constructor; [|exact IHr]. unfold readable. rewrite He. discriminate.
Qed.

Lemma buffer_events_encoded self events v now db_ok :
  well_encoded self ->
  Forall (fun e => loads_event (dumps_event e v) = Decoded e) events ->
  well_encoded (_buffer_events self events v now db_ok).
Proof.
  intros Hw Hround. unfold well_encoded, _buffer_events.
  destruct db_ok; [|exact Hw].
  unfold with_stats, with_buffer. cbn [event_buffer].
  destruct (insert_all_rows (fun e => dumps_event e v) "slot_event"
              (isoformat now) events (event_buffer self))
    as (added & -> & Hpl & _).
  apply Forall_app. split; [exact Hw|].
  clear - Hpl Hround. revert events Hpl Hround.
  induction added as [|r added IH]; intros [|e events] Hpl Hround;
    try discriminate; constructor.
  - simpl in Hpl. injection Hpl as Hr _.
    inversion Hround as [|? ? He _]. exists e. now rewrite Hr.
  - simpl in Hpl. injection Hpl as _ Hrest.
    inversion Hround as [|? ? _ Hes]. now apply (IH events).
Qed.

Lemma call_backlog self c :
  buffer_inv (event_buffer self) -> well_encoded self -> encodes c ->
  backlog (call self c) = backlog self /\ well_encoded (call self c).
Proof.
  intros Hinv Hw Henc.
  assert (forall s : StatsSender,
            event_buffer s = event_buffer self ->
            events_buffered (_stats s) = events_buffered (_stats self) ->
            events_replayed (_stats s) = events_replayed (_stats self) ->
            backlog s = backlog self /\ well_encoded s) as Hsame.
  { intros s Hb H1 H2. unfold backlog, well_encoded, buffer_depth.
    rewrite Hb, H1, H2. now split. }
  destruct c; simpl in *.
  - unfold send_slot_events. destruct events as [|e es];
      [now apply Hsame|].
    set (events := e :: es) in *.
    set (self1 := post self "/api/v2/events"
                    (EventsBody events model_version (isoformat now) false)).
    assert (backlog (_buffer_events self1 events model_version now db_ok)
            = backlog self
            /\ well_encoded
                 (_buffer_events self1 events model_version now db_ok))
      as Hbuf.
    { split; [|now apply buffer_events_encoded].
      destruct db_ok.
      - unfold backlog. rewrite buffer_events_depth.
        unfold _buffer_events, with_stats, with_buffer, self1, post,
          buffer_depth. cbn. lia.
      - unfold backlog, _buffer_events, with_stats, self1, post, buffer_depth.
        cbn. lia. }
    destruct response as [code|]; [|exact Hbuf].
    destruct (Z.eqb code 200); [|exact Hbuf].
    now apply Hsame.
  - unfold send_summary. destruct response as [code|];
      [destruct (Z.eqb code 200)|]; now apply Hsame.
  - unfold send_health. destruct response as [code|];
      [destruct (Z.eqb code 200)|]; now apply Hsame.
  - unfold send_processing_log. destruct response; now apply Hsame.
  - set (fetched := firstn batch_size (rows (event_buffer self))).
    assert (Forall decodes fetched) as Hdec.
    { unfold well_encoded in Hw.
      rewrite <- (firstn_skipn batch_size (rows (event_buffer self))) in Hw.
      apply Forall_app in Hw. tauto. }
    destruct (decodes_all fetched Hdec) as [Hlen Hread].
    destruct (Z.eq_dec (match response with Status c => c | _ => 0 end) 200)
      as [H200|Hnot]; [destruct fetched as [|r0 rest] eqn:Ef|].
    + (* nothing to fetch *)
      unfold replay_buffered_events, select_oldest.
      destruct Hinv as [_ Hs]. rewrite (sorted_order_by_id _ Hs).
      fold fetched. rewrite Ef. now apply Hsame.
    + destruct response as [code|]; [|discriminate]. subst code.
      assert (decoded (firstn batch_size (rows (event_buffer self))) <> [])
        as Hsome.
      { fold fetched. rewrite Ef. intros Hnil.
        rewrite Hnil in Hlen. discriminate. }
      fold fetched in Hread. rewrite <- Ef in Hread, Hlen.
      unfold fetched in Hread.
      rewrite (replay_success self batch_size now Hinv Hread Hsome).
      unfold backlog, well_encoded, buffer_depth, with_stats, with_buffer, post.
      cbn [fst event_buffer _stats rows events_buffered events_replayed].
      split.
      * unfold len. fold fetched. rewrite Hlen. unfold fetched.
        rewrite length_skipn, length_firstn. lia.
      * unfold well_encoded in Hw.
        rewrite <- (firstn_skipn batch_size (rows (event_buffer self))) in Hw.
        apply Forall_app in Hw. tauto.
    + unfold replay_buffered_events.
      destruct (select_oldest _ _) as [|r0 rest]; [now apply Hsame|].
      destruct (collect _ _ _) as [[evs ids]|e]; [|now apply Hsame].
      destruct evs as [|ev evs]; [now apply Hsame|].
      destruct response as [code|]; [|now apply Hsame].
      destruct (Z.eqb_spec code 200) as [->|_]; [now elim Hnot|].
      now apply Hsame.
Qed.

(** X21 -- the depth of the buffer follows the counters. Starting from a
    buffer in id order whose payloads all decode, over any sequence of
    sends and replays in which the events handed to the sender read back
    from their payloads, the buffer depth changes by what [events_buffered]
    gained minus what [events_replayed] gained; a sender started on a new
    database therefore always has
    [buffer_depth = events_buffered - events_replayed]. *)
Theorem depth_follows_the_counters self cs :
  buffer_inv (event_buffer self) ->
  well_encoded self ->
  Forall encodes cs ->
  (buffer_depth (calls self cs) - buffer_depth self
   = (events_buffered (_stats (calls self cs))
      - events_buffered (_stats self))
     - (events_replayed (_stats (calls self cs))
        - events_replayed (_stats self)))%Z.
Proof.
  intros Hinv Hw Henc.
  assert (backlog (calls self cs) = backlog self) as H;
    [|unfold backlog in H; lia].
  revert self Hinv Hw. induction Henc as [|c cs Hc _ IH]; intros self Hinv Hw;
    [reflexivity|].
  unfold calls. simpl. fold (calls (call self c) cs).
  destruct (call_backlog self c Hinv Hw Hc) as [Hb Hw'].
  destruct (call_extends self c Hinv) as [Hinv' _].
  rewrite (IH (call self c) Hinv' Hw'). exact Hb.
Qed.

End SenderExtras.


(** * Properties of the detections handed to the engine *)

Section InferenceFacts.
Import Inference.
Local Unset Implicit Arguments.

(** The boxes [detect_vehicles] reads: those of the first result. *)
Definition first_boxes (results : list (list Box)) : list Box :=
  match results with
  | [] => []
  | boxes :: _ => boxes
  end.

Definition centred (v : Vehicle) : Prop :=
  v_center_x v == (x1 (v_bbox v) + x2 (v_bbox v)) / 2
  /\ v_center_y v == (y1 (v_bbox v) + y2 (v_bbox v)) / 2.

(** X22 -- one detection per box, centred on its box. With or without the
    rotation, [detect_from_array] returns one detection for each box of the
    model's first result, in the same order, with the confidence and the
    class of the box; the centre of every detection is the midpoint of the
    bounding box it is returned with, and a box given with [x1 <= x2] and
    [y1 <= y2] is returned so. *)
Theorem detections_are_centred size results rotate_180 t_start t_end :
  Forall2
    (fun box v =>
       v_confidence v = box_conf box
       /\ v_class_id v = Py.int (box_cls box)
       /\ v_class_name v = vehicle_class_name (v_class_id v)
       /\ centred v
       /\ (box_x1 box <= box_x2 box -> x1 (v_bbox v) <= x2 (v_bbox v))
       /\ (box_y1 box <= box_y2 box -> y1 (v_bbox v) <= y2 (v_bbox v)))
    (first_boxes results)
    (detections (detect_from_array size results rotate_180 t_start t_end)).
Proof.
  unfold detect_from_array, detect_vehicles, first_boxes.
  destruct results as [|boxes _]; [destruct rotate_180; constructor|].
  destruct rotate_180; cbn [detections].
  - induction boxes as [|b boxes IH]; simpl; constructor; [|exact IH].
    unfold centred. cbn.
    repeat split; try reflexivity; try field; intros; lra.
  - induction boxes as [|b boxes IH]; simpl; constructor; [|exact IH].
    unfold centred. cbn.
    repeat split; try reflexivity; trivial.
Qed.

Definition in_image (size : Z * Z) (x y : Q) : Prop :=
  0 <= x /\ x <= inject_Z (fst size) /\ 0 <= y /\ y <= inject_Z (snd size).

(** X23 -- detections stay in the frame. When every box of the model lies
    within the image, every detection [detect_from_array] returns, rotated
    back or not, has the two corners of its bounding box and its centre
    within the frame. *)
Theorem detections_stay_in_frame size results rotate_180 t_start t_end :
  Forall (fun box => in_image size (box_x1 box) (box_y1 box)
                     /\ in_image size (box_x2 box) (box_y2 box))
    (first_boxes results) ->
  Forall (fun v => in_image size (x1 (v_bbox v)) (y1 (v_bbox v))
                   /\ in_image size (x2 (v_bbox v)) (y2 (v_bbox v))
                   /\ in_image size (v_center_x v) (v_center_y v))
    (detections (detect_from_array size results rotate_180 t_start t_end)).
Proof.
  unfold detect_from_array, detect_vehicles, first_boxes, in_image.
  destruct results as [|boxes _]; [destruct rotate_180; constructor|].
  intros Hall. destruct rotate_180; cbn [detections].
  - induction Hall as [|b boxes Hb _ IH]; simpl; constructor; [|exact IH].
    cbn. assert ((box_x1 b + box_x2 b) / 2 == (box_x1 b + box_x2 b) * (1#2))
      as Ex by field.
    assert ((box_y1 b + box_y2 b) / 2 == (box_y1 b + box_y2 b) * (1#2))
      as Ey by field.
    rewrite Ex, Ey. lra.
  - induction Hall as [|b boxes Hb _ IH]; simpl; constructor; [|exact IH].
    cbn. assert ((box_x1 b + box_x2 b) / 2 == (box_x1 b + box_x2 b) * (1#2))
      as Ex by field.
    assert ((box_y1 b + box_y2 b) / 2 == (box_y1 b + box_y2 b) * (1#2))
      as Ey by field.
    rewrite Ex, Ey. lra.
Qed.

Lemma detections_stay_in_frame_witness :
  let box := {| box_cls := 2; box_conf := 9#10; box_x1 := 100; box_y1 := 50;
                box_x2 := 300; box_y2 := 250 |} in
  Forall (fun box => in_image (1920, 1080)%Z (box_x1 box) (box_y1 box)
                     /\ in_image (1920, 1080)%Z (box_x2 box) (box_y2 box))
    (first_boxes [[box]])
  /\ Forall (fun v => in_image (1920, 1080)%Z (x1 (v_bbox v)) (y1 (v_bbox v))
                      /\ in_image (1920, 1080)%Z (x2 (v_bbox v)) (y2 (v_bbox v))
                      /\ in_image (1920, 1080)%Z (v_center_x v) (v_center_y v))
       (detections (detect_from_array (1920, 1080)%Z [[box]] true 0 (1#10))).
Proof.
  intros box.
  assert (Forall (fun box => in_image (1920, 1080)%Z (box_x1 box) (box_y1 box)
                             /\ in_image (1920, 1080)%Z (box_x2 box)
                                  (box_y2 box))
            (first_boxes [[box]])) as Hall.
  { repeat constructor; vm_compute; discriminate. }
  split; [exact Hall|].
  exact (detections_stay_in_frame (1920, 1080)%Z [[box]] true 0 (1#10) Hall).
Defined.

End InferenceFacts.

(** * Properties of the inference statistics *)

Section StatsFacts.
Import EdgeApp.
Context `{R : Rounding}.
Local Unset Implicit Arguments.

(** One frame's figures: inference time, detections, events. *)
Definition Sample3 : Set := (Q * Z * Z)%type.

Fixpoint update_all (st : InferenceStats) (xs : list Sample3)
  : result InferenceStats :=
  match xs with
  | [] => Ok st
  | (ms, nd, ne) :: rest =>
      st' <- _update_inference_stats st ms nd ne ;;
      update_all st' rest
  end.

Definition times (xs : list Sample3) : list Q :=
  map (fun x => fst (fst x)) xs.

Definition sum_detections (xs : list Sample3) : Z :=
  fold_right (fun x acc => (snd (fst x) + acc)%Z) 0%Z xs.

Definition sum_events (xs : list Sample3) : Z :=
  fold_right (fun x acc => (snd x + acc)%Z) 0%Z xs.

Lemma last_cons {A : Type} (l : list A) (a d : A) :
  last (a :: l) d = last l a.
Proof.
  revert a d. induction l as [|b l IH]; intros a d; [reflexivity|].
  change (last (a :: b :: l) d) with (last (b :: l) d).
  rewrite (IH b d). symmetry. apply IH.
Qed.

(** X24 -- the totals of the inference statistics. Whatever the rounding
    of the float operations, from statistics whose frame count is not
    negative any sequence of [_update_inference_stats] calls returns, the
    division never raising; afterwards [total_frames] has grown by the
    number of calls, [total_detections] and [total_events] by the sums of
    what the calls were given, and [last_inference_ms] is the time given
    to the last call. *)
Theorem inference_totals_are_sums (xs : list Sample3) :
  forall st0 : InferenceStats,
  (0 <= total_frames st0)%Z ->
  exists st,
    update_all st0 xs = Ok st
    /\ total_frames st = (total_frames st0 + Z.of_nat (List.length xs))%Z
    /\ total_detections st = (total_detections st0 + sum_detections xs)%Z
    /\ total_events st = (total_events st0 + sum_events xs)%Z
    /\ last_inference_ms st = last (times xs) (last_inference_ms st0).
Proof.
  induction xs as [|[[ms nd] ne] xs IH]; intros st0 Hn.
  - exists st0. simpl. repeat split; lia.
  - cbn [update_all]. unfold _update_inference_stats.
    destruct (Z.eqb_spec (total_frames st0 + 1) 0) as [H0|Hne]; [lia|].
    cbn [bind].
    set (st1 := {| total_frames := total_frames st0 + 1;
                   total_detections := total_detections st0 + nd;
                   total_events := total_events st0 + ne;
                   avg_inference_ms := _;
                   last_inference_ms := ms |}).
    destruct (IH st1) as (st & Hrun & Ht & Hd & He & Hlast);
      [simpl; lia|].
    exists st. split; [exact Hrun|].
    cbn [total_frames total_detections total_events last_inference_ms st1]
      in Ht, Hd, He, Hlast.
    split; [rewrite Ht; simpl List.length; lia|].
    split; [rewrite Hd; simpl; lia|].
    split; [rewrite He; simpl; lia|].
    rewrite Hlast. unfold times. cbn [map fst]. symmetry. apply last_cons.
Qed.

End StatsFacts.


(** * Properties of one turn of the processing loop *)

Section LoopFacts.
Import EdgeApp.
Context `{G : Geometry} `{C : Codec} `{R : Rounding}.
Variable event_json : Occupancy.Event -> Json.
Variable summary_json : Occupancy.Summary -> Json.
Local Unset Implicit Arguments.

Lemma buffer_events_posted (self : StatsSender.StatsSender) events v now b :
  StatsSender.posted (StatsSender._buffer_events self events v now b)
  = StatsSender.posted self
  /\ StatsSender.server_url (StatsSender._buffer_events self events v now b)
     = StatsSender.server_url self.
Proof. unfold StatsSender._buffer_events. destruct b; split; reflexivity. Qed.

Lemma send_slot_events_posted (self : StatsSender.StatsSender) events v now
    response b :
  events <> [] ->
  let r := StatsSender.send_slot_events self events v now response b in
  StatsSender.posted (fst r)
  = StatsSender.posted self
    ++ [{| StatsSender.url := StatsSender.server_url self ++ "/api/v2/events";
           StatsSender.body :=
             StatsSender.EventsBody events v (isoformat now) false |}]
  /\ StatsSender.server_url (fst r) = StatsSender.server_url self.
Proof.
  intros Hne. unfold StatsSender.send_slot_events.
  destruct events as [|e es]; [congruence|].
  destruct response as [code|]; [destruct (Z.eqb code 200)|]; cbn [fst];
    try (split; reflexivity);
    destruct (buffer_events_posted
                (StatsSender.post self "/api/v2/events"
                   (StatsSender.EventsBody (e :: es) v (isoformat now) false))
                (e :: es) v now b) as [-> ->]; split; reflexivity.
Qed.

Lemma send_summary_effect (self : StatsSender.StatsSender) summary now
    response :
  let r := StatsSender.send_summary self summary now response in
  StatsSender.posted (fst r)
  = StatsSender.posted self
    ++ [{| StatsSender.url := StatsSender.server_url self ++ "/api/v2/summary";
           StatsSender.body := StatsSender.SummaryBody summary (isoformat now) |}]
  /\ StatsSender.server_url (fst r) = StatsSender.server_url self
  /\ stats_total (StatsSender._stats (fst r))
     = stats_total (StatsSender._stats self).
Proof.
  unfold StatsSender.send_summary.
  destruct response as [code|]; [destruct (Z.eqb code 200)|];
    repeat split; reflexivity.
Qed.

Lemma send_processing_log_effect (self : StatsSender.StatsSender) fid ms nd ne
    now response :
  let r := StatsSender.send_processing_log self fid ms nd ne now response in
  StatsSender.posted (fst r)
  = StatsSender.posted self
    ++ [{| StatsSender.url :=
             StatsSender.server_url self ++ "/api/v2/processing-log";
           StatsSender.body :=
             StatsSender.LogBody fid (isoformat now) ms nd ne |}]
  /\ stats_total (StatsSender._stats (fst r))
     = stats_total (StatsSender._stats self).
Proof.
  unfold StatsSender.send_processing_log.
  destruct response as [code|]; repeat split; reflexivity.
Qed.

(** X25 -- what one turn of the loop sends. On a well-formed slot map and
    with a non-negative frame count, a turn of the processing loop runs to
    its end: the engine returns; the sender posts the events of the turn
    in one request if there are any, then the summary taken after the
    update, then the processing log with the numbers of detections and
    events; the MQTT client is given one slot message per event and the
    same summary; every event is counted by the sender as sent, buffered
    or failed; and the frame, detection and event totals grow by one, by
    the number of detections and by the number of events. *)
Theorem one_turn_sends_everything (app : App) (turn : Turn) :
  slots_wf (Occupancy.slots (occupancy app)) ->
  (0 <= total_frames (_inference_stats app))%Z ->
  let found :=
    Inference.detect_from_array (frame_size turn) (results turn) true
      (t_start turn) (t_end turn) in
  let detections := map detection_of (Inference.detections found) in
  let app' := process_frame event_json summary_json app turn in
  exists occupancy' events,
    Occupancy.process_detections (occupancy app) detections (timestamp turn)
      (clock turn) = Ok (occupancy', events)
    /\ occupancy app' = occupancy'
    /\ StatsSender.posted (stats_sender app')
       = StatsSender.posted (stats_sender app)
         ++ match events with
            | [] => []
            | _ =>
                [{| StatsSender.url :=
                      StatsSender.server_url (stats_sender app)
                      ++ "/api/v2/events";
                    StatsSender.body :=
                      StatsSender.EventsBody (map event_json events)
                        "yolov8m-edge" (isoformat (events_now turn)) false |}]
            end
         ++ [{| StatsSender.url :=
                  StatsSender.server_url (stats_sender app)
                  ++ "/api/v2/summary";
                StatsSender.body :=
                  StatsSender.SummaryBody
                    (summary_json (Occupancy.get_summary occupancy'))
                    (isoformat (summary_now turn)) |};
             {| StatsSender.url :=
                  StatsSender.server_url (stats_sender app)
                  ++ "/api/v2/processing-log";
                StatsSender.body :=
                  StatsSender.LogBody (frame_id turn)
                    (isoformat (log_now turn))
                    (Inference.inference_time_ms found)
                    (StatsSender.len detections) (StatsSender.len events) |}]
    /\ published app'
       = published app
         ++ map (publish_slot_state (mqtt_node_id app)) events
         ++ [publish_summary (mqtt_node_id app)
               (Occupancy.get_summary occupancy')]
    /\ stats_total (StatsSender._stats (stats_sender app'))
       = (stats_total (StatsSender._stats (stats_sender app))
          + StatsSender.len events)%Z
    /\ total_frames (_inference_stats app')
       = (total_frames (_inference_stats app) + 1)%Z
    /\ total_detections (_inference_stats app')
       = (total_detections (_inference_stats app)
          + StatsSender.len detections)%Z
    /\ total_events (_inference_stats app')
       = (total_events (_inference_stats app) + StatsSender.len events)%Z.
Proof.
  intros Hwf Hframes found detections app'.
  set (f := {| Occupancy.fr_detections := detections;
               Occupancy.fr_timestamp := timestamp turn;
               Occupancy.fr_time := clock turn |}).
  pose proof (process_detections_ok (occupancy app) f Hwf) as Hrun.
  cbn [Occupancy.fr_detections Occupancy.fr_timestamp Occupancy.fr_time f]
    in Hrun.
  eexists _, _. split; [exact Hrun|].
  subst app'. unfold process_frame. fold found. fold detections.
  rewrite Hrun.
  set (occupancy' := Occupancy.set_slots (occupancy app) _).
  set (events := events_of (occupancy app) f _).
  unfold _update_inference_stats.
  destruct (Z.eqb_spec (total_frames (_inference_stats app) + 1) 0)
    as [H0|_]; [lia|].
  cbn [occupancy stats_sender published _inference_stats total_frames
       total_detections total_events].
  assert (StatsSender.len detections
          = StatsSender.len (Inference.detections found)) as Hlen
    by (unfold StatsSender.len, detections; now rewrite length_map).
  rewrite Hlen.
  destruct (send_processing_log_effect
              (fst (StatsSender.send_summary
                      match events with
                      | [] => stats_sender app
                      | _ :: _ =>
                          fst (StatsSender.send_slot_events (stats_sender app)
                                 (map event_json events)
                                 (Inference.model_version found)
                                 (events_now turn) (events_response turn)
                                 (db_ok turn))
                      end
                      (summary_json (Occupancy.get_summary occupancy'))
                      (summary_now turn) (summary_response turn)))
              (frame_id turn) (Inference.inference_time_ms found)
              (StatsSender.len (Inference.detections found))
              (StatsSender.len events) (log_now turn) (log_response turn))
    as [Hp3 Ht3].
  destruct (send_summary_effect
              match events with
              | [] => stats_sender app
              | _ :: _ =>
                  fst (StatsSender.send_slot_events (stats_sender app)
                         (map event_json events)
                         (Inference.model_version found)
                         (events_now turn) (events_response turn)
                         (db_ok turn))
              end
              (summary_json (Occupancy.get_summary occupancy'))
              (summary_now turn) (summary_response turn))
    as (Hp2 & Hu2 & Ht2).
  rewrite Hp3, Ht3, Hp2, Hu2, Ht2. clear Hp3 Ht3 Hp2 Hu2 Ht2.
  split; [reflexivity|].
  destruct events as [|e es] eqn:Ee.
  - repeat split; trivial.
    + simpl. now rewrite <- app_assoc.
    + unfold StatsSender.len. simpl. lia.
  - assert (map event_json (e :: es) <> []) as Hne by discriminate.
    destruct (send_slot_events_posted (stats_sender app)
                (map event_json (e :: es)) (Inference.model_version found)
                (events_now turn) (events_response turn) (db_ok turn) Hne)
      as [Hp1 Hu1].
    destruct (send_slot_events_accounts (stats_sender app)
                (map event_json (e :: es)) (Inference.model_version found)
                (events_now turn) (events_response turn) (db_ok turn))
      as (Ht1 & _).
    rewrite Hp1, Hu1, Ht1.
    repeat split; trivial.
    all: try (rewrite <- !app_assoc; reflexivity).
    all: unfold StatsSender.len; now rewrite length_map.
Qed.

End LoopFacts.


(** * Runs of the further properties on the sample data *)

Section ExtraRuns.
Import Occupancy.
Local Existing Instance Shapely.geometry.
Local Existing Instance Sample.codec.
Local Unset Implicit Arguments.

Definition first_frame : Frame := Lot.frame parked 0.

Lemma slot_A_loaded : Py.getitem (slots lot) "A" = Ok slot_A.
Proof. vm_compute. reflexivity. Qed.

Lemma events_are_the_state_changes_witness :
  slots_wf (slots lot)
  /\ Py.getitem (slots lot) "A" = Ok slot_A
  /\ exists self' evs s',
       process_detections lot (fr_detections first_frame)
         (fr_timestamp first_frame) (fr_time first_frame) = Ok (self', evs)
       /\ Py.getitem (slots self') "A" = Ok s'.
Proof.
  split; [exact lot_wf|]. split; [exact slot_A_loaded|].
  destruct (events_are_the_state_changes lot first_frame "A" slot_A lot_wf
              slot_A_loaded) as (self' & evs & s' & Hrun & Hget & _).
  exists self', evs, s'. now split.
Defined.

Lemma events_in_slot_order_witness :
  slots_wf (slots lot)
  /\ exists self' evs,
       process_detections lot (fr_detections first_frame)
         (fr_timestamp first_frame) (fr_time first_frame) = Ok (self', evs)
       /\ NoDup (map ev_slot_id evs).
Proof.
  split; [exact lot_wf|].
  destruct (events_in_slot_order lot first_frame lot_wf)
    as (self' & evs & Hrun & _ & Hnd & _).
  exists self', evs. now split.
Defined.

Lemma geometry_is_fixed_witness :
  slots_wf (slots lot)
  /\ exists self' outs,
       run lot (first_frame :: arrival) = Ok (self', outs)
       /\ Py.keys (slots self') = Py.keys (slots lot).
Proof.
  split; [exact lot_wf|].
  destruct (geometry_is_fixed lot (first_frame :: arrival) lot_wf)
    as (self' & outs & Hrun & _ & Hkeys & _).
  exists self', outs. now split.
Defined.

Lemma unknown_is_only_initial_witness :
  slots_wf (slots lot)
  /\ Py.getitem (slots lot) "A" = Ok slot_A
  /\ exists self' outs,
       run lot (first_frame :: arrival) = Ok (self', outs)
       /\ forall evs e, In evs outs -> In e evs ->
                        ev_state e <> ev_previous_state e.
Proof.
  split; [exact lot_wf|]. split; [exact slot_A_loaded|].
  destruct (unknown_is_only_initial lot (first_frame :: arrival) "A" slot_A
              lot_wf slot_A_loaded)
    as (self' & outs & s' & Hrun & _ & _ & Hev).
  exists self', outs. split; [exact Hrun|].
  intros evs e Hevs He. now apply (Hev evs e).
Defined.

Lemma confidence_stays_in_range_witness :
  Forall (fun f => forall d, In d (fr_detections f) ->
                             unit_interval (det_confidence d))
    (first_frame :: arrival)
  /\ exists self' outs,
       run (__init__ (Some Lot.config) (1#10) (1#2) (1#2) (1920, 1080)
              (fun _ => 0)) (first_frame :: arrival) = Ok (self', outs)
       /\ forall evs e, In evs outs -> In e evs ->
                        unit_interval (ev_confidence e).
Proof.
  assert (Forall (fun f => forall d, In d (fr_detections f) ->
                                     unit_interval (det_confidence d))
            (first_frame :: arrival)) as Hall.
  { repeat constructor; destruct H as [<-|[]]; vm_compute; discriminate. }
  split; [exact Hall|].
  destruct (confidence_stays_in_range (Some Lot.config) (1#10) (1#2) (1#2)
              (1920, 1080) (fun _ => 0) (first_frame :: arrival) Hall)
    as (self' & outs & Hrun & _ & Hev).
  exists self', outs. now split.
Defined.

(** Slot A alone, occupied, with a given exit threshold; the car leaves. *)
Definition occupied_A : SlotState :=
  {| slot_id := "A"; polygon := Lot.square_A; current_state := "occupied";
     confidence := 9#10; last_change := 0; pending_state := None;
     pending_since := None; dwell_start := 0 |}.

Definition occupied_lot (exit : Q) : OccupancyProcessor :=
  set_slots (Lot.processor 3 (6#10) exit) [("A"%string, occupied_A)].

Definition leaving : list Frame :=
  [Lot.frame [] 0; Lot.frame [] 1; Lot.frame [] 4].

Lemma occupied_lot_wf exit : slots_wf (slots (occupied_lot exit)).
Proof.
  split.
  - repeat constructor. simpl. tauto.
  - repeat constructor. simpl. intros H. now elim H.
Qed.

Lemma departure_is_confirmed_witness :
  slots_wf (slots (occupied_lot (4#10)))
  /\ Py.getitem (slots (occupied_lot (4#10))) "A" = Ok occupied_A
  /\ current_state occupied_A = "occupied"%string
  /\ pending_state occupied_A <> Some "free"%string
  /\ exit_threshold (occupied_lot (4#10)) <= 1
  /\ Forall (empty_of (polygon occupied_A)) leaving
  /\ exists self' outs s',
       run (occupied_lot (4#10)) leaving = Ok (self', outs)
       /\ Py.getitem (slots self') "A" = Ok s'
       /\ current_state s' = "free"%string.
Proof.
  assert (pending_state occupied_A <> Some "free"%string) as Hpend
    by (simpl; discriminate).
  assert (exit_threshold (occupied_lot (4#10)) <= 1) as Hexit
    by (vm_compute; discriminate).
  assert (Forall (empty_of (polygon occupied_A)) leaving) as Hall
    by (repeat constructor; intros d []).
  split; [apply occupied_lot_wf|]. split; [reflexivity|].
  split; [reflexivity|]. split; [exact Hpend|]. split; [exact Hexit|].
  split; [exact Hall|].
  destruct (departure_is_confirmed (occupied_lot (4#10)) "A" occupied_A
              (Lot.frame [] 0) [Lot.frame [] 1; Lot.frame [] 4]
              (occupied_lot_wf (4#10)) eq_refl eq_refl Hpend Hexit Hall)
    as (self' & outs & s' & Hrun & Hget & _ & _ & Hfin).
  exists self', outs, s'. split; [exact Hrun|]. split; [exact Hget|].
  apply Hfin. apply Exists_cons_tl. apply Exists_cons_hd.
  vm_compute. discriminate.
Defined.

Lemma no_departure_above_one_witness :
  slots_wf (slots (occupied_lot 2))
  /\ Py.getitem (slots (occupied_lot 2)) "A" = Ok occupied_A
  /\ current_state occupied_A = "occupied"%string
  /\ 1 < exit_threshold (occupied_lot 2)
  /\ exists self' outs s',
       run (occupied_lot 2) leaving = Ok (self', outs)
       /\ Py.getitem (slots self') "A" = Ok s'
       /\ current_state s' = "occupied"%string.
Proof.
  assert (1 < exit_threshold (occupied_lot 2)) as Hexit
    by (vm_compute; reflexivity).
  split; [apply occupied_lot_wf|]. split; [reflexivity|].
  split; [reflexivity|]. split; [exact Hexit|].
  destruct (no_departure_above_one (occupied_lot 2) "A" occupied_A leaving
              (occupied_lot_wf 2) eq_refl eq_refl Hexit)
    as (self' & outs & s' & Hrun & Hget & Hcur & _).
  exists self', outs, s'. auto.
Defined.

Lemma free_lot_wf : slots_wf (slots free_lot).
Proof.
  split.
  - repeat constructor. simpl. tauto.
  - repeat constructor. simpl. intros H. now elim H.
Qed.

Lemma interrupted_window_restarts_witness :
  slots_wf (slots free_lot)
  /\ Py.getitem (slots free_lot) "A" = Ok free_A
  /\ "occupied"%string <> current_state free_A
  /\ presents free_lot (current_state free_A) (polygon free_A)
       (current_state free_A) (Lot.frame [] 0)
  /\ Forall (presents free_lot (current_state free_A) (polygon free_A)
               "occupied") [Lot.frame parked 1; Lot.frame parked 5]
  /\ exists self' quiet outs,
       run free_lot [Lot.frame [] 0; Lot.frame parked 1; Lot.frame parked 5]
       = Ok (self', quiet :: outs)
       /\ events_for "A" quiet = [].
Proof.
  assert ("occupied"%string <> current_state free_A) as Hne
    by (simpl; discriminate).
  assert (presents free_lot (current_state free_A) (polygon free_A)
            (current_state free_A) (Lot.frame [] 0)) as Hg
    by (vm_compute; reflexivity).
  assert (Forall (presents free_lot (current_state free_A) (polygon free_A)
                    "occupied") [Lot.frame parked 1; Lot.frame parked 5])
    as Hall by (repeat constructor; vm_compute; reflexivity).
  split; [exact free_lot_wf|]. split; [reflexivity|].
  split; [exact Hne|]. split; [exact Hg|]. split; [exact Hall|].
  destruct (interrupted_window_restarts free_lot "A" free_A "occupied"
              (Lot.frame [] 0) (Lot.frame parked 1) [Lot.frame parked 5]
              free_lot_wf eq_refl Hne Hg Hall)
    as (self' & quiet & outs & Hrun & Hquiet & _).
  exists self', quiet, outs. now split.
Defined.

Lemma detection_order_is_irrelevant_witness :
  let a := Lot.car 150 150 (9#10) in
  let b := Lot.car 160 160 (7#10) in
  NoDup (Py.keys (slots lot))
  /\ Permutation [a; b] [b; a]
  /\ exists occ conf conf',
       scan_detections (slots lot) [a; b]
         (map (fun kv => (fst kv, false)) (slots lot),
          map (fun kv => (fst kv, 0)) (slots lot)) = Ok (occ, conf)
       /\ scan_detections (slots lot) [b; a]
            (map (fun kv => (fst kv, false)) (slots lot),
             map (fun kv => (fst kv, 0)) (slots lot)) = Ok (occ, conf').
Proof.
  intros a b.
  assert (Permutation [a; b] [b; a]) as Hp by apply perm_swap.
  split; [apply lot_wf|]. split; [exact Hp|].
  destruct (detection_order_is_irrelevant (slots lot) [a; b] [b; a]
              (proj1 lot_wf) Hp)
    as (occ & conf & conf' & H1 & H2 & _).
  exists occ, conf, conf'. now split.
Defined.

Lemma loaded_slots_are_scaled_witness :
  Py.getitem
    (slots (__init__ (Some Lot.config) (1#10) (1#2) (1#2) (960, 540)
              (fun _ => 0))) "A"
  = Ok (new_SlotState "A"
          (map (fun p => (fst p * (960 / 1920), snd p * (540 / 1080)))
             Lot.square_A) 0 0)
  /\ exists slot_def,
       In slot_def
         (match cfg_slots Lot.config with Some l => l | None => [] end)
       /\ def_slot_id slot_def = "A"%string.
Proof.
  assert (Py.getitem
            (slots (__init__ (Some Lot.config) (1#10) (1#2) (1#2) (960, 540)
                      (fun _ => 0))) "A"
          = Ok (new_SlotState "A"
                  (map (fun p => (fst p * (960 / 1920), snd p * (540 / 1080)))
                     Lot.square_A) 0 0)) as Hget
    by (vm_compute; reflexivity).
  split; [exact Hget|].
  destruct (loaded_slots_are_scaled Lot.config (1#10) (1#2) (1#2) (960, 540)
              (fun _ => 0) "A" _ Hget) as (slot_def & Hin & Hid & _).
  exists slot_def. now split.
Defined.

Definition def_A : SlotDef :=
  {| def_slot_id := "A"; def_poly := Lot.square_A |}.

Definition def_A_moved : SlotDef :=
  {| def_slot_id := "A";
     def_poly := [(500, 500); (600, 500); (600, 600); (500, 600)] |}.

Definition def_flat : SlotDef :=
  {| def_slot_id := "C"; def_poly := [(0, 0); (10, 10)] |}.

Lemma last_declaration_wins_witness :
  ~ fst (1920, 1080) == 0
  /\ ~ snd (1920, 1080) == 0
  /\ Forall (buildable (fst (1920, 1080) / fst (1920, 1080))
               (snd (1920, 1080) / snd (1920, 1080))) [def_A; def_A_moved]
  /\ In def_A [def_A; def_A_moved]
  /\ last_def (def_slot_id def_A) [def_A; def_A_moved] = Some def_A_moved.
Proof.
  assert (~ fst (1920, 1080) == 0) as Hw by (vm_compute; discriminate).
  assert (~ snd (1920, 1080) == 0) as Hh by (vm_compute; discriminate).
  assert (Forall (buildable (fst (1920, 1080) / fst (1920, 1080))
                    (snd (1920, 1080) / snd (1920, 1080)))
            [def_A; def_A_moved]) as Hall
    by (repeat constructor; eexists; reflexivity).
  assert (In def_A [def_A; def_A_moved]) as Hin by now left.
  repeat (split; [assumption|]).
  destruct (last_declaration_wins None (1920, 1080) [def_A; def_A_moved]
              (1#10) (1#2) (1#2) (1920, 1080) (fun _ => 0) def_A
              Hw Hh Hall Hin) as (d & s & Hlast & _).
  rewrite Hlast. vm_compute in Hlast. symmetry. exact Hlast.
Defined.

Lemma bad_polygon_ends_loading_witness :
  Forall (buildable (fst (1920, 1080) / fst (1920, 1080))
            (snd (1920, 1080) / snd (1920, 1080))) [def_A]
  /\ Polygon_new
       (scaled (fst (1920, 1080) / fst (1920, 1080))
          (snd (1920, 1080) / snd (1920, 1080)) (def_poly def_flat))
     = Raise ValueError
  /\ Py.keys
       (slots (__init__
                 (Some {| cfg_roi_version := None;
                          cfg_image_size := Some (1920, 1080);
                          cfg_slots := Some ([def_A] ++ def_flat
                                               :: [def_A_moved]) |})
                 (1#10) (1#2) (1#2) (1920, 1080) (fun _ => 0)))
     = ["A"%string].
Proof.
  assert (Forall (buildable (fst (1920, 1080) / fst (1920, 1080))
                    (snd (1920, 1080) / snd (1920, 1080))) [def_A]) as Hgood
    by (repeat constructor; eexists; reflexivity).
  assert (Polygon_new
            (scaled (fst (1920, 1080) / fst (1920, 1080))
               (snd (1920, 1080) / snd (1920, 1080)) (def_poly def_flat))
          = Raise ValueError) as Hbad by reflexivity.
  split; [exact Hgood|]. split; [exact Hbad|].
  rewrite (bad_polygon_ends_loading None (1920, 1080) [def_A] def_flat
             [def_A_moved] (1#10) (1#2) (1#2) (1920, 1080) (fun _ => 0)
             ValueError Hgood Hbad).
  reflexivity.
Defined.

Lemma unusable_file_gives_no_slots_witness :
  (@None SlotsConfig = None
   \/ exists config size,
        @None SlotsConfig = Some config /\ cfg_image_size config = Some size
        /\ (fst size == 0 \/ snd size == 0))
  /\ slots (__init__ None 3 (6#10) (4#10) (1920, 1080) (fun _ => 0)) = [].
Proof.
  assert (@None SlotsConfig = None
          \/ exists config size,
               @None SlotsConfig = Some config
               /\ cfg_image_size config = Some size
               /\ (fst size == 0 \/ snd size == 0)) as Hfile by now left.
  split; [exact Hfile|].
  exact (proj1 (unusable_file_gives_no_slots None 3 (6#10) (4#10) (1920, 1080)
                  (fun _ => 0) [] Hfile)).
Defined.

End ExtraRuns.

(** Runs of the sender: a buffer with a backlog, and a new one. *)

Section SenderExtraRuns.
Import StatsSender.
Local Existing Instance Sample.codec.
Local Unset Implicit Arguments.

(** Three buffered rows; the payload of the second one is not JSON. *)
Definition backlog_rows : list Row :=
  [Sample.row 1 "event=a;yolov8m-edge"; Sample.row 2 "garbled";
   Sample.row 3 "event=c;yolov8m-edge"].

Definition loaded_sender : StatsSender := Sample.sender backlog_rows 3.

Lemma loaded_sender_inv : buffer_inv (event_buffer loaded_sender).
Proof.
  split; [split|].
  - repeat constructor; vm_compute; intuition discriminate.
  - repeat constructor; vm_compute; discriminate.
  - repeat constructor; vm_compute; discriminate.
Qed.

Lemma fresh_sender_inv : buffer_inv (event_buffer Sample.fresh_sender).
Proof. split; [split|]; constructor. Qed.

Lemma replay_pops_the_oldest_witness :
  let r := replay_buffered_events loaded_sender 2 Sample.noon (Status 200) in
  buffer_inv (event_buffer loaded_sender)
  /\ Forall readable (firstn 2 (rows (event_buffer loaded_sender)))
  /\ decoded (firstn 2 (rows (event_buffer loaded_sender))) <> []
  /\ rows (event_buffer (fst r))
     = skipn 2 (rows (event_buffer loaded_sender)).
Proof.
  intros r.
  assert (Forall readable (firstn 2 (rows (event_buffer loaded_sender))))
    as Hread by (repeat constructor; vm_compute; discriminate).
  assert (decoded (firstn 2 (rows (event_buffer loaded_sender))) <> [])
    as Hsome by (vm_compute; discriminate).
  split; [exact loaded_sender_inv|]. split; [exact Hread|].
  split; [exact Hsome|].
  exact (proj1 (replay_pops_the_oldest loaded_sender 2 Sample.noon
                  loaded_sender_inv Hread Hsome)).
Defined.

Definition two_events : list Json := ["a"%string; "b"%string].

Lemma two_events_read_back :
  Forall (fun e => loads_event (dumps_event e "yolov8m-edge") = Decoded e)
    two_events.
Proof. repeat constructor. Qed.

Lemma buffered_events_are_replayed_witness :
  let sent :=
    send_slot_events Sample.fresh_sender two_events "yolov8m-edge" Sample.noon
      (Status 503) true in
  let r := replay_buffered_events (fst sent) 50 Sample.noon (Status 200) in
  rows (event_buffer Sample.fresh_sender) = []
  /\ two_events <> []
  /\ not_200 (Status 503) = true
  /\ Forall (fun e => loads_event (dumps_event e "yolov8m-edge") = Decoded e)
       two_events
  /\ (List.length two_events <= 50)%nat
  /\ snd sent = false
  /\ rows (event_buffer (fst r)) = [].
Proof.
  intros sent r.
  assert (two_events <> []) as Hne by discriminate.
  assert (List.length two_events <= 50)%nat as Hlen by (simpl; lia).
  split; [reflexivity|]. split; [exact Hne|]. split; [reflexivity|].
  split; [exact two_events_read_back|]. split; [exact Hlen|].
  destruct (buffered_events_are_replayed Sample.fresh_sender two_events
              "yolov8m-edge" Sample.noon (Status 503) Sample.noon 50
              eq_refl Hne eq_refl two_events_read_back Hlen)
    as (Hsent & _ & _ & _ & Hrows & _).
  split; [exact Hsent|exact Hrows].
Defined.

(** A row whose payload is JSON without an event. *)
Definition blocked_sender : StatsSender :=
  Sample.sender [Sample.row 1 "event="; Sample.row 2 "event=b;yolov8m-edge"] 2.

Lemma lookup_error_blocks_replay_witness :
  Exists (fun r => loads_event (payload r) = LookupError)
    (select_oldest (event_buffer blocked_sender) 10)
  /\ replay_buffered_events blocked_sender 10 Sample.noon (Status 200)
     = (blocked_sender, 0%Z).
Proof.
  assert (Exists (fun r => loads_event (payload r) = LookupError)
            (select_oldest (event_buffer blocked_sender) 10)) as Hrow
    by (apply Exists_cons_hd; reflexivity).
  split; [exact Hrow|].
  exact (lookup_error_blocks_replay blocked_sender 10 Sample.noon (Status 200)
           Hrow).
Defined.

(** A failed send, a replay that empties the buffer, and a second failed
    send. *)
Definition busy_day : list Call :=
  [SendSlotEvents two_events "yolov8m-edge" Sample.noon (Status 500) true;
   Replay 10 Sample.noon (Status 200);
   SendSummary "summary"%string Sample.noon RequestException;
   SendSlotEvents two_events "yolov8m-edge" Sample.noon RequestException true].

Lemma row_ids_are_never_reused_witness :
  buffer_inv (event_buffer Sample.fresh_sender)
  /\ extends Sample.fresh_sender (calls Sample.fresh_sender busy_day).
Proof.
  split; [exact fresh_sender_inv|].
  exact (row_ids_are_never_reused Sample.fresh_sender busy_day
           fresh_sender_inv).
Defined.

Lemma busy_day_encodes : Forall encodes busy_day.
Proof.
  repeat (apply Forall_cons; [simpl; try exact two_events_read_back; exact I|]).
  constructor.
Qed.

Lemma depth_follows_the_counters_witness :
  buffer_inv (event_buffer Sample.fresh_sender)
  /\ well_encoded Sample.fresh_sender
  /\ Forall encodes busy_day
  /\ buffer_depth (calls Sample.fresh_sender busy_day)
     = (events_buffered (_stats (calls Sample.fresh_sender busy_day))
        - events_replayed (_stats (calls Sample.fresh_sender busy_day)))%Z.
Proof.
  assert (well_encoded Sample.fresh_sender) as Hwell by constructor.
  split; [exact fresh_sender_inv|]. split; [exact Hwell|].
  split; [exact busy_day_encodes|].
  pose proof (depth_follows_the_counters Sample.fresh_sender busy_day
                fresh_sender_inv Hwell busy_day_encodes) as Hdepth.
  change (buffer_depth Sample.fresh_sender) with 0%Z in Hdepth.
  change (events_buffered (_stats Sample.fresh_sender)) with 0%Z in Hdepth.
  change (events_replayed (_stats Sample.fresh_sender)) with 0%Z in Hdepth.
  lia.
Defined.

End SenderExtraRuns.

(** A turn of the loop: the camera is mounted upside down, so a car the
    model sees at the far corner of the frame is a car on slot A. *)

Section LoopRuns.
Import EdgeApp.
Local Existing Instance Shapely.geometry.
Local Existing Instance Sample.codec.
Local Existing Instance Sample.binary64.
Local Unset Implicit Arguments.

Definition seen_box : Inference.Box :=
  {| Inference.box_cls := 2; Inference.box_conf := 9#10;
     Inference.box_x1 := 1720; Inference.box_y1 := 880;
     Inference.box_x2 := 1820; Inference.box_y2 := 980 |}.

Definition first_turn : Turn :=
  {| frame_id := 1; timestamp := Sample.noon; frame_size := (1920, 1080)%Z;
     results := [[seen_box]]; t_start := 0; t_end := 1#10; clock := 0;
     events_now := Sample.noon; events_response := Status 200; db_ok := true;
     summary_now := Sample.noon; summary_response := Status 200;
     log_now := Sample.noon; log_response := RequestException |}.

Definition edge_app : App :=
  {| occupancy := lot; stats_sender := Sample.fresh_sender;
     mqtt_node_id := "fass-edge-01"; published := [];
     _inference_stats := initial_stats |}.

Lemma one_turn_sends_everything_witness :
  let app' :=
    process_frame Occupancy.ev_slot_id (fun _ => "summary"%string) edge_app
      first_turn in
  slots_wf (Occupancy.slots (occupancy edge_app))
  /\ (0 <= total_frames (_inference_stats edge_app))%Z
  /\ total_frames (_inference_stats app') = 1%Z
  /\ total_detections (_inference_stats app') = 1%Z.
Proof.
  intros app'.
  assert (0 <= total_frames (_inference_stats edge_app))%Z as Hpos
    by (simpl; lia).
  split; [exact lot_wf|]. split; [exact Hpos|].
  destruct (one_turn_sends_everything (C := Sample.codec)
              Occupancy.ev_slot_id
              (fun _ => "summary"%string) edge_app first_turn lot_wf Hpos)
    as (occupancy' & events & _ & _ & _ & _ & _ & Hframes & Hfound & _).
  split; [exact Hframes|exact Hfound].
Defined.

End LoopRuns.

(** The statistics under the rounding of binary64. *)

Section StatsRuns.
Import EdgeApp.
Local Existing Instance Sample.binary64.
Local Unset Implicit Arguments.

(** Three frames that took 0.1, 0.2 and 0.3 ms, as floats. *)
Definition three_frames : list Sample3 :=
  [(Sample.nearest (1#10), 2%Z, 1%Z); (Sample.nearest (2#10), 0%Z, 0%Z);
   (Sample.nearest (3#10), 1%Z, 1%Z)].

Lemma inference_totals_are_sums_witness :
  (0 <= total_frames initial_stats)%Z
  /\ exists st,
       update_all initial_stats three_frames = Ok st
       /\ total_frames st = 3%Z
       /\ total_detections st = 3%Z
       /\ total_events st = 2%Z.
Proof.
  assert (0 <= total_frames initial_stats)%Z as Hpos by (simpl; lia).
  split; [exact Hpos|].
  destruct (inference_totals_are_sums three_frames initial_stats Hpos)
    as (st & Hrun & Hframes & Hfound & Hevents & _).
  exists st. split; [exact Hrun|]. split; [exact Hframes|].
  split; [exact Hfound|exact Hevents].
Defined.

(** The average itself is a rounded number: after these three frames it is
    0.20000000000000004, which is not the mean of the three times. *)
Example average_is_rounded :
  exists st,
    update_all initial_stats three_frames = Ok st
    /\ avg_inference_ms st == 7205759403792795 # 36028797018963968
    /\ ~ avg_inference_ms st
         == (Sample.nearest (1#10) + Sample.nearest (2#10)
             + Sample.nearest (3#10)) / 3.
Proof.
  eexists. split; [vm_compute; reflexivity|].
  split; [vm_compute; reflexivity|vm_compute; discriminate].
Qed.

End StatsRuns.
